(** * Event management platform: registration store and event policy

    A shallow embedding of [src/models/memoryStore.js], [src/models/Event.js]
    and [src/models/User.js], with the properties of the registration
    bookkeeping, the status and capacity policy and the entity updates. *)

From Stdlib Require Import ZArith Lia Ascii String.
From stdpp Require Import base option strings list gmap fin_maps fin_sets.

Local Open Scope Z_scope.

(** ** JavaScript values

    The fragment of JavaScript values the models handle.  Numbers are the
    integers ([VNum]) and NaN ([VNaN]).  A [Date] object is its time value in
    milliseconds since the epoch, [None] standing for an Invalid Date.
    Objects are compared by value here; JavaScript compares [Date] objects by
    reference, which matters only when one is used as a [Map] key, and the
    identifiers of this program are uuid strings. *)

Inductive val : Type :=
| VUndef
| VNull
| VBool (b : bool)
| VNum (n : Z)
| VNaN
| VStr (s : string)
| VDate (t : option Z).

#[global] Instance val_eq_dec : EqDecision val.
Proof. solve_decision. Defined.

#[global] Instance val_inhabited : Inhabited val := populate VUndef.

Definition val_to_sum (v : val) : unit + unit + bool + Z + unit + string + option Z :=
  match v with
  | VUndef => inl (inl (inl (inl (inl (inl tt)))))
  | VNull => inl (inl (inl (inl (inl (inr tt)))))
  | VBool b => inl (inl (inl (inl (inr b))))
  | VNum n => inl (inl (inl (inr n)))
  | VNaN => inl (inl (inr tt))
  | VStr s => inl (inr s)
  | VDate t => inr t
  end.

Definition val_of_sum (x : unit + unit + bool + Z + unit + string + option Z) : val :=
  match x with
  | inl (inl (inl (inl (inl (inl _))))) => VUndef
  | inl (inl (inl (inl (inl (inr _))))) => VNull
  | inl (inl (inl (inl (inr b)))) => VBool b
  | inl (inl (inl (inr n))) => VNum n
  | inl (inl (inr _)) => VNaN
  | inl (inr s) => VStr s
  | inr t => VDate t
  end.

#[global] Instance val_countable : Countable val.
Proof.
  refine (inj_countable' val_to_sum val_of_sum _).
  intros v. destruct v; reflexivity.
Defined.

(** A plain object is a finite map from property names to values; reading a
    property that is not there gives [undefined]. *)
Abbreviation obj := (gmap string val).

Definition prop (o : obj) (key : string) : val := default VUndef (o !! key).

(** [Object.assign(target, source)]: every own property of [source] is
    written over [target]. *)
Definition Object_assign (target source : obj) : obj := source ∪ target.

(** [Object.keys(o)].  JavaScript lists the keys in insertion order; the
    loops over them below write each key at most once, so the order is
    immaterial. *)
Definition Object_keys (o : obj) : list string := (map_to_list o).*1.

(** A default value of a destructured constructor argument applies when the
    property is [undefined]. *)
Definition or_default (v d : val) : val :=
  if bool_decide (v = VUndef) then d else v.

(** ** The registration store ([src/models/memoryStore.js]) *)

Module Store.

(** The four [Map]s of the [MemoryStore] class.  A [Set] is held by exactly
    one map entry and never handed out, so sets are plain values. *)
Record MemoryStore : Type := mkStore {
  users : gmap val obj;
  events : gmap val obj;
  eventRegistrations : gmap val (gset val);
  userRegistrations : gmap val (gset val)
}.

(** The store right after [constructor()]. *)
Definition empty : MemoryStore := mkStore ∅ ∅ ∅ ∅.

Definition createUser (user : obj) (s : MemoryStore) : obj * MemoryStore :=
  (user,
   mkStore (<[prop user "id" := user]> (users s))
           (events s)
           (eventRegistrations s)
           (<[prop user "id" := ∅]> (userRegistrations s))).

Definition getUserById (id : val) (s : MemoryStore) : option obj := users s !! id.

(** [updateUser] and [updateEvent] return [null] ([None]) when the id does not
    resolve. *)
Definition updateUser (id : val) (updates : obj) (s : MemoryStore)
  : option obj * MemoryStore :=
  match users s !! id with
  | Some user =>
      let user' := Object_assign user updates in
      (Some user',
       mkStore (<[id := user']> (users s)) (events s)
               (eventRegistrations s) (userRegistrations s))
  | None => (None, s)
  end.

Definition deleteUser (id : val) (s : MemoryStore) : option obj * MemoryStore :=
  match users s !! id with
  | Some user =>
      (Some user,
       mkStore (delete id (users s))
               (events s)
               ((λ registeredUsers, registeredUsers ∖ {[id]}) <$> eventRegistrations s)
               (delete id (userRegistrations s)))
  | None => (None, s)
  end.

Definition createEvent (event : obj) (s : MemoryStore) : obj * MemoryStore :=
  (event,
   mkStore (users s)
           (<[prop event "id" := event]> (events s))
           (<[prop event "id" := ∅]> (eventRegistrations s))
           (userRegistrations s)).

Definition getEventById (id : val) (s : MemoryStore) : option obj := events s !! id.

Definition updateEvent (id : val) (updates : obj) (s : MemoryStore)
  : option obj * MemoryStore :=
  match events s !! id with
  | Some event =>
      let event' := Object_assign event updates in
      (Some event',
       mkStore (users s) (<[id := event']> (events s))
               (eventRegistrations s) (userRegistrations s))
  | None => (None, s)
  end.

(** One turn of the loop of [deleteEvent]: the event id leaves the
    registration set of [userId], when that user has one. *)
Definition dropEvent (id userId : val) (m : gmap val (gset val))
  : gmap val (gset val) :=
  alter (λ userEvents, userEvents ∖ {[id]}) userId m.

Definition deleteEvent (id : val) (s : MemoryStore) : option obj * MemoryStore :=
  match events s !! id with
  | Some event =>
      let registeredUsers := default ∅ (eventRegistrations s !! id) in
      (Some event,
       mkStore (users s)
               (delete id (events s))
               (delete id (eventRegistrations s))
               (set_fold (dropEvent id) (userRegistrations s) registeredUsers))
  | None => (None, s)
  end.

(** The two statements [registerUserForEvent] runs on each index:
    [if (!m.has(k)) m.set(k, new Set()); m.get(k).add(x)]. *)
Definition ensure_add (k x : val) (m : gmap val (gset val))
  : gmap val (gset val) :=
  alter (λ regs, {[x]} ∪ regs) k
    (match m !! k with Some _ => m | None => <[k := ∅]> m end).

Definition registerUserForEvent (userId eventId : val) (s : MemoryStore)
  : bool * MemoryStore :=
  match users s !! userId, events s !! eventId with
  | Some _, Some _ =>
      let already :=
        match eventRegistrations s !! eventId with
        | Some regs => bool_decide (userId ∈ regs)
        | None => false
        end in
      if already then (false, s)
      else
        (true,
         mkStore (users s) (events s)
                 (ensure_add eventId userId (eventRegistrations s))
                 (ensure_add userId eventId (userRegistrations s)))
  | _, _ => (false, s)
  end.

Definition unregisterUserFromEvent (userId eventId : val) (s : MemoryStore)
  : bool * MemoryStore :=
  (true,
   mkStore (users s) (events s)
           (alter (λ regs, regs ∖ {[userId]}) eventId (eventRegistrations s))
           (alter (λ regs, regs ∖ {[eventId]}) userId (userRegistrations s))).

(** The read queries.  Arrays built from a [Set] come in insertion order in
    JavaScript; [elements] fixes some order, and no property below depends
    on it. *)
Definition getEventRegistrations (eventId : val) (s : MemoryStore) : list obj :=
  let userIds := default ∅ (eventRegistrations s !! eventId) in
  omap (λ userId, users s !! userId) (elements userIds).

Definition getUserRegistrations (userId : val) (s : MemoryStore) : list obj :=
  let eventIds := default ∅ (userRegistrations s !! userId) in
  omap (λ eventId, events s !! eventId) (elements eventIds).

Definition isUserRegisteredForEvent (userId eventId : val) (s : MemoryStore) : bool :=
  match eventRegistrations s !! eventId with
  | Some regs => bool_decide (userId ∈ regs)
  | None => false
  end.

Definition getEventRegistrationCount (eventId : val) (s : MemoryStore) : nat :=
  match eventRegistrations s !! eventId with
  | Some regs => size regs
  | None => 0%nat
  end.

Definition clear (s : MemoryStore) : MemoryStore := mkStore ∅ ∅ ∅ ∅.

(** The two mirrored indexes read as sets: the participants of an event and
    the events a user is registered for, empty when the map has no entry. *)
Definition participants (s : MemoryStore) (eventId : val) : gset val :=
  default ∅ (eventRegistrations s !! eventId).

Definition registrations (s : MemoryStore) (userId : val) : gset val :=
  default ∅ (userRegistrations s !! userId).

(** The remaining queries.  A [Map] is walked in insertion order in
    JavaScript; [map_to_list] fixes some order of the same entries.
    [getUserByEmail] and [getEventsByOrganizer] take the string their callers
    pass, against which [===] holds of that very string only. *)
Definition getAllUsers (s : MemoryStore) : list obj := (map_to_list (users s)).*2.

Definition getAllEvents (s : MemoryStore) : list obj := (map_to_list (events s)).*2.

Fixpoint first_with_email (email : string) (records : list obj) : option obj :=
  match records with
  | [] => None
  | user :: rest =>
      if bool_decide (prop user "email" = VStr email) then Some user
      else first_with_email email rest
  end.

(** [null] is [None]. *)
Definition getUserByEmail (email : string) (s : MemoryStore) : option obj :=
  first_with_email email (getAllUsers s).

Definition getEventsByOrganizer (organizerId : string) (s : MemoryStore)
  : list obj :=
  filter (λ event, prop event "organizerId" = VStr organizerId) (getAllEvents s).

Definition getTotalUsers (s : MemoryStore) : nat := size (users s).

Definition getTotalEvents (s : MemoryStore) : nat := size (events s).

Definition getTotalRegistrations (s : MemoryStore) : nat :=
  map_fold (λ _ registrations total, (total + size registrations)%nat) 0%nat
    (eventRegistrations s).

(** The mutating operations as data, to speak of sequences of calls. *)
Inductive op : Type :=
| CreateUser (user : obj)
| CreateEvent (event : obj)
| UpdateUser (id : val) (updates : obj)
| UpdateEvent (id : val) (updates : obj)
| DeleteUser (id : val)
| DeleteEvent (id : val)
| Register (userId eventId : val)
| Unregister (userId eventId : val)
| Clear.

Definition step (o : op) (s : MemoryStore) : MemoryStore :=
  match o with
  | CreateUser user => (createUser user s).2
  | CreateEvent event => (createEvent event s).2
  | UpdateUser id updates => (updateUser id updates s).2
  | UpdateEvent id updates => (updateEvent id updates s).2
  | DeleteUser id => (deleteUser id s).2
  | DeleteEvent id => (deleteEvent id s).2
  | Register userId eventId => (registerUserForEvent userId eventId s).2
  | Unregister userId eventId => (unregisterUserFromEvent userId eventId s).2
  | Clear => clear s
  end.

(** The store after a sequence of calls, first call first. *)
Definition run (ops : list op) (s : MemoryStore) : MemoryStore :=
  foldl (λ acc o, step o acc) s ops.

(** Mirror consistency of the two indexes. *)
Definition mirrored (s : MemoryStore) : Prop :=
  ∀ U E : val, U ∈ participants s E ↔ E ∈ registrations s U.

(** Every registered pair joins a stored user and a stored event. *)
Definition referential (s : MemoryStore) : Prop :=
  ∀ U E : val,
    U ∈ participants s E → is_Some (users s !! U) ∧ is_Some (events s !! E).

(** A call that does not re-create an id that still holds registrations:
    [createUser] with an id that is not stored or whose registration set is
    empty, [createEvent] with an id that is not stored or whose participant
    set is empty. *)
Definition keeps_edges (s : MemoryStore) (o : op) : Prop :=
  match o with
  | CreateUser user =>
      users s !! prop user "id" = None ∨ registrations s (prop user "id") = ∅
  | CreateEvent event =>
      events s !! prop event "id" = None ∨ participants s (prop event "id") = ∅
  | _ => True
  end.

Fixpoint admissible (s : MemoryStore) (ops : list op) : Prop :=
  match ops with
  | [] => True
  | o :: rest => keeps_edges s o ∧ admissible (step o s) rest
  end.

End Store.

(** ** Outcomes of dynamically typed code

    [Ret] is a normal completion and [Throw] a [TypeError].  [Beyond] marks a
    run that leaves the modelled fragment of JavaScript: the conversion of a
    string that is not a plain sequence of decimal digits to a number, and
    [+] applied to a string or to a [Date]. *)

Inductive js (A : Type) : Type :=
| Ret (a : A)
| Throw
| Beyond.

Arguments Ret {A} a.
Arguments Throw {A}.
Arguments Beyond {A}.

#[global] Instance js_ret : MRet js := λ A a, Ret a.
#[global] Instance js_bind : MBind js := λ A B f m,
  match m with
  | Ret a => f a
  | Throw => Throw
  | Beyond => Beyond
  end.

(** A JavaScript number of the fragment: an integer, or NaN ([None]). *)
Abbreviation num := (option Z).

(** ** Conversions and string helpers *)

Definition truthy (v : val) : bool :=
  match v with
  | VUndef | VNull | VNaN => false
  | VBool b => b
  | VNum n => negb (n =? 0)
  | VStr s => negb (String.eqb s "")
  | VDate _ => true
  end.

Definition typeof (v : val) : string :=
  match v with
  | VUndef => "undefined"
  | VNull | VDate _ => "object"
  | VBool _ => "boolean"
  | VNum _ | VNaN => "number"
  | VStr _ => "string"
  end.

Definition digit_upto (hi : nat) (c : ascii) : bool :=
  (48 <=? nat_of_ascii c)%nat && (nat_of_ascii c <=? 48 + hi)%nat.

Definition digit_value (c : ascii) : Z := Z.of_nat (nat_of_ascii c) - 48.

Fixpoint all_digits (s : string) : bool :=
  match s with
  | EmptyString => true
  | String c r => digit_upto 9 c && all_digits r
  end.

Fixpoint digits_value (acc : Z) (s : string) : Z :=
  match s with
  | EmptyString => acc
  | String c r => digits_value (10 * acc + digit_value c) r
  end.

(** [Number(s)] on a string: a sequence of decimal digits is its value, the
    empty string is 0; every other string is outside the fragment. *)
Definition StringToNumber (s : string) : js num :=
  if all_digits s then Ret (Some (digits_value 0 s)) else Beyond.

Definition ToNumber (v : val) : js num :=
  match v with
  | VUndef | VNaN => Ret None
  | VNull => Ret (Some 0)
  | VBool b => Ret (Some (if b then 1 else 0))
  | VNum n => Ret (Some n)
  | VStr s => StringToNumber s
  | VDate t => Ret t
  end.

(** [a + b] for a number [a]: numeric addition unless [b] is a string or a
    [Date], where JavaScript concatenates strings. *)
Definition js_add (a : num) (b : val) : js num :=
  match b with
  | VStr _ | VDate _ => Beyond
  | _ => n ← ToNumber b; Ret (x ← a; y ← n; Some (x + y))
  end.

(** [s.split(':')]: the pieces between the colons, at least one. *)
Fixpoint split_colon (s : string) : list string :=
  match s with
  | EmptyString => [EmptyString]
  | String c r =>
      if Ascii.eqb c ":" then EmptyString :: split_colon r
      else match split_colon r with
           | piece :: rest => String c piece :: rest
           | [] => [String c EmptyString]
           end
  end.

(** [s.split(sep)] for a separator of one character. *)
Fixpoint split_on (sep : ascii) (s : string) : list string :=
  match s with
  | EmptyString => [EmptyString]
  | String c r =>
      if Ascii.eqb c sep then EmptyString :: split_on sep r
      else match split_on sep r with
           | piece :: rest => String c piece :: rest
           | [] => [String c EmptyString]
           end
  end.

Fixpoint map_Number (pieces : list string) : js (list num) :=
  match pieces with
  | [] => Ret []
  | p :: rest => n ← StringToNumber p; ns ← map_Number rest; Ret (n :: ns)
  end.

(** The relational operators on time values and numbers: false as soon as
    one side is NaN. *)
Definition num_lt (a b : num) : bool :=
  match a, b with Some x, Some y => bool_decide (x < y) | _, _ => false end.

Definition num_le (a b : num) : bool :=
  match a, b with Some x, Some y => bool_decide (x ≤ y) | _, _ => false end.

(** ** Dates

    Time values are integer milliseconds since the epoch; a [Date] holds one
    of at most 8.64e15 in absolute value, or NaN (an Invalid Date).  The
    local time zone is a fixed offset [tzOffset] east of UTC in milliseconds
    (no daylight saving), and [Date_parse] is the engine's date-string
    parser; both belong to the environment. *)

Definition msPerMinute : Z := 60000.
Definition msPerHour : Z := 3600000.
Definition msPerDay : Z := 86400000.

(** The time values a [Date] can hold. *)
Definition maxTime : Z := 8640000000000000.

Definition valid_time (t : Z) : Prop := - maxTime ≤ t ≤ maxTime.

#[global] Instance valid_time_dec (t : Z) : Decision (valid_time t).
Proof. unfold valid_time. apply _. Defined.

(** [TimeClip]: a time value out of range becomes NaN. *)
Definition TimeClip (time : num) : num :=
  t ← time; if bool_decide (valid_time t) then Some t else None.

Section Dates.
Variable tzOffset : Z.
Variable Date_parse : string → num.

Definition LocalTime (t : Z) : Z := t + tzOffset.
Definition UTC (t : Z) : Z := t - tzOffset.
Definition Day (t : Z) : Z := t `div` msPerDay.
Definition HourFromTime (t : Z) : Z := (t `div` msPerHour) `mod` 24.
Definition MinFromTime (t : Z) : Z := (t `div` msPerMinute) `mod` 60.
Definition SecFromTime (t : Z) : Z := (t `div` 1000) `mod` 60.
Definition msFromTime (t : Z) : Z := t `mod` 1000.

Definition MakeTime (hour min sec ms : num) : num :=
  h ← hour; m ← min; s ← sec; milli ← ms;
  Some (h * msPerHour + m * msPerMinute + s * 1000 + milli).

Definition MakeDate (day : Z) (time : num) : num :=
  tm ← time; Some (day * msPerDay + tm).

(** [new Date(value)] as a time value: the time value of a [Date], the
    parse of a string, the number of any other value, clipped. *)
Definition newDate (value : val) : num :=
  TimeClip
    match value with
    | VDate t => t
    | VStr s => Date_parse s
    | VUndef | VNaN => None
    | VNull => Some 0
    | VBool b => Some (if b then 1 else 0)
    | VNum n => Some n
    end.

(** [d.setHours(hour, min, 0, 0)] and [d.setMinutes(min)], as the new time
    value of [d]: the fields are set in local time and the result is
    clipped. *)
Definition setHours (d : num) (hour min : num) : num :=
  t ← d;
  TimeClip
    (UTC <$> MakeDate (Day (LocalTime t))
               (MakeTime hour min (Some 0) (Some 0))).

Definition getMinutes (d : num) : num := t ← d; Some (MinFromTime (LocalTime t)).

Definition setMinutes (d : num) (min : num) : num :=
  t ← d;
  let local := LocalTime t in
  TimeClip
    (UTC <$> MakeDate (Day local)
               (MakeTime (Some (HourFromTime local)) min
                         (Some (SecFromTime local)) (Some (msFromTime local)))).

End Dates.

(** ** The Event model ([src/models/Event.js]) *)

Module Event.

Record Validation : Type := mkValidation {
  isValid : bool;
  errors : list string
}.

Definition allowedUpdates : list string :=
  ["title"; "description"; "date"; "time"; "duration";
   "location"; "maxParticipants"; "category"; "isPublic"; "status"]%string.

(** The test of [/^([0-1]?[0-9]|2[0-3]):[0-5][0-9]$/]. *)
Definition time_format (s : string) : bool :=
  match s with
  | String h (String c (String m1 (String m2 EmptyString))) =>
      digit_upto 9 h && Ascii.eqb c ":" && digit_upto 5 m1 && digit_upto 9 m2
  | String h1 (String h2 (String c (String m1 (String m2 EmptyString)))) =>
      ((digit_upto 1 h1 && digit_upto 9 h2) || (Ascii.eqb h1 "2" && digit_upto 3 h2))
      && Ascii.eqb c ":" && digit_upto 5 m1 && digit_upto 9 m2
  | _ => false
  end.

(** [v <= 0], reached only where [typeof v] is ["number"]. *)
Definition not_positive (v : val) : bool :=
  match v with
  | VNum n => bool_decide (n ≤ 0)
  | _ => false
  end.

Definition is_string (v : val) : bool := String.eqb (typeof v) "string".
Definition is_number (v : val) : bool := String.eqb (typeof v) "number".

Section WithClock.
Variable tzOffset : Z.
Variable Date_parse : string → num.

(** [new Event(data)], with the generated uuid and the clock made explicit. *)
Definition construct (uuid : string) (now : Z) (data : obj) : obj :=
  list_to_map
    [("id", VStr uuid);
     ("title", prop data "title");
     ("description", prop data "description");
     ("date", VDate (newDate Date_parse (prop data "date")));
     ("time", prop data "time");
     ("duration", or_default (prop data "duration") (VNum 60));
     ("location", prop data "location");
     ("maxParticipants", or_default (prop data "maxParticipants") VNull);
     ("organizerId", prop data "organizerId");
     ("category", or_default (prop data "category") (VStr "General"));
     ("isPublic", or_default (prop data "isPublic") (VBool true));
     ("createdAt", VDate (Some now));
     ("updatedAt", VDate (Some now));
     ("isActive", VBool true);
     ("status", VStr "upcoming")]%string.

(** [Throw] when [this.time] has no [split] method. *)
Definition getDateTime (this : obj) : js num :=
  match prop this "time" with
  | VStr time =>
      parts ← map_Number (split_colon time);
      let hours := default None (parts !! 0%nat) in
      let minutes := default None (parts !! 1%nat) in
      let eventDateTime := newDate Date_parse (prop this "date") in
      Ret (setHours tzOffset eventDateTime hours minutes)
  | _ => Throw
  end.

Definition hasStarted (now : Z) (this : obj) : js bool :=
  start ← getDateTime this;
  Ret (num_le start (Some now)).

(** The end of the event: the start moved by [this.duration] minutes. *)
Definition endOf (this : obj) (startTime : num) : js num :=
  mins ← js_add (getMinutes tzOffset startTime) (prop this "duration");
  Ret (setMinutes tzOffset startTime mins).

Definition hasEnded (now : Z) (this : obj) : js bool :=
  start ← getDateTime this;
  endTime ← endOf this start;
  Ret (num_lt endTime (Some now)).

(** [updateStatus()]: the event after the call and the returned status. *)
Definition updateStatus (now : Z) (this : obj) : js (obj * val) :=
  startTime ← getDateTime this;
  endTime ← endOf this startTime;
  if bool_decide (prop this "status" = VStr "cancelled") then
    Ret (this, prop this "status")
  else
    let status :=
      if num_lt (Some now) startTime then VStr "upcoming"
      else if num_le startTime (Some now) && num_le (Some now) endTime
           then VStr "ongoing"
           else VStr "completed" in
    Ret (<["status" := status]> this, status).

Definition isFull (currentParticipants : Z) (this : obj) : js bool :=
  let maxParticipants := prop this "maxParticipants" in
  if bool_decide (maxParticipants = VNull) then Ret false
  else m ← ToNumber maxParticipants; Ret (num_le m (Some currentParticipants)).

(** The value [update] stores under an allowed key: a [Date] built from the
    given value for ["date"], the given value itself for the others. *)
Definition assigned_value (updates : obj) (key : string) : val :=
  if String.eqb key "date"
  then VDate (newDate Date_parse (prop updates key))
  else prop updates key.

(** One turn of the [forEach] of [update]. *)
Definition assign_allowed (updates : obj) (this : obj) (key : string) : obj :=
  if bool_decide (key ∈ allowedUpdates)
  then <[key := assigned_value updates key]> this
  else this.

Definition update (now : Z) (updates : obj) (this : obj) : obj :=
  <["updatedAt" := VDate (Some now)]>
    (foldl (assign_allowed updates) this (Object_keys updates)).

(** The start of the local calendar day of [now]:
    [new Date().setHours(0, 0, 0, 0)]. *)
Definition startOfToday (now : Z) : num :=
  setHours tzOffset (Some now) (Some 0) (Some 0).

Definition required_string (v : val) (message : string) : list string :=
  if negb (truthy v) || negb (is_string v) then [message] else [].

Definition date_errors (now : Z) (date : val) : list string :=
  if negb (truthy date) then ["Date is required"]%string
  else
    let eventDate := newDate Date_parse date in
    match eventDate with
    | None => ["Date must be a valid date"]%string
    | Some _ =>
        if num_lt eventDate (startOfToday now)
        then ["Event date cannot be in the past"]%string
        else []
    end.

(** The string held by a value whose [typeof] is ["string"]. *)
Definition string_of (v : val) : string :=
  match v with VStr s => s | _ => EmptyString end.

Definition time_errors (time : val) : list string :=
  if negb (truthy time) || negb (is_string time)
  then ["Time is required and must be a string"]%string
  else if negb (time_format (string_of time))
       then ["Time must be in HH:MM format"]%string
       else [].

Definition positive_number (v : val) (message : string) : list string :=
  if truthy v && (negb (is_number v) || not_positive v) then [message] else [].

(** [Event.validate(eventData)]; the errors come in the order of the checks. *)
Definition validate (now : Z) (eventData : obj) : Validation :=
  let errs :=
    required_string (prop eventData "title") "Title is required and must be a string"
    ++ required_string (prop eventData "description")
         "Description is required and must be a string"
    ++ date_errors now (prop eventData "date")
    ++ time_errors (prop eventData "time")
    ++ positive_number (prop eventData "duration")
         "Duration must be a positive number (in minutes)"
    ++ required_string (prop eventData "location")
         "Location is required and must be a string"
    ++ positive_number (prop eventData "maxParticipants")
         "Max participants must be a positive number"
    ++ required_string (prop eventData "organizerId") "Organizer ID is required" in
  mkValidation (bool_decide (length errs = 0%nat)) errs.

(** [Date.prototype.toISOString] on a valid time value, a built-in of the
    environment; on an Invalid Date it raises a [RangeError]. *)
Variable Date_toISOString : Z → string.

(** [toJSON()]: a copy of the event whose date is the part of the ISO string
    before the ['T'].  [Throw] when [this.date] is an Invalid Date or no
    [Date] at all. *)
Definition toJSON (this : obj) : js obj :=
  match prop this "date" with
  | VDate (Some t) =>
      Ret (<["date" :=
               VStr (default EmptyString
                       (head (split_on "T" (Date_toISOString t))))]> this)
  | _ => Throw
  end.

(** The callback shared by [filterUpcoming], [filterOngoing] and
    [filterCompleted], run over the array: each event has its status
    recomputed in place and is kept when the status is the wanted one and
    [isActive] is truthy.  The result is the array with its events as they
    are after the call, and the events kept.  When [updateStatus] raises,
    the whole call raises. *)
Fixpoint filter_by_status (wanted : string) (now : Z) (events : list obj)
  : js (list obj * list obj) :=
  match events with
  | [] => Ret ([], [])
  | event :: rest =>
      updated ← updateStatus now event;
      others ← filter_by_status wanted now rest;
      let event' := updated.1 in
      Ret (event' :: others.1,
           if bool_decide (prop event' "status" = VStr wanted)
              && truthy (prop event' "isActive")
           then event' :: others.2 else others.2)
  end.

Definition filterUpcoming := filter_by_status "upcoming".
Definition filterOngoing := filter_by_status "ongoing".
Definition filterCompleted := filter_by_status "completed".

End WithClock.

End Event.

(** ** Regular expressions

    The regular expressions of the two [validate] functions are anchored at
    both ends and carry no flag, so that [test] asks whether the whole
    string belongs to the language of the expression.  [regex_test] decides
    it by derivatives; [matches] is the language.  A character is a code
    unit below 256. *)

Inductive regex : Type :=
| RNever
| REmpty
| RClass (p : ascii → bool)
| RSeq (r1 r2 : regex)
| RAlt (r1 r2 : regex)
| RStar (r : regex).

(** [r?] and [r+]. *)
Definition ROpt (r : regex) : regex := RAlt REmpty r.
Definition RPlus (r : regex) : regex := RSeq r (RStar r).

Fixpoint nullable (r : regex) : bool :=
  match r with
  | RNever | RClass _ => false
  | REmpty | RStar _ => true
  | RSeq r1 r2 => nullable r1 && nullable r2
  | RAlt r1 r2 => nullable r1 || nullable r2
  end.

Fixpoint deriv (c : ascii) (r : regex) : regex :=
  match r with
  | RNever | REmpty => RNever
  | RClass p => if p c then REmpty else RNever
  | RSeq r1 r2 =>
      if nullable r1 then RAlt (RSeq (deriv c r1) r2) (deriv c r2)
      else RSeq (deriv c r1) r2
  | RAlt r1 r2 => RAlt (deriv c r1) (deriv c r2)
  | RStar r1 => RSeq (deriv c r1) (RStar r1)
  end.

Fixpoint accepts (r : regex) (s : list ascii) : bool :=
  match s with
  | [] => nullable r
  | c :: rest => accepts (deriv c r) rest
  end.

Definition regex_test (r : regex) (s : string) : bool :=
  accepts r (list_ascii_of_string s).

Inductive matches : regex → list ascii → Prop :=
| matches_empty : matches REmpty []
| matches_class p c : p c = true → matches (RClass p) [c]
| matches_seq r1 r2 s1 s2 :
    matches r1 s1 → matches r2 s2 → matches (RSeq r1 r2) (s1 ++ s2)
| matches_alt_l r1 r2 s : matches r1 s → matches (RAlt r1 r2) s
| matches_alt_r r1 r2 s : matches r2 s → matches (RAlt r1 r2) s
| matches_star_nil r : matches (RStar r) []
| matches_star_cons r s1 s2 :
    matches r s1 → matches (RStar r) s2 → matches (RStar r) (s1 ++ s2).

(** [\s] among the code units below 256. *)
Definition is_space (c : ascii) : bool :=
  bool_decide (nat_of_ascii c ∈ [9; 10; 11; 12; 13; 32; 160]%nat).

Definition is_char (c0 c : ascii) : bool := Ascii.eqb c c0.

(** [/^([0-1]?[0-9]|2[0-3]):[0-5][0-9]$/] of [Event.validate]. *)
Definition time_regex : regex :=
  RSeq (RAlt (RSeq (ROpt (RClass (digit_upto 1))) (RClass (digit_upto 9)))
             (RSeq (RClass (is_char "2")) (RClass (digit_upto 3))))
       (RSeq (RClass (is_char ":"))
             (RSeq (RClass (digit_upto 5)) (RClass (digit_upto 9)))).

(** [[^\s@]]. *)
Definition not_space_or_at (c : ascii) : bool :=
  negb (is_space c) && negb (is_char "@" c).

(** [/^[^\s@]+@[^\s@]+\.[^\s@]+$/] of [User.validate]. *)
Definition email_regex : regex :=
  RSeq (RPlus (RClass not_space_or_at))
       (RSeq (RClass (is_char "@"))
             (RSeq (RPlus (RClass not_space_or_at))
                   (RSeq (RClass (is_char "."))
                         (RPlus (RClass not_space_or_at))))).

(** ** The User model ([src/models/User.js]) *)

Module User.

Definition allowedUpdates : list string :=
  ["firstName"; "lastName"; "email"; "role"; "isActive"]%string.

(** [new User(data)], with the generated uuid and the clock made explicit. *)
Definition construct (uuid : string) (now : Z) (data : obj) : obj :=
  list_to_map
    [("id", VStr uuid);
     ("email", prop data "email");
     ("password", prop data "password");
     ("firstName", prop data "firstName");
     ("lastName", prop data "lastName");
     ("role", or_default (prop data "role") (VStr "attendee"));
     ("createdAt", VDate (Some now));
     ("updatedAt", VDate (Some now));
     ("isActive", VBool true)]%string.

Definition assign_allowed (updates : obj) (this : obj) (key : string) : obj :=
  if bool_decide (key ∈ allowedUpdates) then <[key := prop updates key]> this
  else this.

Definition update (now : Z) (updates : obj) (this : obj) : obj :=
  <["updatedAt" := VDate (Some now)]>
    (foldl (assign_allowed updates) this (Object_keys updates)).

Definition isOrganizer (this : obj) : bool :=
  bool_decide (prop this "role" = VStr "organizer").

Definition isAttendee (this : obj) : bool :=
  bool_decide (prop this "role" = VStr "attendee").

(** A value inside a template literal.  Numbers and dates, whose text
    depends on their magnitude and on the locale, are outside the fragment. *)
Definition template_text (v : val) : js string :=
  match v with
  | VStr str => Ret str
  | VUndef => Ret "undefined"%string
  | VNull => Ret "null"%string
  | VBool b => Ret (if b then "true" else "false")%string
  | VNaN => Ret "NaN"%string
  | VNum _ | VDate _ => Beyond
  end.

Definition getFullName (this : obj) : js string :=
  first ← template_text (prop this "firstName");
  last ← template_text (prop this "lastName");
  Ret (first ++ " " ++ last)%string.

(** [toJSON()]: a copy without the password. *)
Definition toJSON (this : obj) : obj := delete "password" this.

(** The double quote inside the message about roles. *)
Definition quote : string := String "034" EmptyString.

Definition role_message : string :=
  ("Role must be either " ++ quote ++ "organizer" ++ quote ++ " or "
   ++ quote ++ "attendee" ++ quote)%string.

Definition email_errors (email : val) : list string :=
  if negb (truthy email) || negb (Event.is_string email)
  then ["Email is required and must be a string"]%string
  else if negb (regex_test email_regex (Event.string_of email))
       then ["Email must be a valid email address"]%string
       else [].

Definition password_errors (password : val) : list string :=
  if negb (truthy password) || negb (Event.is_string password)
  then ["Password is required and must be a string"]%string
  else if bool_decide (String.length (Event.string_of password) < 6)%nat
       then ["Password must be at least 6 characters long"]%string
       else [].

Definition role_errors (role : val) : list string :=
  if truthy role
     && negb (bool_decide (role ∈ [VStr "organizer"; VStr "attendee"]))
  then [role_message] else [].

(** [User.validate(userData)]; the errors come in the order of the checks. *)
Definition validate (userData : obj) : Event.Validation :=
  let errs :=
    email_errors (prop userData "email")
    ++ password_errors (prop userData "password")
    ++ Event.required_string (prop userData "firstName")
         "First name is required and must be a string"
    ++ Event.required_string (prop userData "lastName")
         "Last name is required and must be a string"
    ++ role_errors (prop userData "role") in
  Event.mkValidation (bool_decide (length errs = 0%nat)) errs.

End User.

(** ** The handlers of the event routes ([EventController])

    A handler reads the request (the path parameter [id], the body, the
    user the [auth] middleware put in [req.user]) and the store, and sends
    one response.  The texts under [error] and [message] are left out of the
    responses; the e-mails, sent without being awaited and with their
    failures logged, touch neither the store nor the response. *)

Module EventController.
Import Store.

(** [a === b].  Two [Date]s are equal when they are one object, which
    their values do not tell. *)
Definition strict_equal (a b : val) : js bool :=
  match a, b with
  | VDate _, VDate _ => Beyond
  | VNaN, _ | _, VNaN => Ret false
  | _, _ => Ret (bool_decide (a = b))
  end.

Inductive response : Type :=
| Refused (status : Z) (code : string)
    (* res.status(status).json({ error, code }) *)
| Invalid (details : list string)
    (* res.status(400).json({ error: 'Validation failed', details }) *)
| EventFull (maxParticipants : val) (currentRegistrations : nat)
    (* res.status(400).json({ error, code: 'EVENT_FULL', ... }) *)
| Failure
    (* the catch clause: res.status(500).json({ error, details }) *)
| Created (event : obj)
    (* res.status(201).json({ message, event }) *)
| Updated (event : obj)
    (* res.json({ message, event }) *)
| Deleted (participantsNotified : nat)
    (* res.json({ message, participantsNotified }) *)
| Registered (event : obj) (registrationCount : nat)
    (* res.status(201).json({ message, event, registrationCount }) *)
| Unregistered (event : obj).
    (* res.json({ message, event }) *)

Definition status_code (r : response) : Z :=
  match r with
  | Refused status _ => status
  | Invalid _ | EventFull _ _ => 400
  | Failure => 500
  | Created _ | Registered _ _ => 201
  | Updated _ | Deleted _ | Unregistered _ => 200
  end.

(** The event a handler got from [getEventById] is the stored object: what
    one of its methods writes shows in the store, under the same key. *)
Definition written_back (id : val) (event : obj) (s : MemoryStore)
  : MemoryStore :=
  mkStore (users s) (<[id := event]> (events s))
          (eventRegistrations s) (userRegistrations s).

(** A step inside [try { ... } catch (error) { res.status(500).json(...) }]:
    when it raises, with the store at [s], the handler answers 500. *)
Definition caught {A : Type} (step : js A) (s : MemoryStore)
    (rest : A → js (response * MemoryStore)) : js (response * MemoryStore) :=
  match step with
  | Ret a => rest a
  | Throw => Ret (Failure, s)
  | Beyond => Beyond
  end.

Section WithClock.
Variable tzOffset : Z.
Variable Date_parse : string → num.
Variable Date_toISOString : Z → string.

(** [POST /events]; [uuid] is the identifier [uuidv4()] gives the event,
    [now] the instant of the validation and [created] that of the
    construction. *)
Definition createEvent (uuid : string) (now created : Z) (body : obj)
    (organizer : obj) (s : MemoryStore) : js (response * MemoryStore) :=
  if negb (User.isOrganizer organizer)
  then Ret (Refused 403 "INSUFFICIENT_PRIVILEGES", s)
  else
    let eventData := <["organizerId" := prop organizer "id"]> body in
    let validation := Event.validate tzOffset Date_parse now eventData in
    if negb (Event.isValid validation)
    then Ret (Invalid (Event.errors validation), s)
    else
      let event := Event.construct Date_parse uuid created eventData in
      let s1 := (Store.createEvent event s).2 in
      caught (Event.toJSON Date_toISOString event) s1
        (λ json, Ret (Created json, s1)).

(** [PUT /events/:id]; [now] is the instant of the validation and [updated]
    that of the update. *)
Definition updateEvent (now updated : Z) (id : string) (updates : obj)
    (user : obj) (s : MemoryStore) : js (response * MemoryStore) :=
  match Store.getEventById (VStr id) s with
  | None => Ret (Refused 404 "EVENT_NOT_FOUND", s)
  | Some event =>
      caught (strict_equal (prop event "organizerId") (prop user "id")) s
        (λ own,
          if negb own then Ret (Refused 403 "OWNERSHIP_REQUIRED", s)
          else
            let validation :=
              Event.validate tzOffset Date_parse now
                (Object_assign event updates) in
            if (truthy (prop updates "date") || truthy (prop updates "time"))
               && negb (Event.isValid validation)
            then Ret (Invalid (Event.errors validation), s)
            else
              let event1 := Event.update Date_parse updated updates event in
              let s1 := written_back (VStr id) event1 s in
              let s2 := (Store.updateEvent (VStr id) event1 s1).2 in
              caught (Event.toJSON Date_toISOString event1) s2
                (λ json, Ret (Updated json, s2)))
  end.

(** [DELETE /events/:id]. *)
Definition deleteEvent (id : string) (user : obj) (s : MemoryStore)
  : js (response * MemoryStore) :=
  match Store.getEventById (VStr id) s with
  | None => Ret (Refused 404 "EVENT_NOT_FOUND", s)
  | Some event =>
      caught (strict_equal (prop event "organizerId") (prop user "id")) s
        (λ own,
          if negb own then Ret (Refused 403 "OWNERSHIP_REQUIRED", s)
          else
            let participants := Store.getEventRegistrations (VStr id) s in
            let s1 := (Store.deleteEvent (VStr id) s).2 in
            Ret (Deleted (length participants), s1))
  end.

(** [POST /events/:id/register]. *)
Definition registerForEvent (now : Z) (id : string) (user : obj)
    (s : MemoryStore) : js (response * MemoryStore) :=
  match Store.getEventById (VStr id) s with
  | None => Ret (Refused 404 "EVENT_NOT_FOUND", s)
  | Some event =>
      caught (if truthy (prop event "isPublic") then Ret false
              else own ← strict_equal (prop event "organizerId")
                                      (prop user "id");
                   Ret (negb own)) s
        (λ private,
          if private then Ret (Refused 403 "PRIVATE_EVENT", s)
          else if negb (truthy (prop event "isActive"))
          then Ret (Refused 400 "EVENT_INACTIVE", s)
          else
            caught (Event.updateStatus tzOffset Date_parse now event) s
              (λ updated,
                let event1 := updated.1 in
                let s1 := written_back (VStr id) event1 s in
                if bool_decide (prop event1 "status" = VStr "completed")
                then Ret (Refused 400 "EVENT_COMPLETED", s1)
                else if Store.isUserRegisteredForEvent
                          (prop user "id") (VStr id) s1
                then Ret (Refused 409 "ALREADY_REGISTERED", s1)
                else
                  let currentRegistrations :=
                    Store.getEventRegistrationCount (VStr id) s1 in
                  caught (Event.isFull (Z.of_nat currentRegistrations) event1)
                    s1
                    (λ full,
                      if full
                      then Ret (EventFull (prop event1 "maxParticipants")
                                          currentRegistrations, s1)
                      else
                        let registered :=
                          Store.registerUserForEvent
                            (prop user "id") (VStr id) s1 in
                        let s2 := registered.2 in
                        if negb registered.1
                        then Ret (Refused 500 "REGISTRATION_FAILED", s2)
                        else
                          caught (Event.toJSON Date_toISOString event1) s2
                            (λ json,
                              Ret (Registered json
                                     (currentRegistrations + 1), s2)))))
  end.

(** [DELETE /events/:id/register]. *)
Definition unregisterFromEvent (now : Z) (id : string) (user : obj)
    (s : MemoryStore) : js (response * MemoryStore) :=
  match Store.getEventById (VStr id) s with
  | None => Ret (Refused 404 "EVENT_NOT_FOUND", s)
  | Some event =>
      if negb (Store.isUserRegisteredForEvent (prop user "id") (VStr id) s)
      then Ret (Refused 400 "NOT_REGISTERED", s)
      else
        caught (Event.updateStatus tzOffset Date_parse now event) s
          (λ updated,
            let event1 := updated.1 in
            let s1 := written_back (VStr id) event1 s in
            if bool_decide (prop event1 "status" = VStr "ongoing")
               || bool_decide (prop event1 "status" = VStr "completed")
            then Ret (Refused 400 "EVENT_STARTED", s1)
            else
              let s2 :=
                (Store.unregisterUserFromEvent
                   (prop user "id") (VStr id) s1).2 in
              caught (Event.toJSON Date_toISOString event1) s2
                (λ json, Ret (Unregistered json, s2)))
  end.

(** The requests that create or delete events and registrations. *)
Inductive request : Type :=
| PostEvent (uuid : string) (now created : Z) (body : obj) (user : obj)
| DeleteEvent (id : string) (user : obj)
| PostRegistration (now : Z) (id : string) (user : obj)
| DeleteRegistration (now : Z) (id : string) (user : obj).

Definition serve (r : request) (s : MemoryStore)
  : js (response * MemoryStore) :=
  match r with
  | PostEvent uuid now created body user =>
      createEvent uuid now created body user s
  | DeleteEvent id user => deleteEvent id user s
  | PostRegistration now id user => registerForEvent now id user s
  | DeleteRegistration now id user => unregisterFromEvent now id user s
  end.

(** The store after a sequence of requests, first request first. *)
Fixpoint serve_all (requests : list request) (s : MemoryStore)
  : js MemoryStore :=
  match requests with
  | [] => Ret s
  | r :: rest => served ← serve r s; serve_all rest served.2
  end.

(** The identifiers [uuidv4()] hands out along a sequence of requests are
    new: none is the key of an event stored at that moment. *)
Fixpoint fresh_uuids (requests : list request) (s : MemoryStore) : Prop :=
  match requests with
  | [] => True
  | r :: rest =>
      match r with
      | PostEvent uuid _ _ _ _ => events s !! VStr uuid = None
      | _ => True
      end
      ∧ match serve r s with
        | Ret served => fresh_uuids rest served.2
        | _ => True
        end
  end.

End WithClock.

(** No event whose limit is a number holds more registrations than it. *)
Definition within_capacity (s : MemoryStore) : Prop :=
  ∀ (E : val) (event : obj) (m : Z),
    events s !! E = Some event → prop event "maxParticipants" = VNum m →
    Z.of_nat (getEventRegistrationCount E s) ≤ m.

End EventController.

(** ** Sample records and stores *)

Module Sample.
Import Store.

Definition alice : obj :=
  {[ "id" := VStr "u-1"; "email" := VStr "alice@example.com" ]}.

(** A second record carrying the identifier of [alice]. *)
Definition alice_again : obj :=
  {[ "id" := VStr "u-1"; "email" := VStr "other@example.com" ]}.

Definition party : obj :=
  {[ "id" := VStr "e-1"; "title" := VStr "Party" ]}.

(** [alice] and [party] stored, not yet registered. *)
Definition fresh_pair : MemoryStore :=
  run [CreateUser alice; CreateEvent party] empty.

(** [alice] registered for [party]. *)
Definition registered : MemoryStore :=
  run [Register (VStr "u-1") (VStr "e-1")] fresh_pair.

(** A date parser that reads one string: the ISO date of the day after the
    epoch, midnight UTC. *)
Definition parse_one_date (s : string) : num :=
  if String.eqb s "1970-01-02" then Some 86400000 else None.

(** An event of 2 January 1970, 14:30, lasting the default 60 minutes, for
    two participants at most; its start is the instant 138600000 in UTC. *)
Definition meetup : obj :=
  Event.construct parse_one_date "e-7" 0
    {[ "title" := VStr "Meetup"; "date" := VStr "1970-01-02";
       "time" := VStr "14:30"; "maxParticipants" := VNum 2;
       "organizerId" := VStr "u-1" ]}.

Definition bob : obj :=
  User.construct "u-2" 0
    {[ "email" := VStr "bob@example.com"; "password" := VStr "$2a$hash";
       "firstName" := VStr "Bob"; "lastName" := VStr "Builder" ]}.

(** Two users and [meetup] stored, nobody registered. *)
Definition two_guests : MemoryStore :=
  run [CreateUser alice; CreateUser bob; CreateEvent meetup] empty.

(** The body of a sign-up request that names no role. *)
Definition signup : obj :=
  {[ "email" := VStr "cara@example.com"; "password" := VStr "secret1";
     "firstName" := VStr "Cara"; "lastName" := VStr "Diaz" ]}.

(** An organizer, and the body of a request to create an event that names
    another organizer than the user who sends it. *)
Definition olga : obj :=
  User.construct "u-9" 0
    {[ "email" := VStr "olga@example.com"; "password" := VStr "$2a$hash";
       "firstName" := VStr "Olga"; "lastName" := VStr "Orga";
       "role" := VStr "organizer" ]}.

Definition workshop : obj :=
  {[ "title" := VStr "Workshop"; "description" := VStr "Hands on";
     "date" := VStr "1970-01-02"; "time" := VStr "14:30";
     "location" := VStr "Room 2"; "organizerId" := VStr "forged" ]}.

(** [bob] registered for [meetup]. *)
Definition bob_registered : MemoryStore :=
  run [Register (VStr "u-2") (VStr "e-7")] two_guests.

(** An ISO formatter that knows one day: it answers with the first instant
    of 2 January 1970, the day of the sample events. *)
Definition iso_day_one (t : Z) : string := "1970-01-02T00:00:00.000Z".

(** A request body that names fields outside the allow-lists. *)
Definition meddling : obj :=
  {[ "id" := VStr "forged"; "organizerId" := VStr "forged";
     "password" := VStr "forged"; "title" := VStr "Renamed";
     "firstName" := VStr "Robert" ]}.

End Sample.

(** * Properties of the registration store *)

(** Decides a closed membership fact, or its negation, by evaluation. *)
Ltac decide_by_compute :=
  first
    [ apply (bool_decide_unpack _); vm_compute; exact I
    | let H := fresh "H" in
      intros H; apply (bool_decide_pack _) in H; vm_compute in H; exact H ].

Section StoreFacts.
Import Store.
Implicit Types (s : MemoryStore) (U E id : val) (m : gmap val (gset val)).

Lemma store_eq s1 s2 :
  users s1 = users s2 → events s1 = events s2 →
  eventRegistrations s1 = eventRegistrations s2 →
  userRegistrations s1 = userRegistrations s2 → s1 = s2.
Proof. destruct s1, s2; simpl; intros; subst; reflexivity. Qed.

(** Removing an element that is not there from one entry changes nothing. *)
Lemma alter_remove_absent m k x :
  x ∉ default ∅ (m !! k) → alter (λ regs, regs ∖ {[x]}) k m = m.
Proof.
  intros Hx. apply alter_id. intros X HX. rewrite HX in Hx.
  apply difference_disjoint_L. set_solver.
Qed.

Lemma default_alter (f : gset val → gset val) m k j :
  f ∅ = ∅ →
  default ∅ (alter f k m !! j)
  = if decide (k = j) then f (default ∅ (m !! j)) else default ∅ (m !! j).
Proof.
  intros Hf. rewrite lookup_alter. case_decide; [subst|done].
  destruct (m !! j); simpl; done.
Qed.

(** The loop of [deleteEvent], entry by entry. *)
Lemma lookup_dropEvent_loop id (l : list val) m U :
  foldr (dropEvent id) m l !! U
  = if decide (U ∈ l) then (λ X, X ∖ {[id]}) <$> m !! U else m !! U.
Proof.
  induction l as [|a l IH]; simpl.
  - done.
  - unfold dropEvent at 1. rewrite lookup_alter, IH.
    destruct (decide (a = U)) as [->|Hne].
    + rewrite IH. destruct (decide (U ∈ U :: l)) as [_|Hn]; [|set_solver].
      case_decide; destruct (m !! U); simpl; f_equal; set_solver.
    + destruct (decide (U ∈ l)) as [Hin|Hnin].
      * rewrite decide_True by (by right). done.
      * rewrite decide_False; [done|]. rewrite elem_of_cons. naive_solver.
Qed.

Lemma lookup_dropEvent_fold id (X : gset val) m U :
  set_fold (dropEvent id) m X !! U
  = if decide (U ∈ X) then (λ Y, Y ∖ {[id]}) <$> m !! U else m !! U.
Proof.
  unfold set_fold; simpl. rewrite lookup_dropEvent_loop.
  repeat case_decide; try done; set_solver.
Qed.

(** ** The two indexes after each operation *)

Lemma participants_deleteUser id s user E :
  users s !! id = Some user →
  participants (deleteUser id s).2 E = participants s E ∖ {[id]}.
Proof.
  intros H. unfold deleteUser, participants. rewrite H. simpl.
  rewrite lookup_fmap. destruct (eventRegistrations s !! E); simpl; set_solver.
Qed.

Lemma registrations_deleteUser id s user U :
  users s !! id = Some user →
  registrations (deleteUser id s).2 U
  = if decide (U = id) then ∅ else registrations s U.
Proof.
  intros H. unfold deleteUser, registrations. rewrite H. simpl.
  rewrite lookup_delete. repeat case_decide; simplify_eq/=; done.
Qed.

Lemma participants_deleteEvent id s event E :
  events s !! id = Some event →
  participants (deleteEvent id s).2 E
  = if decide (E = id) then ∅ else participants s E.
Proof.
  intros H. unfold deleteEvent, participants. rewrite H. simpl.
  rewrite lookup_delete. repeat case_decide; simplify_eq/=; done.
Qed.

Lemma registrations_deleteEvent id s event U :
  events s !! id = Some event →
  registrations (deleteEvent id s).2 U
  = if decide (U ∈ participants s id) then registrations s U ∖ {[id]}
    else registrations s U.
Proof.
  intros H. unfold deleteEvent, registrations, participants. rewrite H. simpl.
  rewrite lookup_dropEvent_fold. case_decide; [|done].
  destruct (userRegistrations s !! U); simpl; set_solver.
Qed.

Lemma participants_unregister U E s E' :
  participants (unregisterUserFromEvent U E s).2 E'
  = if decide (E' = E) then participants s E' ∖ {[U]} else participants s E'.
Proof.
  unfold participants; simpl. rewrite default_alter by set_solver.
  repeat case_decide; simplify_eq/=; done.
Qed.

Lemma registrations_unregister U E s U' :
  registrations (unregisterUserFromEvent U E s).2 U'
  = if decide (U' = U) then registrations s U' ∖ {[E]} else registrations s U'.
Proof.
  unfold registrations; simpl. rewrite default_alter by set_solver.
  repeat case_decide; simplify_eq/=; done.
Qed.

Lemma isUserRegisteredForEvent_participants U E s :
  isUserRegisteredForEvent U E s = true ↔ U ∈ participants s E.
Proof.
  unfold isUserRegisteredForEvent, participants.
  destruct (eventRegistrations s !! E); simpl.
  - apply bool_decide_eq_true.
  - split; [discriminate | set_solver].
Qed.

Lemma isUserRegisteredForEvent_false U E s :
  isUserRegisteredForEvent U E s = false ↔ U ∉ participants s E.
Proof.
  rewrite <- isUserRegisteredForEvent_participants.
  destruct (isUserRegisteredForEvent U E s); split; congruence.
Qed.

Lemma getEventRegistrationCount_participants E s :
  getEventRegistrationCount E s = size (participants s E).
Proof.
  unfold getEventRegistrationCount, participants.
  destruct (eventRegistrations s !! E); reflexivity.
Qed.

Lemma default_ensure_add k x m j :
  default ∅ (ensure_add k x m !! j)
  = if decide (j = k) then {[x]} ∪ default ∅ (m !! j) else default ∅ (m !! j).
Proof.
  unfold ensure_add. rewrite lookup_alter.
  destruct (decide (k = j)) as [->|Hne].
  - rewrite decide_True by done.
    destruct (m !! j) eqn:Hj; [by rewrite Hj|by rewrite lookup_insert_eq].
  - rewrite decide_False by done.
    destruct (m !! k); [done|by rewrite lookup_insert_ne].
Qed.

Lemma lookup_ensure_add_ne k x m j :
  j ≠ k → ensure_add k x m !! j = m !! j.
Proof.
  intros Hne. unfold ensure_add. rewrite lookup_alter_ne by done.
  destruct (m !! k); [done|by rewrite lookup_insert_ne].
Qed.

Lemma registerUserForEvent_refused U E s :
  users s !! U = None ∨ events s !! E = None ∨ U ∈ participants s E →
  registerUserForEvent U E s = (false, s).
Proof.
  unfold registerUserForEvent, participants. intros [H|[H|H]].
  - by rewrite H.
  - rewrite H. by destruct (users s !! U).
  - destruct (users s !! U), (events s !! E); try done.
    destruct (eventRegistrations s !! E); simpl in *; [|set_solver].
    by rewrite bool_decide_eq_true_2.
Qed.

Lemma registerUserForEvent_accepted U E s :
  is_Some (users s !! U) → is_Some (events s !! E) → U ∉ participants s E →
  registerUserForEvent U E s
  = (true, mkStore (users s) (events s)
             (ensure_add E U (eventRegistrations s))
             (ensure_add U E (userRegistrations s))).
Proof.
  unfold registerUserForEvent, participants. intros [u ->] [e ->] H.
  destruct (eventRegistrations s !! E) as [regs|] eqn:HE; simpl in *.
  - by rewrite bool_decide_eq_false_2.
  - done.
Qed.

(** ** createUser *)

(** C6 (as stated, refuted): with the identifier already present,
    [createUser] does not fail: in the store where [alice] is registered for
    [party], creating a second record with her identifier replaces the stored
    record and resets her registration set. *)
Lemma createUser_duplicate_not_rejected :
  ¬ (∀ user s,
       is_Some (users s !! prop user "id") →
       users (createUser user s).2 !! prop user "id" = users s !! prop user "id"
       ∧ userRegistrations (createUser user s).2 !! prop user "id"
         = userRegistrations s !! prop user "id").
Proof.
  intros H.
  destruct (H Sample.alice_again Sample.registered) as [Hrec _].
  - by eexists.
  - apply (f_equal (λ r, r ≫= (λ u : obj, u !! "email"))) in Hrec.
    vm_compute in Hrec. discriminate.
Qed.

(** C6 (amended): [createUser] never fails.  It returns the user, stores it
    under its identifier, overwriting a record already there, and sets the
    registration set of that identifier to the empty set; the entries of all
    other identifiers and the two event-side maps stay as they were. *)
Theorem createUser_overwrites user s :
  (createUser user s).1 = user
  ∧ users (createUser user s).2 !! prop user "id" = Some user
  ∧ userRegistrations (createUser user s).2 !! prop user "id" = Some ∅
  ∧ delete (prop user "id") (users (createUser user s).2)
    = delete (prop user "id") (users s)
  ∧ delete (prop user "id") (userRegistrations (createUser user s).2)
    = delete (prop user "id") (userRegistrations s)
  ∧ events (createUser user s).2 = events s
  ∧ eventRegistrations (createUser user s).2 = eventRegistrations s.
Proof.
  simpl. rewrite !lookup_insert_eq, !delete_insert_eq. done.
Qed.

(** ** registerUserForEvent *)

(** C2: [registerUserForEvent(U, E)] returns [false] and leaves the store
    as it is when [U] is no stored user, [E] is no stored event, or the pair is
    already registered; otherwise it returns [true], adds [U] to the
    participants of [E] and [E] to the registrations of [U] and touches
    nothing else.  A second call right after a successful one returns
    [false], and the registration count of [E] is one more than before. *)
Theorem registerUserForEvent_contract U E s :
  (users s !! U = None ∨ events s !! E = None
   ∨ isUserRegisteredForEvent U E s = true →
   registerUserForEvent U E s = (false, s))
  ∧ (is_Some (users s !! U) → is_Some (events s !! E) →
     isUserRegisteredForEvent U E s = false →
     ∃ s',
       registerUserForEvent U E s = (true, s')
       ∧ users s' = users s ∧ events s' = events s
       ∧ participants s' E = {[U]} ∪ participants s E
       ∧ registrations s' U = {[E]} ∪ registrations s U
       ∧ (∀ E', E' ≠ E → eventRegistrations s' !! E' = eventRegistrations s !! E')
       ∧ (∀ U', U' ≠ U → userRegistrations s' !! U' = userRegistrations s !! U')
       ∧ registerUserForEvent U E s' = (false, s')
       ∧ getEventRegistrationCount E s' = S (getEventRegistrationCount E s)).
Proof.
  split.
  - rewrite isUserRegisteredForEvent_participants.
    apply registerUserForEvent_refused.
  - intros HU HE Hnot. apply isUserRegisteredForEvent_false in Hnot.
    rewrite registerUserForEvent_accepted by done.
    eexists. split; [reflexivity|]. simpl.
    assert (HpE : participants
                    (mkStore (users s) (events s)
                       (ensure_add E U (eventRegistrations s))
                       (ensure_add U E (userRegistrations s))) E
                  = {[U]} ∪ participants s E).
    { unfold participants; simpl. rewrite default_ensure_add.
      by rewrite decide_True. }
    repeat split.
    + exact HpE.
    + unfold registrations; simpl. rewrite default_ensure_add.
      by rewrite decide_True.
    + intros E' Hne. by apply lookup_ensure_add_ne.
    + intros U' Hne. by apply lookup_ensure_add_ne.
    + apply registerUserForEvent_refused. right; right.
      rewrite HpE. set_solver.
    + rewrite !getEventRegistrationCount_participants, HpE.
      rewrite size_union by set_solver. by rewrite size_singleton.
Qed.

Lemma registerUserForEvent_contract_witness :
  registerUserForEvent (VStr "u-1") (VStr "e-1") Sample.registered
  = (false, Sample.registered)
  ∧ ∃ s',
      registerUserForEvent (VStr "u-1") (VStr "e-1") Sample.fresh_pair = (true, s')
      ∧ registerUserForEvent (VStr "u-1") (VStr "e-1") s' = (false, s')
      ∧ getEventRegistrationCount (VStr "e-1") s'
        = S (getEventRegistrationCount (VStr "e-1") Sample.fresh_pair).
Proof.
  split.
  - apply (proj1 (registerUserForEvent_contract
                    (VStr "u-1") (VStr "e-1") Sample.registered)).
    right; right. vm_compute. reflexivity.
  - destruct (proj2 (registerUserForEvent_contract
                       (VStr "u-1") (VStr "e-1") Sample.fresh_pair))
      as (s' & Hreg & _ & _ & _ & _ & _ & _ & Hagain & Hcount).
    + decide_by_compute.
    + decide_by_compute.
    + vm_compute. reflexivity.
    + exists s'. split; [exact Hreg|]. split; [exact Hagain|exact Hcount].
Defined.

(** ** unregisterUserFromEvent *)

(** C9: [unregisterUserFromEvent(U, E)] always returns [true]; afterwards
    [U] is no participant of [E] and [E] no registration of [U], every other
    entry of the two indexes being as before; an index that did not hold the
    pair is left unchanged, so that the whole store, with all its counts, is
    unchanged when neither index held it; and any number of calls in a row,
    at least one, leaves the store of a single call. *)
Theorem unregisterUserFromEvent_idempotent U E s :
  (unregisterUserFromEvent U E s).1 = true
  ∧ users (unregisterUserFromEvent U E s).2 = users s
  ∧ events (unregisterUserFromEvent U E s).2 = events s
  ∧ (∀ E', participants (unregisterUserFromEvent U E s).2 E'
           = if decide (E' = E) then participants s E' ∖ {[U]}
             else participants s E')
  ∧ (∀ U', registrations (unregisterUserFromEvent U E s).2 U'
           = if decide (U' = U) then registrations s U' ∖ {[E]}
             else registrations s U')
  ∧ (U ∉ participants s E →
     eventRegistrations (unregisterUserFromEvent U E s).2 = eventRegistrations s)
  ∧ (E ∉ registrations s U →
     userRegistrations (unregisterUserFromEvent U E s).2 = userRegistrations s)
  ∧ (U ∉ participants s E → E ∉ registrations s U →
     (unregisterUserFromEvent U E s).2 = s
     ∧ ∀ E', getEventRegistrationCount E' (unregisterUserFromEvent U E s).2
             = getEventRegistrationCount E' s)
  ∧ (∀ n, Nat.iter (S n) (λ t, (unregisterUserFromEvent U E t).2) s
          = (unregisterUserFromEvent U E s).2).
Proof.
  assert (Hidem : ∀ t, (unregisterUserFromEvent U E
                          (unregisterUserFromEvent U E t).2).2
                       = (unregisterUserFromEvent U E t).2).
  { intros t. apply store_eq; simpl; try done.
    - apply alter_remove_absent. rewrite lookup_alter_eq.
      destruct (eventRegistrations t !! E); simpl; set_solver.
    - apply alter_remove_absent. rewrite lookup_alter_eq.
      destruct (userRegistrations t !! U); simpl; set_solver. }
  split; [done|]. split; [done|]. split; [done|].
  split; [intros E'; apply participants_unregister|].
  split; [intros U'; apply registrations_unregister|].
  split; [intros H; simpl; by apply alter_remove_absent|].
  split; [intros H; simpl; by apply alter_remove_absent|].
  split.
  - intros HU HE.
    assert (Hs : (unregisterUserFromEvent U E s).2 = s).
    { apply store_eq; simpl; try done; by apply alter_remove_absent. }
    split; [exact Hs|]. intros E'. by rewrite Hs.
  - intros n. induction n as [|n IH]; [done|].
    change (Nat.iter (S (S n)) (λ t, (unregisterUserFromEvent U E t).2) s)
      with ((unregisterUserFromEvent U E
               (Nat.iter (S n) (λ t, (unregisterUserFromEvent U E t).2) s)).2).
    rewrite IH. apply Hidem.
Qed.

Lemma unregisterUserFromEvent_idempotent_witness :
  (unregisterUserFromEvent (VStr "u-1") (VStr "e-1") Sample.fresh_pair).2
  = Sample.fresh_pair
  ∧ eventRegistrations
      (unregisterUserFromEvent (VStr "u-2") (VStr "e-1") Sample.registered).2
    = eventRegistrations Sample.registered.
Proof.
  split.
  - apply (unregisterUserFromEvent_idempotent
             (VStr "u-1") (VStr "e-1") Sample.fresh_pair).
    + decide_by_compute.
    + decide_by_compute.
  - apply (unregisterUserFromEvent_idempotent
             (VStr "u-2") (VStr "e-1") Sample.registered).
    decide_by_compute.
Defined.

(** ** deleteUser *)

Lemma size_remove_member (X : gset val) (x : val) :
  x ∈ X → size X = S (size (X ∖ {[x]})).
Proof.
  intros Hx. rewrite (union_difference_L {[x]} X) at 1 by set_solver.
  rewrite size_union by set_solver. by rewrite size_singleton.
Qed.

(** C4: when [U] is stored and registered for [E], [deleteUser(U)] returns
    the stored record, removes the record and the registration set of [U],
    and takes [U] out of the participant set of every event, every other
    user's entries and all events staying as they were; afterwards [U] is
    not registered for [E], the registration count of [E] is one less, and
    [getEventById(E)] answers as before.  When [U] is not stored, the call
    returns [null] and changes nothing. *)
Theorem deleteUser_cascade U E s :
  (users s !! U = None → deleteUser U s = (None, s))
  ∧ (∀ user,
       users s !! U = Some user → isUserRegisteredForEvent U E s = true →
       ∃ s',
         deleteUser U s = (Some user, s')
         ∧ getUserById U s' = None
         ∧ userRegistrations s' !! U = None
         ∧ users s' = delete U (users s)
         ∧ userRegistrations s' = delete U (userRegistrations s)
         ∧ (∀ E', participants s' E' = participants s E' ∖ {[U]})
         ∧ isUserRegisteredForEvent U E s' = false
         ∧ getEventRegistrationCount E s = S (getEventRegistrationCount E s')
         ∧ events s' = events s
         ∧ getEventById E s' = getEventById E s).
Proof.
  split.
  - intros H. unfold deleteUser. by rewrite H.
  - intros user Huser Hreg.
    apply isUserRegisteredForEvent_participants in Hreg.
    exists (deleteUser U s).2.
    assert (Hp : ∀ E', participants (deleteUser U s).2 E'
                       = participants s E' ∖ {[U]})
      by (intros E'; by eapply participants_deleteUser).
    split; [unfold deleteUser; by rewrite Huser|].
    split; [unfold deleteUser, getUserById; rewrite Huser; simpl;
            apply lookup_delete_eq|].
    split; [unfold deleteUser; rewrite Huser; simpl; apply lookup_delete_eq|].
    split; [unfold deleteUser; by rewrite Huser|].
    split; [unfold deleteUser; by rewrite Huser|].
    split; [exact Hp|].
    split; [apply isUserRegisteredForEvent_false; rewrite Hp; set_solver|].
    split; [rewrite !getEventRegistrationCount_participants, Hp;
            by apply size_remove_member|].
    split; unfold deleteUser, getEventById; by rewrite Huser.
Qed.

Lemma deleteUser_cascade_witness :
  deleteUser (VStr "u-9") Sample.registered = (None, Sample.registered)
  ∧ ∃ s',
      deleteUser (VStr "u-1") Sample.registered = (Some Sample.alice, s')
      ∧ isUserRegisteredForEvent (VStr "u-1") (VStr "e-1") s' = false
      ∧ getEventRegistrationCount (VStr "e-1") Sample.registered
        = S (getEventRegistrationCount (VStr "e-1") s')
      ∧ getEventById (VStr "e-1") s'
        = getEventById (VStr "e-1") Sample.registered.
Proof.
  split.
  - apply (deleteUser_cascade (VStr "u-9") (VStr "e-1") Sample.registered).
    vm_compute. reflexivity.
  - destruct (proj2 (deleteUser_cascade (VStr "u-1") (VStr "e-1")
                       Sample.registered) Sample.alice)
      as (s' & Hdel & _ & _ & _ & _ & _ & Hreg & Hcount & _ & Hev).
    + vm_compute. reflexivity.
    + vm_compute. reflexivity.
    + exists s'. split; [exact Hdel|]. split; [exact Hreg|].
      split; [exact Hcount|exact Hev].
Defined.

(** ** deleteEvent *)

(** C5: when [E] is stored and [U] is registered for it, [deleteEvent(E)]
    returns the stored record, removes the record and the participant set of
    [E], and takes [E] out of the registration set of every user who was a
    participant, the entries of the other users and all user records staying
    as they were; afterwards the registration set of [U] does not hold [E],
    every event listed by [getUserRegistrations(U)] is stored under another
    identifier, and [getUserById(U)] answers as before.  When [E] is not
    stored, the call returns [null] and changes nothing. *)
Theorem deleteEvent_cascade U E s :
  (events s !! E = None → deleteEvent E s = (None, s))
  ∧ (∀ event,
       events s !! E = Some event → isUserRegisteredForEvent U E s = true →
       ∃ s',
         deleteEvent E s = (Some event, s')
         ∧ getEventById E s' = None
         ∧ eventRegistrations s' !! E = None
         ∧ events s' = delete E (events s)
         ∧ eventRegistrations s' = delete E (eventRegistrations s)
         ∧ (∀ U', U' ∈ participants s E →
                  registrations s' U' = registrations s U' ∖ {[E]})
         ∧ (∀ U', U' ∉ participants s E →
                  userRegistrations s' !! U' = userRegistrations s !! U')
         ∧ (E ∉ registrations s' U)
         ∧ (∀ ev, ev ∈ getUserRegistrations U s' →
                  ∃ E', E' ≠ E ∧ E' ∈ registrations s U
                        ∧ getEventById E' s = Some ev)
         ∧ users s' = users s
         ∧ getUserById U s' = getUserById U s).
Proof.
  split.
  - intros H. unfold deleteEvent. by rewrite H.
  - intros event Hevent Hreg.
    apply isUserRegisteredForEvent_participants in Hreg.
    exists (deleteEvent E s).2.
    assert (Hr : registrations (deleteEvent E s).2 U
                 = registrations s U ∖ {[E]}).
    { erewrite registrations_deleteEvent by done. by rewrite decide_True. }
    split; [unfold deleteEvent; by rewrite Hevent|].
    split; [unfold deleteEvent, getEventById; rewrite Hevent; simpl;
            apply lookup_delete_eq|].
    split; [unfold deleteEvent; rewrite Hevent; simpl; apply lookup_delete_eq|].
    split; [unfold deleteEvent; by rewrite Hevent|].
    split; [unfold deleteEvent; by rewrite Hevent|].
    split.
    { intros U' HU'. erewrite registrations_deleteEvent by done.
      by rewrite decide_True. }
    split.
    { intros U' HU'. unfold deleteEvent. rewrite Hevent. simpl.
      rewrite lookup_dropEvent_fold. by rewrite decide_False. }
    split; [rewrite Hr; set_solver|].
    split.
    { intros ev Hev. unfold getUserRegistrations in Hev.
      apply list_elem_of_omap in Hev as (E' & HE' & Hlook).
      apply elem_of_elements in HE'.
      change (E' ∈ registrations (deleteEvent E s).2 U) in HE'.
      rewrite Hr in HE'.
      unfold deleteEvent in Hlook. rewrite Hevent in Hlook. simpl in Hlook.
      apply lookup_delete_Some in Hlook as [Hne Hlook].
      exists E'. unfold getEventById. set_solver. }
    split; unfold deleteEvent, getUserById; by rewrite Hevent.
Qed.

Lemma deleteEvent_cascade_witness :
  deleteEvent (VStr "e-9") Sample.registered = (None, Sample.registered)
  ∧ ∃ s',
      deleteEvent (VStr "e-1") Sample.registered = (Some Sample.party, s')
      ∧ (VStr "e-1" ∉ registrations s' (VStr "u-1"))
      ∧ getUserById (VStr "u-1") s'
        = getUserById (VStr "u-1") Sample.registered.
Proof.
  split.
  - apply (deleteEvent_cascade (VStr "u-1") (VStr "e-9") Sample.registered).
    vm_compute. reflexivity.
  - destruct (proj2 (deleteEvent_cascade (VStr "u-1") (VStr "e-1")
                       Sample.registered) Sample.party)
      as (s' & Hdel & _ & _ & _ & _ & _ & _ & Hnot & _ & _ & Huser).
    + vm_compute. reflexivity.
    + vm_compute. reflexivity.
    + exists s'. split; [exact Hdel|]. split; [exact Hnot|exact Huser].
Defined.

(** ** Mirror consistency *)

Lemma registrations_createUser user s U :
  registrations (createUser user s).2 U
  = if decide (U = prop user "id") then ∅ else registrations s U.
Proof.
  unfold registrations; simpl. rewrite lookup_insert.
  repeat case_decide; simplify_eq/=; done.
Qed.

Lemma participants_createEvent event s E :
  participants (createEvent event s).2 E
  = if decide (E = prop event "id") then ∅ else participants s E.
Proof.
  unfold participants; simpl. rewrite lookup_insert.
  repeat case_decide; simplify_eq/=; done.
Qed.

Lemma participants_register U E s E' :
  is_Some (users s !! U) → is_Some (events s !! E) → U ∉ participants s E →
  participants (registerUserForEvent U E s).2 E'
  = if decide (E' = E) then {[U]} ∪ participants s E' else participants s E'.
Proof.
  intros. rewrite registerUserForEvent_accepted by done.
  unfold participants; simpl. apply default_ensure_add.
Qed.

Lemma registrations_register U E s U' :
  is_Some (users s !! U) → is_Some (events s !! E) → U ∉ participants s E →
  registrations (registerUserForEvent U E s).2 U'
  = if decide (U' = U) then {[E]} ∪ registrations s U' else registrations s U'.
Proof.
  intros. rewrite registerUserForEvent_accepted by done.
  unfold registrations; simpl. apply default_ensure_add.
Qed.

(** One admissible call keeps the two indexes mirrored and the registered
    pairs between stored records. *)
Lemma step_keeps_mirrored s o :
  keeps_edges s o → mirrored s → referential s →
  mirrored (step o s) ∧ referential (step o s).
Proof.
  intros Hk Hm Hl. destruct o as [user|event|id upd|id upd|id|id|U0 E0|U0 E0|];
    cbn [step keeps_edges] in *.
  - (* createUser *)
    assert (Hfree : ∀ E, prop user "id" ∉ participants s E).
    { intros E HE. destruct Hk as [Hk|Hk].
      - apply Hl in HE as [[u Hu] _]. congruence.
      - apply Hm in HE. rewrite Hk in HE. set_solver. }
    split.
    + intros U E. rewrite registrations_createUser.
      change (participants (createUser user s).2 E) with (participants s E).
      case_decide; [subst; specialize (Hfree E); set_solver | apply Hm].
    + intros U E HE. apply Hl in HE as [HU HE]. split; [|done].
      simpl. rewrite lookup_insert_is_Some'. by right.
  - (* createEvent *)
    assert (Hfree : ∀ U, prop event "id" ∉ registrations s U).
    { intros U HU. apply Hm in HU. destruct Hk as [Hk|Hk].
      - apply Hl in HU as [_ [e He]]. congruence.
      - rewrite Hk in HU. set_solver. }
    split.
    + intros U E. rewrite participants_createEvent.
      change (registrations (createEvent event s).2 U) with (registrations s U).
      case_decide; [subst; specialize (Hfree U); set_solver | apply Hm].
    + intros U E. rewrite participants_createEvent.
      case_decide; [set_solver|]. intros HE. apply Hl in HE as [HU HE].
      split; [done|]. simpl. rewrite lookup_insert_is_Some'. by right.
  - (* updateUser *)
    unfold updateUser. destruct (users s !! id) eqn:Hid; [|done]. simpl.
    split; [exact Hm|]. intros U E HE. apply Hl in HE as [HU HE].
    split; [|done]. simpl. rewrite lookup_insert_is_Some'. by right.
  - (* updateEvent *)
    unfold updateEvent. destruct (events s !! id) eqn:Hid; [|done]. simpl.
    split; [exact Hm|]. intros U E HE. apply Hl in HE as [HU HE].
    split; [done|]. simpl. rewrite lookup_insert_is_Some'. by right.
  - (* deleteUser *)
    destruct (users s !! id) as [user|] eqn:Hid;
      [|unfold deleteUser; by rewrite Hid].
    split.
    + intros U E. erewrite participants_deleteUser, registrations_deleteUser
        by done.
      specialize (Hm U E). case_decide; set_solver.
    + intros U E. erewrite participants_deleteUser by done. intros HE.
      apply elem_of_difference in HE as [HE Hne].
      apply Hl in HE as [HU HE]. unfold deleteUser. rewrite Hid. simpl.
      split; [|done]. rewrite lookup_delete_ne by set_solver. done.
  - (* deleteEvent *)
    destruct (events s !! id) as [event|] eqn:Hid;
      [|unfold deleteEvent; by rewrite Hid].
    split.
    + intros U E. erewrite participants_deleteEvent, registrations_deleteEvent
        by done.
      pose proof (Hm U E). pose proof (Hm U id).
      repeat case_decide; set_solver.
    + intros U E. erewrite participants_deleteEvent by done.
      case_decide; [set_solver|]. intros HE.
      apply Hl in HE as [HU HE]. unfold deleteEvent. rewrite Hid. simpl.
      split; [done|]. rewrite lookup_delete_ne by done. done.
  - (* registerUserForEvent *)
    destruct (users s !! U0) as [user|] eqn:HU0;
      [|by rewrite registerUserForEvent_refused by auto].
    destruct (events s !! E0) as [event|] eqn:HE0;
      [|by rewrite registerUserForEvent_refused by auto].
    destruct (decide (U0 ∈ participants s E0)) as [Hin|Hnin];
      [by rewrite registerUserForEvent_refused by auto|].
    split.
    + intros U E.
      rewrite participants_register, registrations_register
        by (done || by eexists).
      specialize (Hm U E). repeat case_decide; set_solver.
    + intros U E. rewrite participants_register by (done || by eexists).
      rewrite registerUserForEvent_accepted by (done || by eexists). simpl.
      case_decide; [subst|apply Hl]. intros HE.
      apply elem_of_union in HE as [HE|HE]; [|by apply Hl].
      apply elem_of_singleton in HE. subst. split; by eexists.
  - (* unregisterUserFromEvent *)
    split.
    + intros U E. rewrite participants_unregister, registrations_unregister.
      specialize (Hm U E). repeat case_decide; set_solver.
    + intros U E. rewrite participants_unregister. intros HE. simpl.
      apply Hl. case_decide; set_solver.
  - (* clear *)
    split; intros U E; unfold participants, registrations; simpl;
      rewrite ?lookup_empty; set_solver.
Qed.

Lemma run_keeps_mirrored ops s :
  admissible s ops → mirrored s → referential s →
  mirrored (run ops s) ∧ referential (run ops s).
Proof.
  revert s. induction ops as [|o ops IH]; intros s Hadm Hm Hl; [done|].
  destruct Hadm as [Hk Hadm].
  destruct (step_keeps_mirrored s o Hk Hm Hl) as [Hm' Hl'].
  simpl. by apply IH.
Qed.

Lemma admissible_app s ops1 ops2 :
  admissible s (ops1 ++ ops2) → admissible s ops1.
Proof.
  revert s. induction ops1 as [|o ops1 IH]; intros s; simpl; [done|].
  intros [Hk Hadm]. split; [done|]. by apply IH.
Qed.

(** C1 (as stated, refuted): creating [alice], creating [party],
    registering her for it and then calling [createUser] once more with her
    identifier leaves her among the participants of [party] while her
    registration set is empty. *)
Lemma mirror_broken_by_recreation :
  ¬ (∀ ops U E,
       U ∈ participants (run ops empty) E ↔ E ∈ registrations (run ops empty) U).
Proof.
  intros H.
  specialize (H [CreateUser Sample.alice; CreateEvent Sample.party;
                 Register (VStr "u-1") (VStr "e-1");
                 CreateUser Sample.alice_again]
                (VStr "u-1") (VStr "e-1")).
  destruct H as [H _].
  assert (Hin : VStr "u-1"
                ∈ participants
                    (run [CreateUser Sample.alice; CreateEvent Sample.party;
                          Register (VStr "u-1") (VStr "e-1");
                          CreateUser Sample.alice_again] empty) (VStr "e-1"))
    by decide_by_compute.
  apply H in Hin. revert Hin. decide_by_compute.
Qed.

(** C1 (amended): take a sequence of store operations, run from the empty
    store, in which every [createUser] and [createEvent] call comes with an
    identifier that is not stored at that moment, or whose registration set
    (participant set for an event) is empty at that moment.  After each
    operation of the sequence, for all [U] and [E], [U] is a participant of
    [E] exactly when [E] is a registration of [U]. *)
Theorem mirror_consistency ops done_ops :
  admissible empty ops → done_ops `prefix_of` ops →
  ∀ U E,
    U ∈ participants (run done_ops empty) E
    ↔ E ∈ registrations (run done_ops empty) U.
Proof.
  intros Hadm [rest ->]. apply admissible_app in Hadm.
  apply (run_keeps_mirrored done_ops empty Hadm).
  - intros U E. unfold participants, registrations; simpl.
    rewrite !lookup_empty. set_solver.
  - intros U E. unfold participants; simpl. rewrite lookup_empty. set_solver.
Qed.

Lemma mirror_consistency_witness :
  VStr "u-1"
    ∈ participants
        (run [CreateUser Sample.alice; CreateEvent Sample.party;
              Register (VStr "u-1") (VStr "e-1")] empty) (VStr "e-1")
  ↔ VStr "e-1"
      ∈ registrations
          (run [CreateUser Sample.alice; CreateEvent Sample.party;
                Register (VStr "u-1") (VStr "e-1")] empty) (VStr "u-1").
Proof.
  apply (mirror_consistency
           [CreateUser Sample.alice; CreateEvent Sample.party;
            Register (VStr "u-1") (VStr "e-1"); DeleteUser (VStr "u-1");
            CreateUser Sample.alice_again]).
  - repeat split; try exact I; left; vm_compute; reflexivity.
  - eexists [_; _]. reflexivity.
Defined.

End StoreFacts.

(** * Properties of the Event and User models *)

Section DateFacts.
Variable tzOffset : Z.

Lemma TimeClip_valid (t : Z) : valid_time t → TimeClip (Some t) = Some t.
Proof. intros H. unfold TimeClip. cbn. by rewrite bool_decide_eq_true_2. Qed.

Lemma TimeClip_invalid (t : Z) : ¬ valid_time t → TimeClip (Some t) = None.
Proof. intros H. unfold TimeClip. cbn. by rewrite bool_decide_eq_false_2. Qed.

Lemma TimeClip_Some (time : num) (t : Z) :
  TimeClip time = Some t → time = Some t ∧ valid_time t.
Proof.
  unfold TimeClip. destruct time as [x|]; [|done]. cbn.
  case_bool_decide; [|done]. by intros [= ->].
Qed.

Lemma newDate_valid (Date_parse : string → num) (t : Z) :
  valid_time t → newDate Date_parse (VDate (Some t)) = Some t.
Proof. apply TimeClip_valid. Qed.

(** In a zone of fixed offset, moving the minutes field by [d] moves the
    instant by [d] minutes, as far as a [Date] can hold the result. *)
Lemma setMinutes_getMinutes (t d : Z) :
  setMinutes tzOffset (Some t) (Some (MinFromTime (LocalTime tzOffset t) + d))
  = TimeClip (Some (t + d * msPerMinute)).
Proof.
  unfold setMinutes, MakeDate, MakeTime, UTC, LocalTime, Day, HourFromTime,
    MinFromTime, SecFromTime, msFromTime, msPerDay, msPerHour, msPerMinute.
  cbn [mbind option_bind fmap option_fmap option_map]. do 2 f_equal.
  Z.div_mod_to_equations. lia.
Qed.

Lemma setHours_valid (t h m : Z) :
  setHours tzOffset (Some t) (Some h) (Some m)
  = TimeClip (Some (Day (LocalTime tzOffset t) * msPerDay
                    + h * msPerHour + m * msPerMinute - tzOffset)).
Proof.
  unfold setHours, MakeDate, MakeTime, UTC.
  cbn [mbind option_bind fmap option_fmap option_map]. do 2 f_equal. lia.
Qed.

End DateFacts.

(** ** Times in HH:MM format *)

Lemma digit_upto_value (hi : nat) (c : ascii) :
  digit_upto hi c = true → 0 ≤ digit_value c ≤ Z.of_nat hi.
Proof.
  unfold digit_upto, digit_value. intros H.
  apply andb_true_iff in H as [H1 H2].
  apply Nat.leb_le in H1. apply Nat.leb_le in H2. lia.
Qed.

Lemma digit_upto_9 (hi : nat) (c : ascii) :
  (hi ≤ 9)%nat → digit_upto hi c = true → digit_upto 9 c = true.
Proof.
  unfold digit_upto. intros Hhi H.
  apply andb_true_iff in H as [H1 H2]. apply andb_true_iff.
  apply Nat.leb_le in H2. split; [done|]. apply Nat.leb_le. lia.
Qed.

Lemma digit_not_colon (c : ascii) :
  digit_upto 9 c = true → Ascii.eqb c ":" = false.
Proof.
  intros H. destruct (Ascii.eqb_spec c ":") as [->|]; [|done].
  vm_compute in H. discriminate.
Qed.

(** A time accepted by the format test splits into an hour below 24 and a
    minute below 60. *)
Lemma time_format_parts (time : string) :
  Event.time_format time = true →
  ∃ h m, map_Number (split_colon time) = Ret [Some h; Some m]
         ∧ 0 ≤ h ≤ 23 ∧ 0 ≤ m ≤ 59.
Proof.
  destruct time as [|a [|b [|c [|d [|e [|x r]]]]]]; try discriminate.
  - (* H:MM *)
    cbn [Event.time_format]. intros H.
    apply andb_true_iff in H as [H Hd]. apply andb_true_iff in H as [H Hc].
    apply andb_true_iff in H as [Ha Hb].
    apply Ascii.eqb_eq in Hb. subst b.
    pose proof (digit_upto_9 5 c ltac:(lia) Hc) as Hc9.
    exists (digit_value a), (10 * digit_value c + digit_value d).
    cbn [split_colon].
    rewrite (digit_not_colon a Ha), (digit_not_colon c Hc9),
      (digit_not_colon d Hd).
    change (Ascii.eqb ":" ":") with true.
    cbn [map_Number]. unfold StringToNumber. cbn [all_digits].
    rewrite Ha, Hc9, Hd.
    apply digit_upto_value in Ha, Hc, Hd.
    split; [cbn; do 4 f_equal; lia | lia].
  - (* HH:MM *)
    cbn [Event.time_format]. intros H.
    apply andb_true_iff in H as [H He]. apply andb_true_iff in H as [H Hd].
    apply andb_true_iff in H as [Hab Hc].
    apply Ascii.eqb_eq in Hc. subst c.
    pose proof (digit_upto_9 5 d ltac:(lia) Hd) as Hd9.
    assert (Hhour : digit_upto 9 a = true ∧ digit_upto 9 b = true
                    ∧ 0 ≤ 10 * digit_value a + digit_value b ≤ 23).
    { apply orb_true_iff in Hab as [Hab|Hab];
        apply andb_true_iff in Hab as [Ha Hb].
      - split; [apply (digit_upto_9 1); [lia|done]|]. split; [done|].
        apply digit_upto_value in Ha, Hb. lia.
      - apply Ascii.eqb_eq in Ha. subst a.
        split; [done|]. split; [apply (digit_upto_9 3); [lia|done]|].
        apply digit_upto_value in Hb. change (digit_value "2") with 2. lia. }
    destruct Hhour as (Ha & Hb & Hh).
    exists (10 * digit_value a + digit_value b),
      (10 * digit_value d + digit_value e).
    cbn [split_colon].
    rewrite (digit_not_colon a Ha), (digit_not_colon b Hb),
      (digit_not_colon d Hd9), (digit_not_colon e He).
    change (Ascii.eqb ":" ":") with true.
    cbn [map_Number]. unfold StringToNumber. cbn [all_digits].
    rewrite Ha, Hb, Hd9, He.
    apply digit_upto_value in Hd, He.
    split; [cbn; do 4 f_equal; lia | lia].
Qed.

(** ** Status and capacity *)

Section EventFacts.
Variable tzOffset : Z.
Variable Date_parse : string → num.

Local Abbreviation getDateTime := (Event.getDateTime tzOffset Date_parse).
Local Abbreviation updateStatus := (Event.updateStatus tzOffset Date_parse).

Lemma endOf_valid (e : obj) (start d : Z) :
  prop e "duration" = VNum d →
  Event.endOf tzOffset e (Some start)
  = Ret (TimeClip (Some (start + d * msPerMinute))).
Proof.
  intros Hd. unfold Event.endOf. rewrite Hd.
  unfold js_add, ToNumber, getMinutes.
  cbn [mbind js_bind option_bind mret js_ret].
  by rewrite setMinutes_getMinutes.
Qed.

Lemma endOf_invalid (e : obj) (d : Z) :
  prop e "duration" = VNum d → Event.endOf tzOffset e None = Ret None.
Proof. intros Hd. unfold Event.endOf. by rewrite Hd. Qed.

(** With a string for its time whose pieces between the colons are numbers,
    [getDateTime] returns, with a start or an Invalid Date. *)
Lemma getDateTime_returns (e : obj) (time : string) (parts : list num) :
  prop e "time" = VStr time → map_Number (split_colon time) = Ret parts →
  ∃ start, getDateTime e = Ret start.
Proof.
  intros Htime Hparts. unfold Event.getDateTime. rewrite Htime, Hparts.
  cbn [mbind js_bind]. by eexists.
Qed.


(** C8: [isFull(n)] is [false] when [maxParticipants] is [null], and for a
    limit [max] it is [true] exactly when [n ≥ max].  With a limit of 2 the
    check is negative at 0 and at 1 participants and positive at 2; run on
    the registration count of a stored event without participants, it is
    negative before the registrations of a first and of a second user, which
    both succeed, and positive after them; without a limit it is negative at
    every count. *)
Theorem isFull_capacity (e : obj) (n : nat) :
  (prop e "maxParticipants" = VNull → Event.isFull (Z.of_nat n) e = Ret false)
  ∧ (∀ max : Z,
       prop e "maxParticipants" = VNum max →
       ∃ full, Event.isFull (Z.of_nat n) e = Ret full
               ∧ (full = true ↔ max ≤ Z.of_nat n))
  ∧ (prop e "maxParticipants" = VNum 2 →
     Event.isFull 0 e = Ret false ∧ Event.isFull 1 e = Ret false
     ∧ Event.isFull 2 e = Ret true)
  ∧ (∀ (s : Store.MemoryStore) (E U1 U2 : val),
       prop e "maxParticipants" = VNum 2 →
       is_Some (Store.events s !! E) → Store.participants s E = ∅ →
       is_Some (Store.users s !! U1) → is_Some (Store.users s !! U2) →
       U1 ≠ U2 →
       ∃ s1 s2,
         Event.isFull (Z.of_nat (Store.getEventRegistrationCount E s)) e
         = Ret false
         ∧ Store.registerUserForEvent U1 E s = (true, s1)
         ∧ Event.isFull (Z.of_nat (Store.getEventRegistrationCount E s1)) e
           = Ret false
         ∧ Store.registerUserForEvent U2 E s1 = (true, s2)
         ∧ Event.isFull (Z.of_nat (Store.getEventRegistrationCount E s2)) e
           = Ret true).
Proof.
  split; [|split; [|split]].
  - unfold Event.isFull. by intros ->.
  - unfold Event.isFull. intros max ->. simpl. eexists.
    split; [reflexivity|]. apply bool_decide_eq_true.
  - unfold Event.isFull. by intros ->.
  - intros s E U1 U2 Hmax HE Hnone HU1 HU2 Hne.
    exists (Store.registerUserForEvent U1 E s).2,
      (Store.registerUserForEvent U2 E (Store.registerUserForEvent U1 E s).2).2.
    assert (Hp1 : Store.participants (Store.registerUserForEvent U1 E s).2 E
                  = {[U1]}).
    { rewrite participants_register by (done || set_solver).
      rewrite decide_True by done. rewrite Hnone. set_solver. }
    assert (Hfirst : Store.registerUserForEvent U1 E s
                     = (true, (Store.registerUserForEvent U1 E s).2)).
    { rewrite registerUserForEvent_accepted by (done || set_solver). done. }
    assert (Hlive : is_Some (Store.users (Store.registerUserForEvent U1 E s).2
                             !! U2)
                    ∧ is_Some (Store.events (Store.registerUserForEvent U1 E s).2
                               !! E)).
    { rewrite registerUserForEvent_accepted by (done || set_solver). done. }
    destruct Hlive as [HU2' HE'].
    assert (Hp2 : Store.participants
                    (Store.registerUserForEvent U2 E
                       (Store.registerUserForEvent U1 E s).2).2 E
                  = {[U2]} ∪ {[U1]}).
    { rewrite participants_register by (done || set_solver).
      rewrite decide_True by done. by rewrite Hp1. }
    rewrite !getEventRegistrationCount_participants, Hnone, Hp1, Hp2.
    rewrite size_empty, size_singleton, size_union by set_solver.
    rewrite !size_singleton.
    unfold Event.isFull. rewrite Hmax.
    split; [done|]. split; [exact Hfirst|]. split; [done|].
    split; [|done].
    rewrite registerUserForEvent_accepted by (done || set_solver). done.
Qed.

End EventFacts.



Lemma isFull_capacity_witness :
  Event.isFull 0 Sample.meetup = Ret false
  ∧ Event.isFull 1 Sample.meetup = Ret false
  ∧ Event.isFull 2 Sample.meetup = Ret true
  ∧ Event.isFull 1000 (<["maxParticipants" := VNull]> Sample.meetup) = Ret false
  ∧ ∃ s1 s2,
      Store.registerUserForEvent (VStr "u-1") (VStr "e-7") Sample.two_guests
      = (true, s1)
      ∧ Store.registerUserForEvent (VStr "u-2") (VStr "e-7") s1 = (true, s2)
      ∧ Event.isFull (Z.of_nat (Store.getEventRegistrationCount (VStr "e-7") s2))
          Sample.meetup
        = Ret true.
Proof.
  destruct (isFull_capacity Sample.meetup 0) as (_ & _ & Hthree & Hstore).
  destruct Hthree as (H0 & H1 & H2); [vm_compute; reflexivity|].
  split; [exact H0|]. split; [exact H1|]. split; [exact H2|].
  split.
  - apply (proj1 (isFull_capacity
                    (<["maxParticipants" := VNull]> Sample.meetup) 1000)).
    vm_compute; reflexivity.
  - destruct (Hstore Sample.two_guests (VStr "e-7") (VStr "u-1") (VStr "u-2"))
      as (s1 & s2 & _ & Hfirst & _ & Hsecond & Hfull);
      [vm_compute; reflexivity | decide_by_compute
      | vm_compute; reflexivity | decide_by_compute
      | decide_by_compute | discriminate |].
    exists s1, s2. split; [exact Hfirst|]. split; [exact Hsecond|exact Hfull].
Defined.

(** ** The allow-lists of [update] *)

Section UpdateFacts.
Variable Date_parse : string → num.

Lemma elem_of_Object_keys (o : obj) (key : string) :
  key ∈ Object_keys o ↔ is_Some (o !! key).
Proof.
  unfold Object_keys. rewrite list_elem_of_fmap. split.
  - intros [[k v] [-> Hin]]. apply elem_of_map_to_list in Hin. by eexists.
  - intros [v Hv]. exists (key, v). split; [done|].
    by apply elem_of_map_to_list.
Qed.

(** A loop that writes [value key] under every allowed key it meets. *)
Lemma lookup_assign_loop (allowed : list string) (value : string → val)
    (keys : list string) (this : obj) (k : string) :
  foldl (λ acc key,
           if bool_decide (key ∈ allowed) then <[key := value key]> acc else acc)
        this keys !! k
  = if decide (k ∈ keys ∧ k ∈ allowed) then Some (value k) else this !! k.
Proof.
  revert this. induction keys as [|a keys IH]; intros this; cbn [foldl].
  - rewrite decide_False; [done|]. rewrite elem_of_nil. tauto.
  - rewrite IH. destruct (decide (k ∈ keys ∧ k ∈ allowed)) as [[Hin Hal]|Hnot].
    + rewrite decide_True; [done|]. split; [by right|done].
    + destruct (decide (a = k ∧ k ∈ allowed)) as [[-> Hal]|Hne].
      * rewrite bool_decide_eq_true_2 by done. rewrite lookup_insert_eq.
        rewrite decide_True; [done|]. split; [by left|done].
      * rewrite decide_False.
        2:{ rewrite elem_of_cons. naive_solver. }
        case_bool_decide; [|done].
        rewrite lookup_insert_ne; [done|]. naive_solver.
Qed.

Lemma lookup_Event_update (now : Z) (updates e : obj) (k : string) :
  Event.update Date_parse now updates e !! k
  = if decide (k = "updatedAt") then Some (VDate (Some now))
    else if decide (is_Some (updates !! k) ∧ k ∈ Event.allowedUpdates)
         then Some (Event.assigned_value Date_parse updates k)
         else e !! k.
Proof.
  unfold Event.update. rewrite lookup_insert.
  destruct (decide ("updatedAt" = k)) as [<-|Hne].
  - by rewrite decide_True.
  - rewrite decide_False by done.
    etrans; [apply (lookup_assign_loop Event.allowedUpdates
                      (Event.assigned_value Date_parse updates))|].
    repeat case_decide; try done; rewrite elem_of_Object_keys in *; tauto.
Qed.

Lemma lookup_User_update (now : Z) (updates u : obj) (k : string) :
  User.update now updates u !! k
  = if decide (k = "updatedAt") then Some (VDate (Some now))
    else if decide (is_Some (updates !! k) ∧ k ∈ User.allowedUpdates)
         then Some (prop updates k)
         else u !! k.
Proof.
  unfold User.update. rewrite lookup_insert.
  destruct (decide ("updatedAt" = k)) as [<-|Hne].
  - by rewrite decide_True.
  - rewrite decide_False by done.
    etrans; [apply (lookup_assign_loop User.allowedUpdates (prop updates))|].
    repeat case_decide; try done; rewrite elem_of_Object_keys in *; tauto.
Qed.

(** The part of an update object that names fields of an allow-list. *)
Lemma lookup_allowed_part (allowed : list string) (updates : obj) (k : string) :
  k ∈ allowed →
  filter (λ kv : string * val, kv.1 ∈ allowed) updates !! k = updates !! k.
Proof.
  intros Hk. destruct (updates !! k) as [v|] eqn:Hv.
  - by apply map_lookup_filter_Some.
  - apply map_lookup_filter_None. left. done.
Qed.

(** C10: [e.update(updates)] on an event leaves every property outside
    [title, description, date, time, duration, location, maxParticipants,
    category, isPublic, status] and [updatedAt] as it was, [id] and
    [organizerId] among them, and gives the result it gives on the part of
    [updates] that names allowed fields.  [u.update(updates)] on a user does
    the same for [firstName, lastName, email, role, isActive] and
    [updatedAt], leaving [id] and [password] as they were. *)
Theorem update_allow_list (now : Z) (updates e u : obj) :
  (∀ key, key ∉ Event.allowedUpdates → key ≠ "updatedAt" →
          Event.update Date_parse now updates e !! key = e !! key)
  ∧ Event.update Date_parse now updates e !! "id" = e !! "id"
  ∧ Event.update Date_parse now updates e !! "organizerId" = e !! "organizerId"
  ∧ Event.update Date_parse now updates e
    = Event.update Date_parse now
        (filter (λ kv : string * val, kv.1 ∈ Event.allowedUpdates) updates) e
  ∧ (∀ key, key ∉ User.allowedUpdates → key ≠ "updatedAt" →
            User.update now updates u !! key = u !! key)
  ∧ User.update now updates u !! "id" = u !! "id"
  ∧ User.update now updates u !! "password" = u !! "password"
  ∧ User.update now updates u
    = User.update now
        (filter (λ kv : string * val, kv.1 ∈ User.allowedUpdates) updates) u.
Proof.
  assert (HE : ∀ key, key ∉ Event.allowedUpdates → key ≠ "updatedAt" →
                      Event.update Date_parse now updates e !! key = e !! key).
  { intros key Hal Hne. rewrite lookup_Event_update.
    rewrite decide_False by done. rewrite decide_False; [done|]. tauto. }
  assert (HU : ∀ key, key ∉ User.allowedUpdates → key ≠ "updatedAt" →
                      User.update now updates u !! key = u !! key).
  { intros key Hal Hne. rewrite lookup_User_update.
    rewrite decide_False by done. rewrite decide_False; [done|]. tauto. }
  split; [exact HE|].
  split; [apply HE; [by apply (bool_decide_eq_false_1 _)|done]|].
  split; [apply HE; [by apply (bool_decide_eq_false_1 _)|done]|].
  split.
  { apply map_eq. intros k. rewrite !lookup_Event_update.
    case_decide; [done|].
    destruct (decide (k ∈ Event.allowedUpdates)) as [Hal|Hal].
    - unfold Event.assigned_value, prop.
      rewrite !(lookup_allowed_part Event.allowedUpdates updates k Hal).
      repeat case_decide; try done; tauto.
    - rewrite !decide_False by tauto. done. }
  split; [exact HU|].
  split; [apply HU; [by apply (bool_decide_eq_false_1 _)|done]|].
  split; [apply HU; [by apply (bool_decide_eq_false_1 _)|done]|].
  apply map_eq. intros k. rewrite !lookup_User_update.
  case_decide; [done|].
  destruct (decide (k ∈ User.allowedUpdates)) as [Hal|Hal].
  - unfold prop.
    rewrite !(lookup_allowed_part User.allowedUpdates updates k Hal).
    repeat case_decide; try done; tauto.
  - rewrite !decide_False by tauto. done.
Qed.

End UpdateFacts.

Lemma update_allow_list_witness :
  Event.update Sample.parse_one_date 5 Sample.meddling Sample.meetup !! "createdAt"
  = Sample.meetup !! "createdAt"
  ∧ User.update 5 Sample.meddling Sample.bob !! "password"
    = Sample.bob !! "password".
Proof.
  split.
  - apply (update_allow_list Sample.parse_one_date 5 Sample.meddling
             Sample.meetup Sample.bob).
    + by apply (bool_decide_eq_false_1 _).
    + discriminate.
  - apply (proj1 (proj2 (proj2 (proj2 (proj2
             (update_allow_list Sample.parse_one_date 5 Sample.meddling
                Sample.meetup Sample.bob)))))).
    + by apply (bool_decide_eq_false_1 _).
    + discriminate.
Defined.

(** ** The date rule of [Event.validate] *)

Section ValidateFacts.
Variable tzOffset : Z.
Variable Date_parse : string → num.

Local Abbreviation past := ("Event date cannot be in the past"%string).

Lemma startOfToday_value (now : Z) :
  Event.startOfToday tzOffset now
  = TimeClip (Some (Day (LocalTime tzOffset now) * msPerDay - tzOffset)).
Proof.
  unfold Event.startOfToday. rewrite setHours_valid. do 2 f_equal. lia.
Qed.

Lemma single_message (message other : string) (b : bool) :
  other ≠ message → message ∉ (if b then [other] else []).
Proof.
  intros Hne. destruct b; [|apply not_elem_of_nil].
  rewrite list_elem_of_singleton. congruence.
Qed.

Lemma past_in_date_errors (now : Z) (date : val) :
  past ∈ Event.date_errors tzOffset Date_parse now date
  ↔ truthy date = true
    ∧ ∃ t, newDate Date_parse date = Some t
           ∧ num_lt (Some t) (Event.startOfToday tzOffset now) = true.
Proof.
  unfold Event.date_errors. destruct (truthy date); cbn [negb].
  - destruct (newDate Date_parse date) as [t|].
    + destruct (num_lt (Some t) (Event.startOfToday tzOffset now)) eqn:Hlt.
      * rewrite list_elem_of_singleton. naive_solver.
      * rewrite elem_of_nil. split; [done|].
        intros [_ (t' & Ht' & Hlt')]. simplify_eq. congruence.
    + rewrite list_elem_of_singleton. split; [discriminate|].
      intros [_ (t & Ht & _)]. discriminate.
  - rewrite list_elem_of_singleton. split; [discriminate|].
    intros [H _]. discriminate.
Qed.

Lemma past_not_in_time_errors (time : val) : past ∉ Event.time_errors time.
Proof.
  unfold Event.time_errors.
  destruct (negb (truthy time) || negb (Event.is_string time));
    [rewrite list_elem_of_singleton; discriminate|].
  destruct (negb (Event.time_format (Event.string_of time)));
    [rewrite list_elem_of_singleton; discriminate|apply not_elem_of_nil].
Qed.

(** The message about the past comes from the date rule alone, and an input
    that gets it is not valid. *)
Lemma past_in_errors (now : Z) (eventData : obj) :
  (past ∈ Event.errors (Event.validate tzOffset Date_parse now eventData)
   ↔ past ∈ Event.date_errors tzOffset Date_parse now (prop eventData "date"))
  ∧ (past ∈ Event.errors (Event.validate tzOffset Date_parse now eventData) →
     Event.isValid (Event.validate tzOffset Date_parse now eventData) = false).
Proof.
  unfold Event.validate. cbn [Event.errors Event.isValid]. split.
  - unfold Event.required_string, Event.positive_number.
    rewrite !elem_of_app.
    pose proof (past_not_in_time_errors (prop eventData "time")).
    split; [|tauto].
    intros [H1|[H1|[H1|[H1|[H1|[H1|[H1|H1]]]]]]]; try tauto;
      exfalso; revert H1; apply single_message; discriminate.
  - intros Hin. apply bool_decide_eq_false. intros Hlen.
    apply length_zero_iff_nil in Hlen. rewrite Hlen in Hin.
    by apply elem_of_nil in Hin.
Qed.

(** C7 (a defect of the code): in a zone west of UTC, an input dated today
    is refused.  Take a date string that the parser reads as the midnight
    in UTC of a calendar day, as it reads the date-only form YYYY-MM-DD,
    and a well-formed HH:MM time; they name an instant of that day in local
    time.  At UTC and east of it, [Event.validate] reports ['Event date
    cannot be in the past'] exactly when that instant is before the start
    of the local calendar day of the call.  West of UTC, for a call made on
    the very day the date names, that instant is not before the start of
    the day; yet the instant the date field holds lies on the evening
    before in local time, and [Event.validate] reports ['Event date cannot
    be in the past']. *)
Theorem validate_refuses_today_west_of_UTC (now day : Z) (date time : string)
    (eventData : obj) :
  prop eventData "date" = VStr date → date ≠ EmptyString →
  Date_parse date = Some (day * msPerDay) → valid_time (day * msPerDay) →
  valid_time (Day (LocalTime tzOffset now) * msPerDay - tzOffset) →
  prop eventData "time" = VStr time → Event.time_format time = true →
  ∃ h m,
    map_Number (split_colon time) = Ret [Some h; Some m]
    ∧ let named := day * msPerDay + h * msPerHour + m * msPerMinute
                   - tzOffset in
      let today := Day (LocalTime tzOffset now) * msPerDay - tzOffset in
      Event.startOfToday tzOffset now = Some today
      ∧ (0 ≤ tzOffset < msPerDay →
         past ∈ Event.errors (Event.validate tzOffset Date_parse now eventData)
         ↔ named < today)
      ∧ (tzOffset < 0 → Day (LocalTime tzOffset now) = day →
         today ≤ named
         ∧ past ∈ Event.errors
                    (Event.validate tzOffset Date_parse now eventData)
         ∧ Event.isValid (Event.validate tzOffset Date_parse now eventData)
           = false).
Proof.
  intros Hdate Hne Hparse Hvalid Htoday Htime Hfmt.
  destruct (time_format_parts time Hfmt) as (h & m & Hparts & Hh & Hm).
  exists h, m. split; [done|]. cbn zeta.
  assert (Hsot : Event.startOfToday tzOffset now
                 = Some (Day (LocalTime tzOffset now) * msPerDay - tzOffset)).
  { rewrite startOfToday_value. by apply TimeClip_valid. }
  split; [done|].
  destruct (past_in_errors now eventData) as [Hiff Hinvalid].
  assert (Hrule : past ∈ Event.errors
                           (Event.validate tzOffset Date_parse now eventData)
                  ↔ day * msPerDay
                    < Day (LocalTime tzOffset now) * msPerDay - tzOffset).
  { rewrite Hiff, past_in_date_errors, Hdate, Hsot. unfold newDate.
    rewrite Hparse, (TimeClip_valid _ Hvalid). cbn [num_lt]. split.
    - intros [_ (t & [= <-] & Hlt)]. by apply bool_decide_eq_true in Hlt.
    - intros Hlt. split; [cbn; by destruct (String.eqb_spec date "")|].
      eexists. split; [done|]. by apply bool_decide_eq_true. }
  split.
  - intros Heast. rewrite Hrule.
    unfold msPerDay, msPerHour, msPerMinute in *. nia.
  - intros Hwest Hday.
    assert (Hin : past ∈ Event.errors
                           (Event.validate tzOffset Date_parse now eventData))
      by (apply Hrule; lia).
    split; [unfold msPerHour, msPerMinute; lia|]. split; [done|].
    by apply Hinvalid.
Qed.

End ValidateFacts.

Lemma validate_refuses_today_west_of_UTC_witness :
  Day (LocalTime (-18000000) 147600000) = 1
  ∧ "Event date cannot be in the past"%string
      ∈ Event.errors
          (Event.validate (-18000000) Sample.parse_one_date 147600000
             {[ "title" := VStr "Meetup"; "description" := VStr "Talks";
                "date" := VStr "1970-01-02"; "time" := VStr "23:00";
                "location" := VStr "Room 1"; "organizerId" := VStr "u-1" ]}).
Proof.
  split; [reflexivity|].
  destruct (validate_refuses_today_west_of_UTC (-18000000)
              Sample.parse_one_date 147600000 1 "1970-01-02" "23:00"
              {[ "title" := VStr "Meetup"; "description" := VStr "Talks";
                 "date" := VStr "1970-01-02"; "time" := VStr "23:00";
                 "location" := VStr "Room 1"; "organizerId" := VStr "u-1" ]})
    as (h & m & _ & _ & _ & Hwest);
    [reflexivity | discriminate | reflexivity
    | unfold valid_time, maxTime, msPerDay; lia
    | vm_compute; split; discriminate
    | reflexivity | reflexivity |].
  destruct Hwest as (_ & Hpast & _); [lia | reflexivity |].
  exact Hpast.
Defined.

(** * Further properties of the registration store *)

Section StoreQueries.
Import Store.
Implicit Types (s : MemoryStore) (U E id : val) (m : gmap val (gset val)).

Local Abbreviation sum_sizes :=
  (map_fold (λ (_ : val) (registrations : gset val) (total : nat),
               (total + size registrations)%nat) 0%nat).

Lemma sum_sizes_insert m k (X : gset val) :
  m !! k = None → sum_sizes (<[k := X]> m) = (sum_sizes m + size X)%nat.
Proof. intros H. rewrite map_fold_insert_L; [done| intros; lia | done]. Qed.

Lemma sum_sizes_delete m k (X : gset val) :
  m !! k = Some X → sum_sizes m = (sum_sizes (delete k m) + size X)%nat.
Proof.
  intros H. rewrite (map_fold_delete_L _ _ k X m); [done| intros; lia | done].
Qed.

Lemma sum_sizes_alter m k (f : gset val → gset val) (X : gset val) :
  m !! k = Some X →
  (sum_sizes (alter f k m) + size X = sum_sizes m + size (f X))%nat.
Proof.
  intros H.
  assert (Halter : alter f k m = <[k := f X]> (delete k m)).
  { apply map_eq. intros j. rewrite lookup_alter, lookup_insert.
    case_decide; [subst; by rewrite H|by rewrite lookup_delete_ne]. }
  rewrite Halter, sum_sizes_insert by apply lookup_delete_eq.
  rewrite (sum_sizes_delete m k X H). lia.
Qed.

Lemma elem_of_map_values {A} (m : gmap val A) (x : A) :
  x ∈ (map_to_list m).*2 ↔ ∃ k, m !! k = Some x.
Proof.
  rewrite list_elem_of_fmap. split.
  - intros [[k y] [-> Hin]]. exists k. by apply elem_of_map_to_list.
  - intros [k Hk]. exists (k, x). split; [done|].
    by apply elem_of_map_to_list.
Qed.

Lemma first_with_email_Some email (records : list obj) user :
  first_with_email email records = Some user →
  user ∈ records ∧ prop user "email" = VStr email.
Proof.
  induction records as [|r records IH]; [discriminate|]. cbn [first_with_email].
  case_bool_decide as Hr.
  - intros [= <-]. split; [by left|done].
  - intros H. destruct (IH H). split; [by right|done].
Qed.

Lemma first_with_email_None email (records : list obj) :
  first_with_email email records = None
  ↔ ∀ user, user ∈ records → prop user "email" ≠ VStr email.
Proof.
  induction records as [|r records IH]; cbn [first_with_email].
  - split; [|done]. intros _ user Hin. by apply elem_of_nil in Hin.
  - case_bool_decide as Hr.
    + split; [discriminate|]. intros H. destruct (H r); [by left|done].
    + rewrite IH. split.
      * intros H user Hin. apply elem_of_cons in Hin as [->|Hin]; auto.
      * intros H user Hin. apply H. by right.
Qed.

(** X1: [getUserByEmail] answers with a stored record carrying exactly the
    asked email; it answers [null] exactly when no stored record carries it;
    and when the records carrying it are all equal, it answers with that
    record. *)
Theorem getUserByEmail_sound_complete (email : string) s :
  (∀ user, getUserByEmail email s = Some user →
           prop user "email" = VStr email ∧ ∃ id, getUserById id s = Some user)
  ∧ (getUserByEmail email s = None
     ↔ ∀ id user, getUserById id s = Some user →
                  prop user "email" ≠ VStr email)
  ∧ (∀ id user,
       getUserById id s = Some user → prop user "email" = VStr email →
       (∀ id' user', getUserById id' s = Some user' →
                     prop user' "email" = VStr email → user' = user) →
       getUserByEmail email s = Some user).
Proof.
  unfold getUserByEmail, getUserById, getAllUsers. split; [|split].
  - intros user H. apply first_with_email_Some in H as [Hin Hmail].
    split; [done|]. by apply elem_of_map_values.
  - rewrite first_with_email_None. split.
    + intros H id user Hid. apply H. apply elem_of_map_values. by exists id.
    + intros H user Hin. apply elem_of_map_values in Hin as [id Hid]. eauto.
  - intros id user Hid Hmail Huniq.
    destruct (first_with_email email (map_to_list (users s)).*2) as [found|]
      eqn:Hfound.
    + apply first_with_email_Some in Hfound as [Hin Hf].
      apply elem_of_map_values in Hin as [id' Hid']. f_equal. eauto.
    + exfalso. eapply first_with_email_None; [exact Hfound| |exact Hmail].
      apply elem_of_map_values. by exists id.
Qed.

Lemma getUserByEmail_sound_complete_witness :
  getUserByEmail "alice@example.com" Sample.registered = Some Sample.alice
  ∧ getUserByEmail "nobody@example.com" Store.empty = None.
Proof.
  split.
  - apply (proj2 (proj2 (getUserByEmail_sound_complete "alice@example.com"
                           Sample.registered)) (VStr "u-1") Sample.alice).
    + vm_compute. reflexivity.
    + vm_compute. reflexivity.
    + intros id' user' Hid' _. unfold getUserById in Hid'.
      assert (Hdom : users Sample.registered = {[ VStr "u-1" := Sample.alice ]})
        by (vm_compute; reflexivity).
      rewrite Hdom in Hid'. apply lookup_singleton_Some in Hid' as [_ <-].
      reflexivity.
  - apply (proj1 (proj2 (getUserByEmail_sound_complete "nobody@example.com"
                           Store.empty))).
    intros id user Hid. unfold getUserById in Hid. simpl in Hid.
    by rewrite lookup_empty in Hid.
Defined.

(** X2: the counters [getTotalUsers] and [getTotalEvents] follow the
    records: creating under a new id adds one and under a stored id adds
    nothing, deleting a stored id takes one away and an absent id nothing,
    registering and unregistering leave both alone, [clear] brings them to
    zero, and [getAllUsers], [getAllEvents] list as many records as are
    counted. *)
Theorem totals_follow_records user event id U E s :
  getTotalUsers (createUser user s).2
  = (if decide (is_Some (getUserById (prop user "id") s))
     then getTotalUsers s else S (getTotalUsers s))
  ∧ getTotalEvents (createEvent event s).2
    = (if decide (is_Some (getEventById (prop event "id") s))
       then getTotalEvents s else S (getTotalEvents s))
  ∧ getTotalUsers (deleteUser id s).2
    = (if decide (is_Some (getUserById id s))
       then pred (getTotalUsers s) else getTotalUsers s)
  ∧ getTotalEvents (deleteEvent id s).2
    = (if decide (is_Some (getEventById id s))
       then pred (getTotalEvents s) else getTotalEvents s)
  ∧ getTotalUsers (registerUserForEvent U E s).2 = getTotalUsers s
  ∧ getTotalEvents (registerUserForEvent U E s).2 = getTotalEvents s
  ∧ getTotalUsers (unregisterUserFromEvent U E s).2 = getTotalUsers s
  ∧ getTotalEvents (unregisterUserFromEvent U E s).2 = getTotalEvents s
  ∧ getTotalUsers (clear s) = 0%nat ∧ getTotalEvents (clear s) = 0%nat
  ∧ length (getAllUsers s) = getTotalUsers s
  ∧ length (getAllEvents s) = getTotalEvents s.
Proof.
  unfold getTotalUsers, getTotalEvents, getUserById, getEventById,
    getAllUsers, getAllEvents.
  assert (Hreg : users (registerUserForEvent U E s).2 = users s
                 ∧ events (registerUserForEvent U E s).2 = events s).
  { unfold registerUserForEvent.
    destruct (users s !! U), (events s !! E); try done.
    by destruct (match eventRegistrations s !! E with
                 | Some regs => bool_decide (U ∈ regs) | None => false end). }
  destruct Hreg as [-> ->].
  repeat split.
  - simpl. rewrite map_size_insert.
    case_decide as H; [by destruct H as [? ->]|].
    apply eq_None_not_Some in H. by rewrite H.
  - simpl. rewrite map_size_insert.
    case_decide as H; [by destruct H as [? ->]|].
    apply eq_None_not_Some in H. by rewrite H.
  - unfold deleteUser. case_decide as H.
    + destruct H as [u Hu]. rewrite Hu. simpl.
      by rewrite map_size_delete, Hu.
    + apply eq_None_not_Some in H. by rewrite H.
  - unfold deleteEvent. case_decide as H.
    + destruct H as [e He]. rewrite He. simpl.
      by rewrite map_size_delete, He.
    + apply eq_None_not_Some in H. by rewrite H.
  - rewrite length_fmap. apply length_map_to_list.
  - rewrite length_fmap. apply length_map_to_list.
Qed.

Lemma register_true_inv U E s :
  (registerUserForEvent U E s).1 = true →
  is_Some (users s !! U) ∧ is_Some (events s !! E) ∧ U ∉ participants s E.
Proof.
  intros H.
  destruct (users s !! U) as [u|] eqn:HU;
    [|by rewrite registerUserForEvent_refused in H by auto].
  destruct (events s !! E) as [e|] eqn:HE;
    [|by rewrite registerUserForEvent_refused in H by auto].
  destruct (decide (U ∈ participants s E)) as [Hin|Hnin];
    [by rewrite registerUserForEvent_refused in H by auto|].
  split; [by eexists|]. split; [by eexists|done].
Qed.

Lemma sum_sizes_ensure_add m k x :
  x ∉ default ∅ (m !! k) →
  sum_sizes (ensure_add k x m) = S (sum_sizes m).
Proof.
  intros Hx. unfold ensure_add. destruct (m !! k) as [X|] eqn:Hk.
  - pose proof (sum_sizes_alter m k (λ regs, {[x]} ∪ regs) X Hk) as H.
    cbn beta in H. cbn [default] in Hx.
    rewrite size_union, size_singleton in H by set_solver.
    lia.
  - pose proof (sum_sizes_alter (<[k := ∅]> m) k (λ regs, {[x]} ∪ regs) ∅
                  (lookup_insert_eq _ _ _)) as H.
    cbn beta in H. rewrite sum_sizes_insert in H by done.
    rewrite (right_id_L ∅ (∪)), size_singleton, size_empty in H.
    lia.
Qed.

(** X3: [getTotalRegistrations] moves with the participant sets: a
    registration that succeeds adds one and a refused one nothing;
    unregistering a registered pair takes one away and any other pair
    nothing; deleting a stored event takes away its registration count;
    creating an event under an id without participants, and [clear] down to
    zero, complete the account. *)
Theorem getTotalRegistrations_bookkeeping event U E s :
  ((registerUserForEvent U E s).1 = true →
   getTotalRegistrations (registerUserForEvent U E s).2
   = S (getTotalRegistrations s))
  ∧ ((registerUserForEvent U E s).1 = false →
     getTotalRegistrations (registerUserForEvent U E s).2
     = getTotalRegistrations s)
  ∧ (isUserRegisteredForEvent U E s = true →
     getTotalRegistrations s
     = S (getTotalRegistrations (unregisterUserFromEvent U E s).2))
  ∧ (isUserRegisteredForEvent U E s = false →
     getTotalRegistrations (unregisterUserFromEvent U E s).2
     = getTotalRegistrations s)
  ∧ (is_Some (getEventById E s) →
     getTotalRegistrations s
     = (getTotalRegistrations (deleteEvent E s).2
        + getEventRegistrationCount E s)%nat)
  ∧ (getEventRegistrationCount (prop event "id") s = 0%nat →
     getTotalRegistrations (createEvent event s).2 = getTotalRegistrations s)
  ∧ getTotalRegistrations (clear s) = 0%nat.
Proof.
  unfold getTotalRegistrations. repeat split.
  - intros H. apply register_true_inv in H as (HU & HE & Hnot).
    rewrite registerUserForEvent_accepted by done. simpl.
    by apply sum_sizes_ensure_add.
  - intros H. unfold registerUserForEvent in *.
    destruct (users s !! U), (events s !! E); try done.
    by destruct (match eventRegistrations s !! E with
                 | Some regs => bool_decide (U ∈ regs) | None => false end).
  - intros H. apply isUserRegisteredForEvent_participants in H.
    unfold participants in H. simpl.
    destruct (eventRegistrations s !! E) as [X|] eqn:HE; [|set_solver].
    pose proof (sum_sizes_alter (eventRegistrations s) E
                  (λ regs, regs ∖ {[U]}) X HE) as Hsum.
    cbn beta in Hsum. cbn [default] in H.
    rewrite (size_remove_member X U H) in Hsum. lia.
  - intros H. apply isUserRegisteredForEvent_false in H. simpl.
    by rewrite alter_remove_absent.
  - intros [e He]. unfold getEventById in He. unfold deleteEvent.
    rewrite He. simpl. unfold getEventRegistrationCount.
    destruct (eventRegistrations s !! E) as [X|] eqn:HE.
    + apply sum_sizes_delete. done.
    + rewrite delete_id by done. lia.
  - intros H. simpl. unfold getEventRegistrationCount in H.
    destruct (eventRegistrations s !! prop event "id") as [X|] eqn:HE.
    + apply size_empty_inv in H. apply leibniz_equiv in H. subst X.
      rewrite insert_id by done. done.
    + rewrite sum_sizes_insert by done. rewrite size_empty. lia.
Qed.

Lemma getTotalRegistrations_bookkeeping_witness :
  getTotalRegistrations Sample.registered = S (getTotalRegistrations Sample.fresh_pair)
  ∧ getTotalRegistrations Sample.registered
    = S (getTotalRegistrations
           (unregisterUserFromEvent (VStr "u-1") (VStr "e-1") Sample.registered).2)
  ∧ getTotalRegistrations Sample.registered
    = (getTotalRegistrations (deleteEvent (VStr "e-1") Sample.registered).2
       + getEventRegistrationCount (VStr "e-1") Sample.registered)%nat.
Proof.
  split; [|split].
  - apply (proj1 (getTotalRegistrations_bookkeeping Sample.party
                    (VStr "u-1") (VStr "e-1") Sample.fresh_pair)).
    vm_compute. reflexivity.
  - apply (proj1 (proj2 (proj2 (getTotalRegistrations_bookkeeping Sample.party
                    (VStr "u-1") (VStr "e-1") Sample.registered)))).
    vm_compute. reflexivity.
  - apply (proj1 (proj2 (proj2 (proj2 (proj2
             (getTotalRegistrations_bookkeeping Sample.party
                (VStr "u-1") (VStr "e-1") Sample.registered)))))).
    decide_by_compute.
Defined.

Lemma prop_Object_assign (target source : obj) (key : string) :
  prop (Object_assign target source) key
  = match source !! key with Some v => v | None => prop target key end.
Proof.
  unfold prop, Object_assign. rewrite lookup_union.
  destruct (source !! key), (target !! key); done.
Qed.

Lemma Object_assign_again (target source : obj) :
  Object_assign (Object_assign target source) source
  = Object_assign target source.
Proof.
  unfold Object_assign. by rewrite (assoc_L (∪)), (idemp_L (∪)).
Qed.



(** X5: [getEventsByOrganizer] lists exactly the stored events whose
    organizer field is the asked string, never more than there are events;
    an event just created is listed under its own organizer. *)
Theorem getEventsByOrganizer_exact (organizerId : string) s :
  (∀ event,
     event ∈ getEventsByOrganizer organizerId s
     ↔ (∃ id, getEventById id s = Some event)
       ∧ prop event "organizerId" = VStr organizerId)
  ∧ (length (getEventsByOrganizer organizerId s) ≤ getTotalEvents s)%nat
  ∧ (∀ event,
       prop event "organizerId" = VStr organizerId →
       event ∈ getEventsByOrganizer organizerId (createEvent event s).2).
Proof.
  unfold getEventsByOrganizer, getAllEvents, getEventById, getTotalEvents.
  split; [|split].
  - intros event. rewrite list_elem_of_filter, elem_of_map_values. tauto.
  - etrans; [apply length_filter|].
    by rewrite length_fmap, length_map_to_list.
  - intros event Horg. rewrite list_elem_of_filter, elem_of_map_values.
    split; [done|]. exists (prop event "id"). simpl. apply lookup_insert_eq.
Qed.

Lemma getEventsByOrganizer_exact_witness :
  Sample.meetup ∈ getEventsByOrganizer "u-1" (createEvent Sample.meetup empty).2.
Proof.
  apply (proj2 (proj2 (getEventsByOrganizer_exact "u-1" empty))).
  vm_compute. reflexivity.
Defined.

Lemma length_omap_total {A B} (f : A → option B) (l : list A) :
  (∀ x, x ∈ l → is_Some (f x)) → length (omap f l) = length l.
Proof.
  induction l as [|a l IH]; [done|]. intros H. cbn [omap list_omap].
  destruct (H a) as [b Hb]; [by left|]. rewrite Hb. simpl. f_equal.
  apply IH. intros x Hx. apply H. by right.
Qed.

Lemma length_omap_le {A B} (f : A → option B) (l : list A) :
  (length (omap f l) ≤ length l)%nat.
Proof.
  induction l as [|a l IH]; [done|]. cbn [omap list_omap].
  destruct (f a); simpl; lia.
Qed.

(** X6: [getEventRegistrations] and [getUserRegistrations] hand out stored
    records of the registered ids only, never more than are registered.  In
    a store built from the empty one by calls that do not re-create an id
    holding registrations, no id is dropped: the lists are as long as the
    registration count of the event and as the registration set of the
    user. *)
Theorem registration_lists_complete (ops : list op) U E s :
  ((length (getEventRegistrations E s) ≤ getEventRegistrationCount E s)%nat
   ∧ (length (getUserRegistrations U s) ≤ size (registrations s U))%nat
   ∧ (∀ user, user ∈ getEventRegistrations E s →
              ∃ id, id ∈ participants s E ∧ getUserById id s = Some user)
   ∧ (∀ event, event ∈ getUserRegistrations U s →
               ∃ id, id ∈ registrations s U ∧ getEventById id s = Some event))
  ∧ (admissible empty ops →
     length (getEventRegistrations E (run ops empty))
     = getEventRegistrationCount E (run ops empty)
     ∧ length (getUserRegistrations U (run ops empty))
       = size (registrations (run ops empty) U)).
Proof.
  split.
  - rewrite getEventRegistrationCount_participants.
    unfold getEventRegistrations, getUserRegistrations.
    fold (participants s E). fold (registrations s U).
    split; [apply length_omap_le|]. split; [apply length_omap_le|].
    split.
    + intros user Hin. apply list_elem_of_omap in Hin as (id & Hid & Hu).
      exists id. split; [by apply elem_of_elements|done].
    + intros event Hin. apply list_elem_of_omap in Hin as (id & Hid & He).
      exists id. split; [by apply elem_of_elements|done].
  - intros Hadm.
    destruct (run_keeps_mirrored ops empty Hadm) as [Hm Hl].
    { intros U' E'. unfold participants, registrations; simpl.
      rewrite !lookup_empty. set_solver. }
    { intros U' E'. unfold participants; simpl. rewrite lookup_empty.
      set_solver. }
    rewrite getEventRegistrationCount_participants.
    unfold getEventRegistrations, getUserRegistrations.
    fold (participants (run ops empty) E).
    fold (registrations (run ops empty) U).
    split.
    + apply length_omap_total. intros id Hid. apply elem_of_elements in Hid.
      by apply Hl in Hid as [? _].
    + apply length_omap_total. intros id Hid. apply elem_of_elements in Hid.
      apply Hm in Hid. by apply Hl in Hid as [_ ?].
Qed.

Lemma registration_lists_complete_witness :
  length (getEventRegistrations (VStr "e-1") Sample.registered)
  = getEventRegistrationCount (VStr "e-1") Sample.registered
  ∧ length (getUserRegistrations (VStr "u-1") Sample.registered)
    = size (registrations Sample.registered (VStr "u-1")).
Proof.
  apply (proj2 (registration_lists_complete
                  [CreateUser Sample.alice; CreateEvent Sample.party;
                   Register (VStr "u-1") (VStr "e-1")]
                  (VStr "u-1") (VStr "e-1") empty)).
  repeat split; try exact I; left; vm_compute; reflexivity.
Defined.

Lemma size_set_map_inj `{Countable A, Countable B} (f : A → B)
    `{!Inj (=) (=) f} (X : gset A) :
  size (set_map f X : gset B) = size X.
Proof.
  induction X as [|x X Hx IH] using set_ind_L.
  - by rewrite set_map_empty, !size_empty.
  - rewrite set_map_union_L, set_map_singleton_L.
    rewrite !size_union, !size_singleton, IH; [done|set_solver|].
    apply disjoint_singleton_l. rewrite elem_of_map.
    intros (y & Hy & Hin). apply (inj f) in Hy. by subst.
Qed.

(** The pairs an index holds, counted with the sum of its set sizes. *)
Lemma pairs_of_index m :
  ∃ P : gset (val * val),
    (∀ k x, (k, x) ∈ P ↔ x ∈ default ∅ (m !! k)) ∧ size P = sum_sizes m.
Proof.
  apply (map_fold_weak_ind
           (λ r m, ∃ P : gset (val * val),
              (∀ k x, (k, x) ∈ P ↔ x ∈ default ∅ (m !! k)) ∧ size P = r)).
  - exists ∅. split; [|apply size_empty].
    intros k x. rewrite lookup_empty. set_solver.
  - intros i X m' r Hi (P & HP & Hsize).
    exists (set_map (λ x, (i, x)) X ∪ P). split.
    + intros k x. rewrite elem_of_union, elem_of_map, HP, lookup_insert.
      case_decide as Hk.
      * subst k. rewrite Hi. simpl. split; [|intros Hx; left; by exists x].
        intros [(y & [= <-] & Hy)|Hx]; [done|set_solver].
      * split; [|by right]. intros [(y & [= <- _] & _)|Hx]; done.
    + rewrite size_union.
      * rewrite size_set_map_inj by (intros ?? [=]; done). lia.
      * intros [k x] Hl Hr. apply elem_of_map in Hl as (y & [= -> ->] & Hy).
        apply HP in Hr. rewrite Hi in Hr. set_solver.
Qed.

(** X7: while the two indexes mirror each other, the registrations counted
    over the events, as [getTotalRegistrations] does, are as many as those
    counted over the users; this holds in every store built from the empty
    one by calls that do not re-create an id holding registrations. *)
Theorem getTotalRegistrations_either_index (ops : list op) s :
  (mirrored s →
   getTotalRegistrations s = sum_sizes (userRegistrations s))
  ∧ (admissible empty ops →
     getTotalRegistrations (run ops empty)
     = sum_sizes (userRegistrations (run ops empty))).
Proof.
  assert (Hgen : ∀ t, mirrored t →
                      getTotalRegistrations t = sum_sizes (userRegistrations t)).
  { intros t Hm. unfold getTotalRegistrations.
    destruct (pairs_of_index (eventRegistrations t)) as (PE & HPE & <-).
    destruct (pairs_of_index (userRegistrations t)) as (PU & HPU & <-).
    assert (HP : PE = set_map (λ p : val * val, (p.2, p.1)) PU).
    { apply set_eq. intros [E U]. rewrite elem_of_map, HPE. split.
      - intros H. exists (U, E). split; [done|]. apply HPU. by apply Hm.
      - intros ([U' E'] & [= -> ->] & H). apply HPU in H. by apply Hm. }
    rewrite HP. apply size_set_map_inj.
    intros [a b] [c d] [=]. by subst. }
  split; [apply Hgen|]. intros Hadm. apply Hgen.
  apply (run_keeps_mirrored ops empty Hadm).
  - intros U E. unfold participants, registrations; simpl.
    rewrite !lookup_empty. set_solver.
  - intros U E. unfold participants; simpl. rewrite lookup_empty. set_solver.
Qed.

Lemma getTotalRegistrations_either_index_witness :
  getTotalRegistrations Sample.registered
  = sum_sizes (userRegistrations Sample.registered).
Proof.
  apply (proj2 (getTotalRegistrations_either_index
                  [CreateUser Sample.alice; CreateEvent Sample.party;
                   Register (VStr "u-1") (VStr "e-1")] empty)).
  repeat split; try exact I; left; vm_compute; reflexivity.
Defined.

End StoreQueries.

(** * Further properties of the Event model *)

Section EventLifecycle.
Variable tzOffset : Z.
Variable Date_parse : string → num.

Local Abbreviation getDateTime := (Event.getDateTime tzOffset Date_parse).
Local Abbreviation updateStatus := (Event.updateStatus tzOffset Date_parse).
Local Abbreviation hasStarted := (Event.hasStarted tzOffset Date_parse).
Local Abbreviation hasEnded := (Event.hasEnded tzOffset Date_parse).

(** The status [updateStatus] computes for an event that is not cancelled. *)
Lemma updateStatus_computed (e : obj) (now d : Z) (start : num) :
  prop e "duration" = VNum d → getDateTime e = Ret start →
  updateStatus now e
  = Ret (if bool_decide (prop e "status" = VStr "cancelled")
         then (e, prop e "status")
         else
           let status :=
             if num_lt (Some now) start then VStr "upcoming"
             else if num_le start (Some now)
                     && num_le (Some now)
                          (s ← start; TimeClip (Some (s + d * msPerMinute)))
                  then VStr "ongoing" else VStr "completed" in
           (<["status" := status]> e, status)).
Proof.
  intros Hd Hstart. unfold Event.updateStatus. rewrite Hstart.
  cbn [mbind js_bind].
  destruct start as [start|];
    [rewrite (endOf_valid tzOffset e start d Hd)
    |rewrite (endOf_invalid tzOffset e d Hd)];
    cbn [mbind js_bind option_bind]; by case_bool_decide.
Qed.

Lemma getDateTime_status (e : obj) (v : val) :
  getDateTime (<["status" := v]> e) = getDateTime e.
Proof.
  unfold Event.getDateTime, prop. by rewrite !lookup_insert_ne by done.
Qed.


Lemma endOf_status (e : obj) (v : val) (start : num) :
  Event.endOf tzOffset (<["status" := v]> e) start = Event.endOf tzOffset e start.
Proof. unfold Event.endOf, prop. by rewrite lookup_insert_ne by done. Qed.

(** What a returning [updateStatus] hands back: the cancelled event as it
    is, or the event with one of the three computed statuses stored. *)
Lemma updateStatus_shape (e e' : obj) (now : Z) (status : val) :
  updateStatus now e = Ret (e', status) →
  (prop e "status" = VStr "cancelled" ∧ e' = e ∧ status = VStr "cancelled")
  ∨ (prop e "status" ≠ VStr "cancelled" ∧ e' = <["status" := status]> e
     ∧ (status = VStr "upcoming" ∨ status = VStr "ongoing"
        ∨ status = VStr "completed")).
Proof.
  unfold Event.updateStatus.
  destruct (getDateTime e) as [start| |]; [|done|done]. cbn [mbind js_bind].
  destruct (Event.endOf tzOffset e start) as [en| |]; [|done|done].
  cbn [mbind js_bind]. case_bool_decide as Hc.
  - intros [= <- <-]. left. done.
  - cbn zeta. intros [= <- <-]. right. split; [done|]. split; [done|].
    repeat case_match; auto.
Qed.

Lemma updateStatus_again (e e' : obj) (now : Z) (status : val) :
  updateStatus now e = Ret (e', status) →
  updateStatus now e' = Ret (e', status).
Proof.
  intros Hrun.
  destruct (updateStatus_shape e e' now status Hrun)
    as [(Hc & -> & ->)|(Hc & -> & Hst)].
  - exact Hrun.
  - revert Hrun. unfold Event.updateStatus.
    rewrite getDateTime_status.
    destruct (getDateTime e) as [start| |]; [|done|done]. cbn [mbind js_bind].
    rewrite endOf_status.
    destruct (Event.endOf tzOffset e start) as [en| |]; [|done|done].
    cbn [mbind js_bind]. rewrite (bool_decide_eq_false_2 _ Hc). cbn zeta.
    set (computed := if num_lt (Some now) start then VStr "upcoming" else _).
    intros Heq.
    assert (Hcomputed : computed = status) by congruence.
    assert (Hp : prop (<["status" := status]> e) "status" = status)
      by (unfold prop; by rewrite lookup_insert_eq).
    rewrite Hp.
    rewrite bool_decide_eq_false_2 by (destruct Hst as [->|[->| ->]]; done).
    rewrite Hcomputed. by rewrite insert_insert_eq.
Qed.

(** X9: [updateStatus] changes no property but [status], which holds the
    returned value afterwards; the date, time and duration it reads are never
    touched, so that [getDateTime] answers as before; and a second call at
    the same instant returns the same status and changes nothing. *)
Theorem updateStatus_only_status (e e' : obj) (now : Z) (status : val) :
  updateStatus now e = Ret (e', status) →
  (∀ key, key ≠ "status"%string → e' !! key = e !! key)
  ∧ prop e' "status" = status
  ∧ getDateTime e' = getDateTime e
  ∧ updateStatus now e' = Ret (e', status).
Proof.
  intros Hrun. split; [|split; [|split]].
  - destruct (updateStatus_shape e e' now status Hrun)
      as [(Hc & -> & ->)|(Hc & -> & Hst)]; [done|].
    intros key Hkey. by rewrite lookup_insert_ne.
  - destruct (updateStatus_shape e e' now status Hrun)
      as [(Hc & -> & ->)|(Hc & -> & Hst)]; [done|].
    unfold prop. by rewrite lookup_insert_eq.
  - destruct (updateStatus_shape e e' now status Hrun)
      as [(Hc & -> & ->)|(Hc & -> & Hst)]; [done|].
    apply (getDateTime_status e status).
  - by apply (updateStatus_again e).
Qed.

(** X10: as time advances the status never goes back.  For an event with a
    duration that is not negative, if [updateStatus] is called at an instant
    and again, on the event as the first call left it, at the same or a
    later instant, then after ['completed'] comes ['completed'], after
    ['ongoing'] never ['upcoming'], and after ['cancelled'] always
    ['cancelled']. *)
Theorem status_never_goes_back (e e1 e2 : obj) (now1 now2 d : Z)
    (status1 status2 : val) :
  prop e "duration" = VNum d → 0 ≤ d → now1 ≤ now2 →
  updateStatus now1 e = Ret (e1, status1) →
  updateStatus now2 e1 = Ret (e2, status2) →
  (status1 = VStr "completed" → status2 = VStr "completed")
  ∧ (status1 = VStr "ongoing" → status2 ≠ VStr "upcoming")
  ∧ (status1 = VStr "cancelled" → status2 = VStr "cancelled").
Proof.
  intros Hd Hpos Hle Hrun1 Hrun2.
  assert (Hkeep : prop e1 "duration" = VNum d ∧ prop e1 "status" = status1
                  ∧ getDateTime e1 = getDateTime e).
  { destruct (updateStatus_shape e e1 now1 status1 Hrun1)
      as [(Hc & -> & ->)|(Hc & -> & Hst)]; [done|].
    split; [unfold prop; by rewrite lookup_insert_ne|].
    split; [unfold prop; by rewrite lookup_insert_eq|].
    apply (getDateTime_status e status1). }
  destruct Hkeep as (Hd1 & Hst1 & Hget).
  destruct (getDateTime e) as [start| |] eqn:Hstart;
    [|unfold Event.updateStatus in Hrun1; by rewrite Hstart in Hrun1
     |unfold Event.updateStatus in Hrun1; by rewrite Hstart in Hrun1].
  rewrite (updateStatus_computed e now1 d start Hd Hstart) in Hrun1.
  rewrite (updateStatus_computed e1 now2 d start Hd1) in Hrun2
    by (by rewrite Hget).
  rewrite Hst1 in Hrun2.
  destruct (bool_decide (prop e "status" = VStr "cancelled")) eqn:Hc.
  - apply bool_decide_eq_true in Hc. injection Hrun1 as <- <-.
    rewrite Hc in *. rewrite bool_decide_eq_true_2 in Hrun2 by done.
    injection Hrun2 as <- <-. done.
  - cbn zeta in Hrun1. injection Hrun1 as <- <-.
    unfold msPerMinute in *.
    destruct start as [start|]; cbn [num_lt num_le mbind option_bind] in *.
    + destruct (decide (valid_time (start + d * 60000))) as [Hend|Hend];
        [rewrite (TimeClip_valid _ Hend) in *
        |rewrite (TimeClip_invalid _ Hend) in *];
        cbn [num_le] in *; rewrite ?andb_false_r in *;
        repeat case_bool_decide; cbn [andb] in *;
        try rewrite bool_decide_eq_true_2 in Hrun2 by done;
        try rewrite bool_decide_eq_false_2 in Hrun2 by done;
        cbn zeta in Hrun2; injection Hrun2 as <- <-;
        repeat split; try done; try lia.
    + rewrite bool_decide_eq_false_2 in Hrun2 by done.
      cbn zeta in Hrun2. injection Hrun2 as <- <-. done.
Qed.

(** An event with the wanted status that is active. *)
Local Abbreviation kept_for wanted :=
  (λ e' : obj,
     prop e' "status" = VStr wanted ∧ truthy (prop e' "isActive") = true).

Lemma filter_by_status_spec (wanted : string) (now : Z)
    (events all kept : list obj) :
  Event.filter_by_status tzOffset Date_parse wanted now events = Ret (all, kept) →
  Forall2 (λ e e', ∃ st, updateStatus now e = Ret (e', st)) events all
  ∧ kept = filter (kept_for wanted) all.
Proof.
  revert all kept. induction events as [|e events IH]; intros all kept.
  - cbn [Event.filter_by_status]. intros [= <- <-]. split; [constructor|done].
  - cbn [Event.filter_by_status].
    destruct (updateStatus now e) as [[e' st]| |] eqn:He; [|done|done].
    cbn [mbind js_bind].
    destruct (Event.filter_by_status tzOffset Date_parse wanted now events)
      as [[all' kept']| |] eqn:Hrest; [|done|done].
    cbn [mbind js_bind fst snd]. intros [= <- <-].
    destruct (IH all' kept' eq_refl) as [Hall ->].
    split; [constructor; [by exists st|done]|].
    rewrite filter_cons.
    destruct (decide (kept_for wanted e')) as [[H1 H2]|Hn].
    + by rewrite (bool_decide_eq_true_2 _ H1), H2.
    + destruct (bool_decide (prop e' "status" = VStr wanted)) eqn:Hb;
        [|done].
      apply bool_decide_eq_true in Hb.
      destruct (truthy (prop e' "isActive")) eqn:Ht; [|done].
      by destruct Hn.
Qed.

Lemma filter_by_status_again (wanted : string) (now : Z)
    (events all : list obj) :
  Forall2 (λ e e', ∃ st, updateStatus now e = Ret (e', st)) events all →
  Event.filter_by_status tzOffset Date_parse wanted now all
  = Ret (all, filter (kept_for wanted) all).
Proof.
  induction 1 as [|e e' events all [st He] _ IH]; [done|].
  cbn [Event.filter_by_status].
  rewrite (updateStatus_again e e' now st He), IH.
  cbn [mbind js_bind fst snd]. rewrite filter_cons.
  destruct (decide (kept_for wanted e')) as [[H1 H2]|Hn].
  - by rewrite (bool_decide_eq_true_2 _ H1), H2.
  - destruct (bool_decide (prop e' "status" = VStr wanted)) eqn:Hb; [|done].
    apply bool_decide_eq_true in Hb.
    destruct (truthy (prop e' "isActive")) eqn:Ht; [|done].
    by destruct Hn.
Qed.

Lemma count_by_status (all : list obj) :
  Forall (λ e', prop e' "status" = VStr "cancelled"
                ∨ prop e' "status" = VStr "upcoming"
                ∨ prop e' "status" = VStr "ongoing"
                ∨ prop e' "status" = VStr "completed") all →
  (length (filter (kept_for "upcoming") all)
   + length (filter (kept_for "ongoing") all)
   + length (filter (kept_for "completed") all)
   = length (filter (λ e' : obj, prop e' "status" ≠ VStr "cancelled"
                                 ∧ truthy (prop e' "isActive") = true) all))%nat.
Proof.
  induction 1 as [|e' all He _ IH]; [done|].
  rewrite !filter_cons.
  destruct (truthy (prop e' "isActive")) eqn:Ht;
    destruct He as [He|[He|[He|He]]]; rewrite He;
    repeat case_decide; cbn [length]; try lia;
    exfalso; intuition congruence.
Qed.

(** X11: when [filterUpcoming] returns, the events of the array have their
    status recomputed, as many as before; [filterOngoing] and
    [filterCompleted], run then on the same array at the same instant,
    return as well and leave the array as it is.  What each keeps are the
    active events of its status; an event that is cancelled or not active
    is kept by none, and the three results together hold as many events as
    the array has active events that are not cancelled. *)
Theorem status_filters_partition (now : Z) (events all upcoming : list obj) :
  Event.filterUpcoming tzOffset Date_parse now events = Ret (all, upcoming) →
  length all = length events
  ∧ ∃ ongoing completed,
      Event.filterOngoing tzOffset Date_parse now all = Ret (all, ongoing)
      ∧ Event.filterCompleted tzOffset Date_parse now all = Ret (all, completed)
      ∧ Event.filterUpcoming tzOffset Date_parse now all = Ret (all, upcoming)
      ∧ (∀ e', e' ∈ upcoming ↔ e' ∈ all ∧ kept_for "upcoming" e')
      ∧ (∀ e', e' ∈ ongoing ↔ e' ∈ all ∧ kept_for "ongoing" e')
      ∧ (∀ e', e' ∈ completed ↔ e' ∈ all ∧ kept_for "completed" e')
      ∧ (∀ e', prop e' "status" = VStr "cancelled"
               ∨ truthy (prop e' "isActive") = false →
               (e' ∉ upcoming) ∧ (e' ∉ ongoing) ∧ (e' ∉ completed))
      ∧ (length upcoming + length ongoing + length completed
         = length (filter (λ e' : obj,
                             prop e' "status" ≠ VStr "cancelled"
                             ∧ truthy (prop e' "isActive") = true) all))%nat.
Proof.
  unfold Event.filterUpcoming, Event.filterOngoing, Event.filterCompleted.
  intros Hrun. apply filter_by_status_spec in Hrun as [Hall ->].
  split; [symmetry; by eapply Forall2_length|].
  exists (filter (kept_for "ongoing") all), (filter (kept_for "completed") all).
  split; [by eapply filter_by_status_again|].
  split; [by eapply filter_by_status_again|].
  split; [by eapply filter_by_status_again|].
  split; [intros e'; rewrite list_elem_of_filter; tauto|].
  split; [intros e'; rewrite list_elem_of_filter; tauto|].
  split; [intros e'; rewrite list_elem_of_filter; tauto|].
  split.
  - intros e' He'. rewrite !list_elem_of_filter.
    destruct He' as [He'|He']; rewrite He'; repeat split;
      intros [[? ?] _]; discriminate.
  - apply count_by_status.
    clear -Hall. induction Hall as [|e e' events all [st He] _ IH];
      constructor; [|done].
    destruct (updateStatus_shape e e' now st He)
      as [(Hc & -> & ->)|(Hc & -> & Hst)]; [by left|].
    right. unfold prop. rewrite lookup_insert_eq. cbn [default].
    destruct Hst as [->|[->| ->]]; auto.
Qed.

End EventLifecycle.


Lemma updateStatus_only_status_witness :
  Event.updateStatus 0 Sample.parse_one_date 100
    (<["status" := VStr "upcoming"]> Sample.meetup)
  = Ret (<["status" := VStr "upcoming"]> Sample.meetup, VStr "upcoming").
Proof.
  apply (updateStatus_only_status 0 Sample.parse_one_date Sample.meetup
           (<["status" := VStr "upcoming"]> Sample.meetup) 100
           (VStr "upcoming")); reflexivity.
Defined.

Lemma status_never_goes_back_witness :
  (VStr "ongoing" = VStr "completed" → VStr "completed" = VStr "completed")
  ∧ (VStr "ongoing" = VStr "ongoing" → VStr "completed" ≠ VStr "upcoming")
  ∧ (VStr "ongoing" = VStr "cancelled" → VStr "completed" = VStr "cancelled").
Proof.
  apply (status_never_goes_back 0 Sample.parse_one_date Sample.meetup
           (<["status" := VStr "ongoing"]> Sample.meetup)
           (<["status" := VStr "completed"]> Sample.meetup)
           138600000 142200001 60 (VStr "ongoing") (VStr "completed"));
    [reflexivity | lia | lia | reflexivity
    | reflexivity].
Defined.

Lemma status_filters_partition_witness :
  ∃ ongoing completed,
    Event.filterOngoing 0 Sample.parse_one_date 100
      [<["status" := VStr "upcoming"]> Sample.meetup]
    = Ret ([<["status" := VStr "upcoming"]> Sample.meetup], ongoing)
    ∧ Event.filterCompleted 0 Sample.parse_one_date 100
        [<["status" := VStr "upcoming"]> Sample.meetup]
      = Ret ([<["status" := VStr "upcoming"]> Sample.meetup], completed)
    ∧ (length [<["status" := VStr "upcoming"]> Sample.meetup]
       + length ongoing + length completed
       = length (filter (λ e' : obj,
                           prop e' "status" ≠ VStr "cancelled"
                           ∧ truthy (prop e' "isActive") = true)
                   [<["status" := VStr "upcoming"]> Sample.meetup]))%nat.
Proof.
  destruct (status_filters_partition 0 Sample.parse_one_date 100
              [Sample.meetup]
              [<["status" := VStr "upcoming"]> Sample.meetup]
              [<["status" := VStr "upcoming"]> Sample.meetup])
    as (_ & ongoing & completed & Hon & Hco & _ & _ & _ & _ & _ & Hcount);
    [reflexivity|].
  exists ongoing, completed. split; [exact Hon|]. split; [exact Hco|exact Hcount].
Defined.

(** ** Updates that are written and merged *)

Section UpdateMerge.
Variable Date_parse : string → num.

Lemma prop_union_present (u2 u1 : obj) (k : string) :
  is_Some (u2 !! k) → prop (u2 ∪ u1) k = prop u2 k.
Proof.
  intros [v Hv]. unfold prop. by rewrite (lookup_union_l' _ _ _ (mk_is_Some _ _ Hv)).
Qed.

Lemma prop_union_absent (u2 u1 : obj) (k : string) :
  u2 !! k = None → prop (u2 ∪ u1) k = prop u1 k.
Proof. intros Hv. unfold prop. by rewrite lookup_union_r. Qed.

(** X12: [update] writes every allowed field the updates name, a [Date]
    object in the case of ["date"], and stamps [updatedAt] with the instant
    of the call; updating with [u1] and then with [u2] gives the record that
    one update with both gives, the fields of [u2] taking precedence.  This
    holds of events and, without the date conversion, of users. *)
Theorem update_writes_and_merges (now1 now2 : Z) (u1 u2 e u : obj) :
  (∀ key, key ∈ Event.allowedUpdates → is_Some (u1 !! key) →
          prop (Event.update Date_parse now1 u1 e) key
          = Event.assigned_value Date_parse u1 key)
  ∧ (is_Some (u1 !! "date") →
     prop (Event.update Date_parse now1 u1 e) "date"
     = VDate (newDate Date_parse (prop u1 "date")))
  ∧ prop (Event.update Date_parse now1 u1 e) "updatedAt" = VDate (Some now1)
  ∧ Event.update Date_parse now2 u2 (Event.update Date_parse now1 u1 e)
    = Event.update Date_parse now2 (u2 ∪ u1) e
  ∧ (∀ key, key ∈ User.allowedUpdates → is_Some (u1 !! key) →
            prop (User.update now1 u1 u) key = prop u1 key)
  ∧ prop (User.update now1 u1 u) "updatedAt" = VDate (Some now1)
  ∧ User.update now2 u2 (User.update now1 u1 u) = User.update now2 (u2 ∪ u1) u.
Proof.
  assert (Hwrite : ∀ key, key ∈ Event.allowedUpdates → is_Some (u1 !! key) →
                          prop (Event.update Date_parse now1 u1 e) key
                          = Event.assigned_value Date_parse u1 key).
  { intros key Hal Hin. unfold prop at 1. rewrite lookup_Event_update.
    rewrite decide_False.
    2:{ intros ->. revert Hal. by apply (bool_decide_eq_false_1 _). }
    by rewrite decide_True. }
  split; [exact Hwrite|]. split.
  { intros Hin. rewrite Hwrite; [done| |done].
    by apply (bool_decide_eq_true_1 _). }
  split; [unfold prop; rewrite lookup_Event_update; by rewrite decide_True|].
  split.
  { apply map_eq. intros k. rewrite !lookup_Event_update.
    case_decide; [done|].
    destruct (decide (k ∈ Event.allowedUpdates)) as [Hal|Hal].
    - destruct (u2 !! k) as [v2|] eqn:H2.
      + rewrite decide_True by (split; [by eexists|done]).
        rewrite decide_True.
        2:{ split; [|done]. rewrite lookup_union_l' by (by eexists).
            by eexists. }
        unfold Event.assigned_value.
        by rewrite prop_union_present by (by eexists).
      + rewrite decide_False by (intros [[? ?] _]; done).
        rewrite lookup_union_r by done.
        unfold Event.assigned_value.
        rewrite prop_union_absent by done. done.
    - rewrite !decide_False by tauto. done. }
  assert (HwriteU : ∀ key, key ∈ User.allowedUpdates → is_Some (u1 !! key) →
                           prop (User.update now1 u1 u) key = prop u1 key).
  { intros key Hal Hin. unfold prop at 1. rewrite (lookup_User_update Date_parse).
    rewrite decide_False.
    2:{ intros ->. revert Hal. by apply (bool_decide_eq_false_1 _). }
    by rewrite decide_True. }
  split; [exact HwriteU|].
  split; [unfold prop; rewrite (lookup_User_update Date_parse); by rewrite decide_True|].
  apply map_eq. intros k. rewrite !(lookup_User_update Date_parse).
  case_decide; [done|].
  destruct (decide (k ∈ User.allowedUpdates)) as [Hal|Hal].
  - destruct (u2 !! k) as [v2|] eqn:H2.
    + rewrite decide_True by (split; [by eexists|done]).
      rewrite decide_True.
      2:{ split; [|done]. rewrite lookup_union_l' by (by eexists).
          by eexists. }
      by rewrite prop_union_present by (by eexists).
    + rewrite decide_False by (intros [[? ?] _]; done).
      rewrite lookup_union_r by done.
      rewrite prop_union_absent by done. done.
  - rewrite !decide_False by tauto. done.
Qed.

End UpdateMerge.

Lemma update_writes_and_merges_witness :
  prop (Event.update Sample.parse_one_date 5 Sample.meddling Sample.meetup) "title"
  = VStr "Renamed"
  ∧ prop (User.update 5 Sample.meddling Sample.bob) "firstName" = VStr "Robert".
Proof.
  destruct (update_writes_and_merges Sample.parse_one_date 5 5
              Sample.meddling Sample.meddling Sample.meetup Sample.bob)
    as (Hevent & _ & _ & _ & Huser & _).
  split.
  - exact (Hevent "title"%string ltac:(decide_by_compute)
             ltac:(decide_by_compute)).
  - exact (Huser "firstName"%string ltac:(decide_by_compute)
             ltac:(decide_by_compute)).
Defined.

(** ** Capacity at the edges *)

(** X13: [isFull] never raises; it grows with the count: an event full at
    one count is full at every greater one; without a number to compare
    with ([undefined], NaN) it is never full, and with a limit of zero or
    less it is full at every count from zero on. *)
Theorem isFull_edges (e : obj) (n n' : Z) :
  Event.isFull n e ≠ Throw
  ∧ (Event.isFull n e = Ret true → n ≤ n' → Event.isFull n' e = Ret true)
  ∧ (prop e "maxParticipants" = VUndef ∨ prop e "maxParticipants" = VNaN →
     Event.isFull n e = Ret false)
  ∧ (∀ max, prop e "maxParticipants" = VNum max → max ≤ 0 → 0 ≤ n →
            Event.isFull n e = Ret true).
Proof.
  unfold Event.isFull. split; [|split; [|split]].
  - case_bool_decide; [done|].
    destruct (prop e "maxParticipants") as [| |b|m| |str|t];
      try discriminate.
    cbn [ToNumber]. unfold StringToNumber.
    destruct (all_digits str); discriminate.
  - intros Hfull Hle. case_bool_decide; [done|].
    destruct (ToNumber (prop e "maxParticipants")) as [[m|]| |]; try done.
    cbn [mbind js_bind num_le] in *. injection Hfull as Hfull.
    apply bool_decide_eq_true in Hfull. f_equal. apply bool_decide_eq_true.
    lia.
  - by intros [-> | ->].
  - intros max -> Hmax Hn. cbn. f_equal. apply bool_decide_eq_true. lia.
Qed.

Lemma isFull_edges_witness :
  Event.isFull 7 Sample.meetup = Ret true
  ∧ Event.isFull 0 (<["maxParticipants" := VNum 0]> Sample.meetup) = Ret true
  ∧ Event.isFull 1000 (<["maxParticipants" := VUndef]> Sample.meetup)
    = Ret false.
Proof.
  split; [|split].
  - apply (proj1 (proj2 (isFull_edges Sample.meetup 2 7)));
      [vm_compute; reflexivity | lia].
  - apply (proj2 (proj2 (proj2 (isFull_edges
             (<["maxParticipants" := VNum 0]> Sample.meetup) 0 0))) 0);
      [vm_compute; reflexivity | lia | lia].
  - apply (proj1 (proj2 (proj2 (isFull_edges
             (<["maxParticipants" := VUndef]> Sample.meetup) 1000 0)))).
    left. vm_compute. reflexivity.
Defined.

(** ** What [Event.validate] accepts *)

Section ValidateAccepts.
Variable tzOffset : Z.
Variable Date_parse : string → num.
(** A string that is not empty. *)
Local Abbreviation filled v := (∃ str : string, v = VStr str ∧ str ≠ EmptyString).

(** Falsy, or a number above zero. *)
Local Abbreviation absent_or_positive v :=
  (truthy v = false ∨ ∃ n : Z, v = VNum n ∧ 0 < n).

Lemma required_string_nil (v : val) (message : string) :
  Event.required_string v message = [] ↔ filled v.
Proof.
  unfold Event.required_string, Event.is_string. split.
  - destruct v as [| |b|n| |str|t]; cbn; rewrite ?orb_true_r;
      try discriminate.
    cbn. destruct (String.eqb_spec str ""); [discriminate|].
    intros _. by exists str.
  - intros (str & -> & Hne). cbn.
    by destruct (String.eqb_spec str "").
Qed.

Lemma positive_number_nil (v : val) (message : string) :
  Event.positive_number v message = [] ↔ absent_or_positive v.
Proof.
  unfold Event.positive_number, Event.is_number, Event.not_positive. split.
  - destruct (truthy v) eqn:Ht; [|by left].
    destruct v as [| |b|n| |str|t]; cbn; rewrite ?orb_true_r;
      try discriminate.
    cbn. case_bool_decide; [discriminate|]. intros _. right.
    exists n. split; [done|lia].
  - intros [->|(n & -> & Hn)]; [done|]. cbn.
    rewrite bool_decide_eq_false_2 by lia. by rewrite andb_false_r.
Qed.

Lemma time_errors_nil (v : val) :
  Event.time_errors v = [] ↔ ∃ time, v = VStr time ∧ Event.time_format time = true.
Proof.
  unfold Event.time_errors, Event.is_string. split.
  - destruct v as [| |b|n| |str|t]; cbn; rewrite ?orb_true_r;
      try discriminate.
    cbn. destruct (String.eqb_spec str ""); [discriminate|]. cbn.
    destruct (Event.time_format str) eqn:Hf; [|discriminate].
    intros _. by exists str.
  - intros (time & -> & Hf). cbn.
    destruct (String.eqb_spec time "") as [->|]; [discriminate|].
    cbn. by rewrite Hf.
Qed.

Lemma date_errors_nil (now : Z) (v : val) :
  Event.date_errors tzOffset Date_parse now v = []
  ↔ truthy v = true
    ∧ ∃ t, newDate Date_parse v = Some t ∧ valid_time t
           ∧ num_lt (Some t) (Event.startOfToday tzOffset now) = false.
Proof.
  unfold Event.date_errors.
  destruct (truthy v); cbn [negb].
  - destruct (newDate Date_parse v) as [t|] eqn:Ht.
    + destruct (num_lt (Some t) (Event.startOfToday tzOffset now)) eqn:Hlt.
      * split; [discriminate|]. intros [_ (t' & [= <-] & _ & Hle)].
        congruence.
      * split; [|done]. intros _. split; [done|]. exists t.
        split; [done|]. split; [|done].
        by apply TimeClip_Some in Ht as [_ Ht].
    + split; [discriminate|]. intros [_ (t & Ht' & _)]. discriminate.
  - split; [discriminate|]. intros [Ht _]. discriminate.
Qed.

(** X14: [Event.validate] reports no error, and so answers [isValid], exactly
    for the inputs whose title, description, location and organizer id are
    non-empty strings, whose date is given, makes a valid [Date] (a time
    value that a [Date] can hold) and is not before the start of the local
    day of the call, whose time is a string in HH:MM format, and whose
    duration and participant limit are each falsy (absent, [null], 0, NaN,
    [false], the empty string) or a number above zero. *)
Theorem validate_accepts_exactly (now : Z) (eventData : obj) :
  Event.isValid (Event.validate tzOffset Date_parse now eventData) = true
  ↔ filled (prop eventData "title")
    ∧ filled (prop eventData "description")
    ∧ (truthy (prop eventData "date") = true
       ∧ ∃ t, newDate Date_parse (prop eventData "date") = Some t
              ∧ valid_time t
              ∧ num_lt (Some t) (Event.startOfToday tzOffset now) = false)
    ∧ (∃ time, prop eventData "time" = VStr time
               ∧ Event.time_format time = true)
    ∧ absent_or_positive (prop eventData "duration")
    ∧ filled (prop eventData "location")
    ∧ absent_or_positive (prop eventData "maxParticipants")
    ∧ filled (prop eventData "organizerId").
Proof.
  unfold Event.validate. cbn [Event.isValid].
  rewrite bool_decide_eq_true, length_zero_iff_nil.
  rewrite !app_nil.
  rewrite !required_string_nil, !positive_number_nil, time_errors_nil,
    date_errors_nil.
  tauto.
Qed.

Lemma endOf_returns (e : obj) (start : num) :
  prop e "duration" ≠ VStr EmptyString →
  absent_or_positive (prop e "duration") →
  ∃ en, Event.endOf tzOffset e start = Ret en.
Proof.
  intros Hne Hd. unfold Event.endOf.
  destruct (prop e "duration") as [| |b|n| |str|t] eqn:He;
    try (eexists; reflexivity).
  - destruct Hd as [Hd|(n & [=] & _)]. cbn in Hd.
    destruct (String.eqb_spec str ""); [by subst|discriminate].
  - destruct Hd as [Hd|(n & [=] & _)]. discriminate.
Qed.

Variable Date_toISOString : Z → string.

(** X15: an input that [Event.validate] accepts makes a well-formed event.
    The event built from it carries the given uuid and organizer, is active
    and ['upcoming'], and its date is a valid [Date].  [getDateTime]
    returns the instant at the hour and minute of its time, in local time,
    on the local calendar day of the instant its date holds, or an Invalid
    Date when no [Date] can hold that instant; the instant is not before
    the start of the day of the validation.  [isFull] and [toJSON] return;
    and, the duration not being the empty string, [updateStatus] returns at
    every instant with one of ['upcoming'], ['ongoing'], ['completed']. *)
Theorem validated_event_is_well_formed (uuid : string) (created now : Z)
    (eventData : obj) :
  Event.isValid (Event.validate tzOffset Date_parse now eventData) = true →
  let e := Event.construct Date_parse uuid created eventData in
  prop e "id" = VStr uuid
  ∧ prop e "organizerId" = prop eventData "organizerId"
  ∧ prop e "isActive" = VBool true
  ∧ prop e "status" = VStr "upcoming"
  ∧ (∃ t h m,
       prop e "date" = VDate (Some t) ∧ valid_time t
       ∧ 0 ≤ h ≤ 23 ∧ 0 ≤ m ≤ 59
       ∧ let start := Day (LocalTime tzOffset t) * msPerDay
                      + h * msPerHour + m * msPerMinute - tzOffset in
         Event.getDateTime tzOffset Date_parse e = Ret (TimeClip (Some start))
         ∧ Day (LocalTime tzOffset start) = Day (LocalTime tzOffset t)
         ∧ num_lt (Some start) (Event.startOfToday tzOffset now) = false)
  ∧ (∀ n, ∃ full, Event.isFull n e = Ret full)
  ∧ (∃ json, Event.toJSON Date_toISOString e = Ret json)
  ∧ (prop eventData "duration" ≠ VStr EmptyString →
     ∀ at_time, ∃ status,
       Event.updateStatus tzOffset Date_parse at_time e
       = Ret (<["status" := VStr status]> e, VStr status)
       ∧ (status = "upcoming" ∨ status = "ongoing" ∨ status = "completed")%string).
Proof.
  intros Hvalid e. unfold Event.validate in Hvalid.
  cbn [Event.isValid] in Hvalid.
  rewrite bool_decide_eq_true, length_zero_iff_nil, !app_nil in Hvalid.
  rewrite !required_string_nil, !positive_number_nil, time_errors_nil,
    date_errors_nil in Hvalid.
  destruct Hvalid
    as (_ & _ & (Hdate & t & Ht & Hrange & Hle) & (time & Htime & Hfmt)
        & Hdur & _ & Hmax & _).
  assert (Hpt : prop e "time" = VStr time) by (rewrite <- Htime; reflexivity).
  assert (Hpd : prop e "date" = VDate (Some t)) by (rewrite <- Ht; reflexivity).
  assert (Hpdur : prop e "duration"
                  = or_default (prop eventData "duration") (VNum 60))
    by reflexivity.
  assert (Hpmax : prop e "maxParticipants"
                  = or_default (prop eventData "maxParticipants") VNull)
    by reflexivity.
  destruct (time_format_parts time Hfmt) as (h & m & Hparts & Hh & Hm).
  assert (Hstart : Event.getDateTime tzOffset Date_parse e
                   = Ret (TimeClip
                            (Some (Day (LocalTime tzOffset t) * msPerDay
                                   + h * msPerHour + m * msPerMinute
                                   - tzOffset)))).
  { unfold Event.getDateTime. rewrite Hpt, Hparts, Hpd.
    cbn -[setHours newDate]. rewrite newDate_valid by done.
    by rewrite setHours_valid. }
  split; [reflexivity|]. split; [reflexivity|]. split; [reflexivity|].
  split; [reflexivity|]. split.
  { exists t, h, m. split; [exact Hpd|]. split; [done|].
    split; [done|]. split; [done|]. cbn zeta. split; [exact Hstart|].
    split.
    - unfold Day, LocalTime, msPerDay, msPerHour, msPerMinute.
      Z.div_mod_to_equations. lia.
    - rewrite startOfToday_value in *.
      destruct (TimeClip (Some (Day (LocalTime tzOffset now) * msPerDay
                                - tzOffset))) as [today|] eqn:Htoday;
        [|done].
      apply TimeClip_Some in Htoday as [[= <-] _].
      cbn [num_lt] in *. apply bool_decide_eq_false in Hle.
      apply bool_decide_eq_false.
      unfold Day, LocalTime, msPerDay, msPerHour, msPerMinute in *.
      Z.div_mod_to_equations. lia. }
  split.
  { intros n. unfold Event.isFull. rewrite Hpmax. unfold or_default.
    destruct Hmax as [Hmax|(k & -> & Hk)]; [|by eexists].
    destruct (prop eventData "maxParticipants") as [| |b|k| |str|t'];
      try discriminate; try (by eexists).
    cbn in Hmax. destruct (String.eqb_spec str ""); [subst|discriminate].
    by eexists. }
  split; [unfold Event.toJSON; rewrite Hpd; by eexists|].
  intros Hne at_time.
  assert (Hend : ∃ en, Event.endOf tzOffset e
                         (TimeClip
                            (Some (Day (LocalTime tzOffset t) * msPerDay
                                   + h * msPerHour + m * msPerMinute
                                   - tzOffset)))
                       = Ret en).
  { apply endOf_returns; rewrite Hpdur; unfold or_default.
    - case_bool_decide; [discriminate|done].
    - case_bool_decide; [right; exists 60; by split|done]. }
  destruct Hend as [en Hend].
  unfold Event.updateStatus. rewrite Hstart. cbn [mbind js_bind].
  rewrite Hend. cbn [mbind js_bind].
  replace (prop e "status") with (VStr "upcoming") by reflexivity.
  rewrite bool_decide_eq_false_2 by discriminate. cbn zeta.
  repeat case_match; eexists; (split; [reflexivity|]); auto.
Qed.

End ValidateAccepts.

Lemma validate_accepts_exactly_witness :
  Event.isValid
    (Event.validate 0 Sample.parse_one_date 100
       {[ "title" := VStr "Meetup"; "description" := VStr "Talks";
          "date" := VStr "1970-01-02"; "time" := VStr "14:30";
          "location" := VStr "Room 1"; "organizerId" := VStr "u-1" ]})
  = true.
Proof.
  apply (proj2 (validate_accepts_exactly 0 Sample.parse_one_date 100
                  {[ "title" := VStr "Meetup"; "description" := VStr "Talks";
                     "date" := VStr "1970-01-02"; "time" := VStr "14:30";
                     "location" := VStr "Room 1";
                     "organizerId" := VStr "u-1" ]})).
  split; [exists "Meetup"%string; split; [vm_compute; reflexivity|discriminate]|].
  split; [exists "Talks"%string; split; [vm_compute; reflexivity|discriminate]|].
  split.
  { split; [reflexivity|]. exists 86400000.
    split; [reflexivity|].
    split; [unfold valid_time, maxTime; lia | reflexivity]. }
  split; [exists "14:30"%string; split; vm_compute; reflexivity|].
  split; [left; vm_compute; reflexivity|].
  split; [exists "Room 1"%string; split; [vm_compute; reflexivity|discriminate]|].
  split; [left; vm_compute; reflexivity|].
  exists "u-1"%string. split; [vm_compute; reflexivity|discriminate].
Defined.

Lemma validated_event_is_well_formed_witness :
  ∃ status,
    Event.updateStatus 0 Sample.parse_one_date 500
      (Event.construct Sample.parse_one_date "e-9" 100
         {[ "title" := VStr "Meetup"; "description" := VStr "Talks";
            "date" := VStr "1970-01-02"; "time" := VStr "14:30";
            "location" := VStr "Room 1"; "organizerId" := VStr "u-1" ]})
    = Ret (<["status" := VStr status]>
             (Event.construct Sample.parse_one_date "e-9" 100
                {[ "title" := VStr "Meetup"; "description" := VStr "Talks";
                   "date" := VStr "1970-01-02"; "time" := VStr "14:30";
                   "location" := VStr "Room 1"; "organizerId" := VStr "u-1" ]}),
           VStr status)
    ∧ (status = "upcoming" ∨ status = "ongoing" ∨ status = "completed")%string.
Proof.
  destruct (validated_event_is_well_formed 0 Sample.parse_one_date
              (λ _, EmptyString) "e-9" 100 100
              {[ "title" := VStr "Meetup"; "description" := VStr "Talks";
                 "date" := VStr "1970-01-02"; "time" := VStr "14:30";
                 "location" := VStr "Room 1"; "organizerId" := VStr "u-1" ]})
    as (_ & _ & _ & _ & _ & _ & _ & Hrun); [vm_compute; reflexivity|].
  apply (Hrun ltac:(vm_compute; discriminate) 500).
Defined.

(** ** The regular expressions of the validators *)

Section RegexFacts.

Lemma matches_nil_nullable (r : regex) (s : list ascii) :
  matches r s → s = [] → nullable r = true.
Proof.
  induction 1 as [|p c Hp|r1 r2 s1 s2 _ IH1 _ IH2|r1 r2 s _ IH|r1 r2 s _ IH
                 |r|r s1 s2 _ _ _ _]; intros Hs; cbn [nullable]; try done.
  - apply app_eq_nil in Hs as [-> ->]. by rewrite IH1, IH2.
  - by rewrite IH.
  - rewrite IH by done. apply orb_true_r.
Qed.

Lemma nullable_matches (r : regex) : nullable r = true → matches r [].
Proof.
  induction r as [| |p|r1 IH1 r2 IH2|r1 IH1 r2 IH2|r IH]; cbn [nullable];
    intros H; try discriminate.
  - constructor.
  - apply andb_true_iff in H as [H1 H2].
    change (@nil ascii) with (@nil ascii ++ []). constructor; auto.
  - apply orb_true_iff in H as [H|H];
      [apply matches_alt_l | apply matches_alt_r]; auto.
  - constructor.
Qed.

Lemma matches_deriv (c : ascii) (r : regex) (s : list ascii) :
  matches (deriv c r) s → matches r (c :: s).
Proof.
  revert s.
  induction r as [| |p|r1 IH1 r2 IH2|r1 IH1 r2 IH2|r IH]; intros s;
    cbn [deriv].
  - inversion 1.
  - inversion 1.
  - destruct (p c) eqn:Hp; inversion 1; subst. by constructor.
  - assert (Hleft : matches (RSeq (deriv c r1) r2) s → matches (RSeq r1 r2) (c :: s)).
    { inversion 1 as [| |? ? s1 s2 H1 H2| | | |]; subst.
      change (c :: s1 ++ s2) with ((c :: s1) ++ s2). constructor; auto. }
    destruct (nullable r1) eqn:Hn; [|done].
    inversion 1 as [| | |? ? ? Hl|? ? ? Hr| |]; subst; [auto|].
    change (c :: s) with ([] ++ c :: s).
    constructor; [by apply nullable_matches | auto].
  - inversion 1; subst; [apply matches_alt_l | apply matches_alt_r]; auto.
  - inversion 1 as [| |? ? s1 s2 H1 H2| | | |]; subst.
    change (c :: s1 ++ s2) with ((c :: s1) ++ s2). constructor; auto.
Qed.

Lemma deriv_matches (r : regex) (s' : list ascii) :
  matches r s' → ∀ c s, s' = c :: s → matches (deriv c r) s.
Proof.
  induction 1 as [|p c0 Hp|r1 r2 s1 s2 H1 IH1 H2 IH2|r1 r2 s0 _ IH
                 |r1 r2 s0 _ IH|r|r s1 s2 H1 IH1 H2 IH2];
    intros c s Hs; cbn [deriv]; try discriminate.
  - injection Hs as -> <-. rewrite Hp. constructor.
  - destruct s1 as [|c1 s1].
    + cbn [app] in Hs. rewrite (matches_nil_nullable r1 [] H1 eq_refl).
      apply matches_alt_r. auto.
    + injection Hs as -> <-.
      assert (matches (RSeq (deriv c r1) r2) (s1 ++ s2))
        by (constructor; auto).
      destruct (nullable r1); [by apply matches_alt_l | done].
  - apply matches_alt_l. auto.
  - apply matches_alt_r. auto.
  - destruct s1 as [|c1 s1].
    + cbn [app] in Hs. apply (IH2 c s Hs).
    + injection Hs as -> <-. constructor; auto.
Qed.

(** The derivative matcher decides the language. *)
Lemma accepts_matches (r : regex) (s : list ascii) :
  accepts r s = true ↔ matches r s.
Proof.
  revert r. induction s as [|c s IH]; intros r; cbn [accepts].
  - split; [apply nullable_matches | intros H; by apply (matches_nil_nullable r [])].
  - rewrite IH. split; [apply matches_deriv | intros H; by apply (deriv_matches r (c :: s))].
Qed.

Lemma matches_class_inv (p : ascii → bool) (s : list ascii) :
  matches (RClass p) s ↔ ∃ c, s = [c] ∧ p c = true.
Proof.
  split.
  - inversion 1; subst. eauto.
  - intros (c & -> & Hp). by constructor.
Qed.

Lemma matches_seq_inv (r1 r2 : regex) (s : list ascii) :
  matches (RSeq r1 r2) s ↔
  ∃ s1 s2, s = s1 ++ s2 ∧ matches r1 s1 ∧ matches r2 s2.
Proof.
  split.
  - inversion 1; subst. eauto.
  - intros (s1 & s2 & -> & H1 & H2). by constructor.
Qed.

Lemma matches_alt_inv (r1 r2 : regex) (s : list ascii) :
  matches (RAlt r1 r2) s ↔ matches r1 s ∨ matches r2 s.
Proof.
  split.
  - inversion 1; subst; auto.
  - intros [H|H]; [by apply matches_alt_l | by apply matches_alt_r].
Qed.

Lemma matches_empty_inv (s : list ascii) : matches REmpty s ↔ s = [].
Proof.
  split; [by inversion 1 | intros ->; constructor].
Qed.

Lemma matches_star_class (p : ascii → bool) (s : list ascii) :
  matches (RStar (RClass p)) s ↔ Forall (λ c, p c = true) s.
Proof.
  split.
  - remember (RStar (RClass p)) as r eqn:Hr. intros H.
    induction H as [| | | | | |r0 s1 s2 H1 _ H2 IH2]; try discriminate.
    + constructor.
    + injection Hr as ->. apply Forall_app. split; [|auto].
      apply matches_class_inv in H1 as (c & -> & Hc). by constructor.
  - induction 1 as [|c s Hc _ IH]; [constructor|].
    change (c :: s) with ([c] ++ s). constructor; [by constructor | done].
Qed.

Lemma matches_plus_class (p : ascii → bool) (s : list ascii) :
  matches (RPlus (RClass p)) s ↔ s ≠ [] ∧ Forall (λ c, p c = true) s.
Proof.
  unfold RPlus. rewrite matches_seq_inv. split.
  - intros (s1 & s2 & -> & H1 & H2).
    apply matches_class_inv in H1 as (c & -> & Hc).
    apply matches_star_class in H2. split; [done | by constructor].
  - intros [Hne H]. destruct H as [|c s Hc H]; [done|].
    exists [c], s. split; [done|]. split; [by constructor|].
    by apply matches_star_class.
Qed.

End RegexFacts.

Section TimeFormat.

Lemma matches_time_regex (l : list ascii) :
  matches time_regex l ↔
  ∃ hours c m1 m2,
    l = hours ++ [c; m1; m2]
    ∧ ((∃ h, hours = [h] ∧ digit_upto 9 h = true)
       ∨ (∃ h1 h2, hours = [h1; h2]
                   ∧ digit_upto 1 h1 = true ∧ digit_upto 9 h2 = true)
       ∨ (∃ h2, hours = ["2"%char; h2] ∧ digit_upto 3 h2 = true))
    ∧ c = ":"%char ∧ digit_upto 5 m1 = true ∧ digit_upto 9 m2 = true.
Proof.
  unfold time_regex, ROpt.
  repeat setoid_rewrite matches_seq_inv.
  repeat setoid_rewrite matches_alt_inv.
  repeat setoid_rewrite matches_seq_inv.
  repeat setoid_rewrite matches_alt_inv.
  repeat setoid_rewrite matches_class_inv.
  setoid_rewrite matches_empty_inv.
  unfold is_char. split.
  - intros (hours & rest & -> & Hh & s1 & s2 & -> & (c & -> & Hc)
            & s3 & s4 & -> & (m1 & -> & Hm1) & (m2 & -> & Hm2)).
    apply Ascii.eqb_eq in Hc.
    exists hours, c, m1, m2. split; [done|]. split; [|done].
    destruct Hh as [(o & d & -> & [->|(h1 & -> & H1)] & (h & -> & H9))
                   |(a & b & -> & (h1 & -> & H1) & (h2 & -> & H2))].
    + left. eauto.
    + right. left. exists h1, h. eauto.
    + apply Ascii.eqb_eq in H1 as ->. right. right. eauto.
  - intros (hours & c & m1 & m2 & -> & Hh & -> & Hm1 & Hm2).
    exists hours, [":"%char; m1; m2]. split; [done|]. split.
    + destruct Hh as [(h & -> & H9)|[(h1 & h2 & -> & H1 & H2)|(h2 & -> & H3)]].
      * left. exists [], [h]. split; [done|]. split; [by left | eauto].
      * left. exists [h1], [h2]. split; [done|]. split; [right|]; eauto.
      * right. exists ["2"%char], [h2]. split; [done|]. split; eauto.
    + exists [":"%char], [m1; m2]. split; [done|]. split; [eauto|].
      exists [m1], [m2]. split; [done|]. split; eauto.
Qed.

(** X16.  The regular expression that [Event.validate] tests the time with
    accepts exactly the strings of one or two digits of an hour (a leading 0
    or 1 before any digit, or 2 before 0 to 3), a colon and two digits of a
    minute from 00 to 59, which is the test [time_format] runs character by
    character; and every string it accepts splits at the colon into two
    numbers, an hour from 0 to 23 and a minute from 0 to 59, as
    [getDateTime] reads them. *)
Theorem time_format_is_regex (time : string) :
  Event.time_format time = regex_test time_regex time
  ∧ (regex_test time_regex time = true →
     ∃ h m, map_Number (split_colon time) = Ret [Some h; Some m]
            ∧ 0 ≤ h ≤ 23 ∧ 0 ≤ m ≤ 59).
Proof.
  assert (Heq : Event.time_format time = regex_test time_regex time).
  { apply eq_true_iff_eq. unfold regex_test.
    rewrite accepts_matches, matches_time_regex. split.
    - destruct time as [|a [|b [|c [|d [|e [|x r]]]]]]; try discriminate;
        cbn [Event.time_format list_ascii_of_string]; intros H.
      + apply andb_true_iff in H as [H Hd]. apply andb_true_iff in H as [H Hc].
        apply andb_true_iff in H as [Ha Hb]. apply Ascii.eqb_eq in Hb as ->.
        exists [a], ":"%char, c, d. split; [done|]. split; [|done].
        left. eauto.
      + apply andb_true_iff in H as [H He]. apply andb_true_iff in H as [H Hd].
        apply andb_true_iff in H as [Hab Hc]. apply Ascii.eqb_eq in Hc as ->.
        exists [a; b], ":"%char, d, e. split; [done|]. split; [|done].
        apply orb_true_iff in Hab as [Hab|Hab];
          apply andb_true_iff in Hab as [Ha Hb].
        * right. left. eauto.
        * apply Ascii.eqb_eq in Ha as ->. right. right. eauto.
    - intros (hours & c & m1 & m2 & Hl & Hh & -> & Hm1 & Hm2).
      rewrite <- (string_of_list_ascii_of_string time), Hl.
      destruct Hh as [(h & -> & H9)|[(h1 & h2 & -> & H1 & H2)|(h2 & -> & H3)]];
        cbn [app string_of_list_ascii Event.time_format].
      + by rewrite H9, Hm1, Hm2.
      + by rewrite H1, H2, Hm1, Hm2.
      + rewrite H3, Hm1, Hm2. change (Ascii.eqb "2" "2") with true.
        change (Ascii.eqb ":" ":") with true. by rewrite orb_true_r. }
  split; [exact Heq|]. rewrite <- Heq. apply time_format_parts.
Qed.

End TimeFormat.

(** ** The User model *)

Section UserFacts.

(** A string that is not empty and holds neither white space nor [@]. *)
Local Abbreviation plain str :=
  (str%string ≠ EmptyString
   ∧ Forall (λ c, not_space_or_at c = true) (list_ascii_of_string str)).

Local Abbreviation filled v := (∃ str : string, v = VStr str ∧ str ≠ EmptyString).

Lemma list_ascii_of_string_app (a b : string) :
  list_ascii_of_string (a ++ b)
  = list_ascii_of_string a ++ list_ascii_of_string b.
Proof.
  induction a as [|c a IH]; [done|].
  change (String c a +:+ b) with (String c (a +:+ b)).
  cbn [list_ascii_of_string app]. by rewrite IH.
Qed.

Lemma string_of_list_ascii_app (a b : list ascii) :
  string_of_list_ascii (a ++ b)
  = (string_of_list_ascii a ++ string_of_list_ascii b)%string.
Proof.
  induction a as [|c a IH]; [done|].
  cbn [string_of_list_ascii app]. by rewrite IH.
Qed.

Lemma plain_of_list (l : list ascii) :
  l ≠ [] → Forall (λ c, not_space_or_at c = true) l →
  plain (string_of_list_ascii l).
Proof.
  intros Hne Hall. rewrite list_ascii_of_string_of_list_ascii.
  split; [|done]. by destruct l.
Qed.

Lemma plain_to_list (str : string) :
  plain str →
  list_ascii_of_string str ≠ []
  ∧ Forall (λ c, not_space_or_at c = true) (list_ascii_of_string str).
Proof.
  intros [Hne Hall]. split; [|done]. by destruct str.
Qed.

(** The language of the e-mail expression. *)
Lemma email_regex_shape (email : string) :
  regex_test email_regex email = true ↔
  ∃ local domain top,
    email = (local ++ "@" ++ domain ++ "." ++ top)%string
    ∧ plain local ∧ plain domain ∧ plain top.
Proof.
  unfold regex_test, email_regex. rewrite accepts_matches.
  remember (RPlus (RClass not_space_or_at)) as part eqn:Hpart.
  repeat setoid_rewrite matches_seq_inv.
  repeat setoid_rewrite matches_class_inv.
  subst part. repeat setoid_rewrite matches_plus_class.
  unfold is_char. split.
  - intros (l & r1 & Hl & [Hl1 Hl2] & a & r2 & -> & (c1 & -> & Hc1)
            & d & r3 & -> & [Hd1 Hd2] & b & t & -> & (c2 & -> & Hc2)
            & [Ht1 Ht2]).
    apply Ascii.eqb_eq in Hc1 as ->. apply Ascii.eqb_eq in Hc2 as ->.
    exists (string_of_list_ascii l), (string_of_list_ascii d),
      (string_of_list_ascii t).
    split; [|by auto using plain_of_list].
    rewrite <- (string_of_list_ascii_of_string email), Hl.
    by rewrite !string_of_list_ascii_app.
  - intros (local & domain & top & -> & Hl & Hd & Ht).
    apply plain_to_list in Hl as [Hl1 Hl2].
    apply plain_to_list in Hd as [Hd1 Hd2].
    apply plain_to_list in Ht as [Ht1 Ht2].
    rewrite !list_ascii_of_string_app.
    exists (list_ascii_of_string local),
      (list_ascii_of_string "@" ++ list_ascii_of_string domain
       ++ list_ascii_of_string "." ++ list_ascii_of_string top).
    split; [done|]. split; [done|].
    exists ["@"%char],
      (list_ascii_of_string domain
       ++ list_ascii_of_string "." ++ list_ascii_of_string top).
    split; [done|]. split; [by exists "@"%char|].
    exists (list_ascii_of_string domain),
      (list_ascii_of_string "." ++ list_ascii_of_string top).
    split; [done|]. split; [done|].
    exists ["."%char], (list_ascii_of_string top).
    split; [done|]. split; [by exists "."%char | done].
Qed.

Lemma email_errors_nil (v : val) :
  User.email_errors v = [] ↔
  ∃ email, v = VStr email ∧ regex_test email_regex email = true.
Proof.
  unfold User.email_errors, Event.is_string. split.
  - destruct v as [| |b|n| |str|t]; cbn -[regex_test]; rewrite ?orb_true_r;
      try discriminate.
    cbn -[regex_test]. destruct (String.eqb_spec str ""); [discriminate|]. cbn -[regex_test].
    destruct (regex_test email_regex str) eqn:Hf; [|discriminate].
    intros _. by exists str.
  - intros (email & -> & Hf). cbn -[regex_test].
    destruct (String.eqb_spec email "") as [->|]; [discriminate|].
    cbn -[regex_test]. by rewrite Hf.
Qed.

Lemma password_errors_nil (v : val) :
  User.password_errors v = [] ↔
  ∃ password, v = VStr password ∧ (6 ≤ String.length password)%nat.
Proof.
  unfold User.password_errors, Event.is_string. split.
  - destruct v as [| |b|n| |str|t]; cbn; rewrite ?orb_true_r;
      try discriminate.
    cbn. destruct (String.eqb_spec str ""); [discriminate|]. cbn.
    case_bool_decide; [discriminate|]. intros _. exists str.
    split; [done|lia].
  - intros (password & -> & Hlen). cbn.
    destruct (String.eqb_spec password "") as [->|]; [cbn in Hlen; lia|].
    cbn. by rewrite bool_decide_eq_false_2 by lia.
Qed.

Lemma role_errors_nil (v : val) :
  User.role_errors v = [] ↔
  truthy v = false ∨ v = VStr "organizer" ∨ v = VStr "attendee".
Proof.
  unfold User.role_errors. split.
  - destruct (truthy v); [|by left]. cbn [andb].
    case_bool_decide as Hin; [|discriminate]. intros _. right.
    set_solver.
  - intros [->|H]; [done|].
    rewrite bool_decide_eq_true_2 by set_solver.
    by rewrite andb_false_r.
Qed.

(** X17.  [User.validate] accepts exactly the data with an e-mail that
    is a string of the form local@domain.top, whose three parts are not
    empty and hold neither white space nor an at sign, a password that
    is a string of six characters or more, a first and a last name that
    are non-empty strings, and a role that is falsy, ["organizer"] or
    ["attendee"]. *)
Theorem user_validate_accepts_exactly (userData : obj) :
  Event.isValid (User.validate userData) = true ↔
    (∃ local domain top,
        prop userData "email"
        = VStr (local ++ "@" ++ domain ++ "." ++ top)%string
        ∧ plain local ∧ plain domain ∧ plain top)
    ∧ (∃ password, prop userData "password" = VStr password
                   ∧ (6 ≤ String.length password)%nat)
    ∧ filled (prop userData "firstName")
    ∧ filled (prop userData "lastName")
    ∧ (truthy (prop userData "role") = false
       ∨ prop userData "role" = VStr "organizer"
       ∨ prop userData "role" = VStr "attendee").
Proof.
  unfold User.validate. cbn [Event.isValid].
  rewrite bool_decide_eq_true, length_zero_iff_nil.
  rewrite !app_nil.
  rewrite email_errors_nil, password_errors_nil, !required_string_nil,
    role_errors_nil.
  setoid_rewrite email_regex_shape.
  split.
  - intros ((email & He & l & d & t & -> & H) & Hrest).
    split; [|done]. by exists l, d, t.
  - intros ((l & d & t & He & H) & Hrest).
    split; [|done]. exists (l ++ "@" ++ d ++ "." ++ t)%string.
    split; [done|]. by exists l, d, t.
Qed.

(** X18.  For data that [User.validate] accepts, the user built from it is
    an organizer or an attendee, never both, and an attendee when no role
    was given; it is neither exactly when the data carried a role that is
    falsy without being [undefined] ([null], the empty string, 0, [false],
    NaN), which the validation lets through and the default of the
    constructor does not replace. *)
Theorem validated_role (uuid : string) (now : Z) (userData : obj) :
  Event.isValid (User.validate userData) = true →
  let user := User.construct uuid now userData in
  User.isOrganizer user && User.isAttendee user = false
  ∧ (prop userData "role" = VUndef → User.isAttendee user = true)
  ∧ (User.isOrganizer user || User.isAttendee user = false
     ↔ prop userData "role" ≠ VUndef
       ∧ truthy (prop userData "role") = false).
Proof.
  intros Hvalid user. unfold User.validate in Hvalid.
  cbn [Event.isValid] in Hvalid.
  rewrite bool_decide_eq_true, length_zero_iff_nil, !app_nil in Hvalid.
  destruct Hvalid as (_ & _ & _ & _ & Hrole).
  apply role_errors_nil in Hrole.
  assert (Hp : prop user "role"
               = or_default (prop userData "role") (VStr "attendee"))
    by reflexivity.
  unfold User.isOrganizer, User.isAttendee. rewrite Hp. unfold or_default.
  clear Hp user. remember (prop userData "role") as role eqn:Heq.
  clear Heq.
  assert (Hcases : role = VStr "organizer" ∨ role = VStr "attendee"
                   ∨ role = VUndef
                   ∨ (role ≠ VUndef ∧ truthy role = false
                      ∧ role ≠ VStr "organizer" ∧ role ≠ VStr "attendee")).
  { destruct Hrole as [Hrole|[->| ->]]; [|by auto..].
    destruct role as [| |b|n| |str|t]; try discriminate; auto.
    - do 3 right. by repeat split.
    - do 3 right. by repeat split.
    - do 3 right. by repeat split.
    - do 3 right. by repeat split.
    - do 3 right. cbn in Hrole.
      destruct (String.eqb_spec str ""); [subst|discriminate].
      by repeat split. }
  destruct Hcases as [->|[->|[->|(Hu & Hf & Ho & Ha)]]].
  - split; [done|]. split; [discriminate|]. split; [discriminate|].
    intros [_ ?]. discriminate.
  - split; [done|]. split; [discriminate|]. split; [discriminate|].
    intros [_ ?]. discriminate.
  - split; [done|]. split; [done|]. split; [discriminate|].
    by intros [? _].
  - rewrite (bool_decide_eq_false_2 (role = VUndef)) by done.
    rewrite !bool_decide_eq_false_2 by done.
    split; [done|]. split; [done|]. done.
Qed.

(** X19.  For data that [User.validate] accepts, the user built from it
    carries the given uuid and e-mail and is active; [getFullName] returns
    the two names, neither empty, around one space; [toJSON] has no
    password and every other property of the user unchanged. *)
Theorem validated_user_is_well_formed (uuid : string) (now : Z)
    (userData : obj) :
  Event.isValid (User.validate userData) = true →
  let user := User.construct uuid now userData in
  prop user "id" = VStr uuid
  ∧ prop user "email" = prop userData "email"
  ∧ prop user "isActive" = VBool true
  ∧ (∃ first last,
       prop userData "firstName" = VStr first ∧ first ≠ EmptyString
       ∧ prop userData "lastName" = VStr last ∧ last ≠ EmptyString
       ∧ User.getFullName user = Ret (first ++ " " ++ last)%string)
  ∧ User.toJSON user !! "password" = None
  ∧ (∃ password, user !! "password" = Some (VStr password)
                 ∧ (6 ≤ String.length password)%nat)
  ∧ (∀ key, key ≠ "password" → User.toJSON user !! key = user !! key).
Proof.
  intros Hvalid user. unfold User.validate in Hvalid.
  cbn [Event.isValid] in Hvalid.
  rewrite bool_decide_eq_true, length_zero_iff_nil, !app_nil in Hvalid.
  rewrite password_errors_nil, !required_string_nil in Hvalid.
  destruct Hvalid as (_ & (password & Hpw & Hlen) & (first & Hf & Hfne)
                      & (last & Hl & Hlne) & _).
  split; [reflexivity|]. split; [reflexivity|]. split; [reflexivity|].
  split.
  { exists first, last. repeat (split; [done|]).
    unfold User.getFullName.
    replace (prop user "firstName") with (prop userData "firstName")
      by reflexivity.
    replace (prop user "lastName") with (prop userData "lastName")
      by reflexivity.
    by rewrite Hf, Hl. }
  split; [apply lookup_delete_eq|]. split.
  { exists password. split; [|done].
    transitivity (Some (prop userData "password")); [reflexivity|].
    by rewrite Hpw. }
  intros key Hkey. unfold User.toJSON. by rewrite lookup_delete_ne.
Qed.

End UserFacts.

Lemma validated_role_witness :
  Event.isValid (User.validate Sample.signup) = true
  ∧ User.isAttendee (User.construct "u-3" 0 Sample.signup) = true.
Proof.
  assert (Hvalid : Event.isValid (User.validate Sample.signup) = true)
    by (vm_compute; reflexivity).
  split; [exact Hvalid|].
  destruct (validated_role "u-3" 0 Sample.signup Hvalid) as (_ & Hattendee & _).
  apply Hattendee. vm_compute; reflexivity.
Defined.

Lemma validated_user_is_well_formed_witness :
  Event.isValid (User.validate Sample.signup) = true
  ∧ User.toJSON (User.construct "u-3" 0 Sample.signup) !! "password" = None.
Proof.
  assert (Hvalid : Event.isValid (User.validate Sample.signup) = true)
    by (vm_compute; reflexivity).
  split; [exact Hvalid|].
  destruct (validated_user_is_well_formed "u-3" 0 Sample.signup Hvalid)
    as (_ & _ & _ & _ & Hpassword & _).
  exact Hpassword.
Defined.

(** * Properties of the handlers of the event routes *)

Section ControllerFacts.
Import Store.
Variable tzOffset : Z.
Variable Date_parse : string → num.
Variable Date_toISOString : Z → string.

Local Abbreviation registerForEvent :=
  (EventController.registerForEvent tzOffset Date_parse Date_toISOString).
Local Abbreviation unregisterFromEvent :=
  (EventController.unregisterFromEvent tzOffset Date_parse Date_toISOString).

Lemma caught_Ret {A : Type} (step : js A) (s : MemoryStore)
    (rest : A → js (EventController.response * MemoryStore))
    (out : EventController.response * MemoryStore) :
  EventController.caught step s rest = Ret out →
  (step = Throw ∧ out = (EventController.Failure, s))
  ∨ ∃ a, step = Ret a ∧ rest a = Ret out.
Proof.
  unfold EventController.caught. destruct step as [a| |]; [|intros [= <-]|done].
  - right. by exists a.
  - by left.
Qed.

Lemma participants_written_back id event s E :
  participants (EventController.written_back id event s) E = participants s E.
Proof. reflexivity. Qed.

Lemma registrations_written_back id event s U :
  registrations (EventController.written_back id event s) U = registrations s U.
Proof. reflexivity. Qed.

(** X20: when [registerForEvent] answers 201, the user is a stored user who
    was not a participant of the event; afterwards the user is among its
    participants and the event among the registrations of the user, no
    other participant set or registration set has changed, and the count
    sent with the response is the registration count of the event, one
    more than before.  The event was stored and active, its status after
    the update is not ['completed'], it was not full at the count before,
    and only its record has changed in the store. *)
Theorem registerForEvent_success (now : Z) (id : string) (user : obj)
    (s s' : MemoryStore) (json : obj) (n : nat) :
  registerForEvent now id user s = Ret (EventController.Registered json n, s') →
  let U := prop user "id" in
  let E := VStr id in
  is_Some (users s !! U)
  ∧ (U ∉ participants s E)
  ∧ participants s' E = {[U]} ∪ participants s E
  ∧ registrations s' U = {[E]} ∪ registrations s U
  ∧ (∀ E', E' ≠ E → participants s' E' = participants s E')
  ∧ (∀ U', U' ≠ U → registrations s' U' = registrations s U')
  ∧ n = getEventRegistrationCount E s'
  ∧ n = S (getEventRegistrationCount E s)
  ∧ users s' = users s
  ∧ ∃ event event1,
      events s !! E = Some event
      ∧ events s' = <[E := event1]> (events s)
      ∧ truthy (prop event "isActive") = true
      ∧ prop event1 "status" ≠ VStr "completed"
      ∧ Event.isFull (Z.of_nat (getEventRegistrationCount E s)) event1 = Ret false
      ∧ Event.toJSON Date_toISOString event1 = Ret json.
Proof.
  intros H U E. unfold EventController.registerForEvent, getEventById in H.
  fold E U in H.
  destruct (events s !! E) as [event|] eqn:He; [|done].
  apply caught_Ret in H as [[_ [=]]|(private & Hprivate & H)].
  destruct private; [done|].
  destruct (truthy (prop event "isActive")) eqn:Hactive; [|done].
  cbn [negb] in H.
  apply caught_Ret in H as [[_ [=]]|([event1 status] & Hupd & H)].
  cbn [fst] in H.
  case_bool_decide as Hcompleted; [done|].
  destruct (isUserRegisteredForEvent U E _) eqn:Hreg; [done|].
  apply caught_Ret in H as [[_ [=]]|(full & Hfull & H)].
  destruct full; [done|].
  set (s1 := EventController.written_back E event1 s) in *.
  apply isUserRegisteredForEvent_false in Hreg.
  assert (Hev1 : is_Some (events s1 !! E)).
  { exists event1. apply lookup_insert_eq. }
  destruct (users s !! U) as [stored|] eqn:Hu.
  2:{ rewrite (registerUserForEvent_refused U E s1) in H by (by left).
      done. }
  assert (Hus1 : is_Some (users s1 !! U)) by (exists stored; exact Hu).
  pose proof (participants_register U E s1 E Hus1 Hev1 Hreg) as HpE.
  pose proof (registrations_register U E s1 U Hus1 Hev1 Hreg) as HrU.
  pose proof (λ E', participants_register U E s1 E' Hus1 Hev1 Hreg) as Hp.
  pose proof (λ U', registrations_register U E s1 U' Hus1 Hev1 Hreg) as Hr.
  rewrite decide_True in HpE by done. rewrite decide_True in HrU by done.
  pose proof (registerUserForEvent_accepted U E s1 Hus1 Hev1 Hreg) as Hacc.
  assert (Hok : (registerUserForEvent U E s1).1 = true) by (by rewrite Hacc).
  rewrite Hok in H. cbn [negb] in H.
  apply caught_Ret in H as [[_ [=]]|(json' & Hjson & [= -> <- <-])].
  split; [done|]. split; [done|]. split; [exact HpE|]. split; [exact HrU|].
  split; [intros E' HE'; rewrite Hp; by rewrite decide_False|].
  split; [intros U' HU'; rewrite Hr; by rewrite decide_False|].
  rewrite !getEventRegistrationCount_participants in *.
  rewrite HpE. change (participants s1 E) with (participants s E) in *.
  rewrite size_union, size_singleton by set_solver.
  split; [lia|]. split; [lia|]. rewrite Hacc. cbn [snd users events].
  split; [done|].
  exists event, event1. done.
Qed.

Local Abbreviation same_registrations s s' :=
  (eventRegistrations s' = eventRegistrations s
   ∧ userRegistrations s' = userRegistrations s).

(** X21: every other answer of [registerForEvent] names its reason, and a
    refusal leaves both registration indexes as they were: 404 when the
    event is not stored, 403 when it is not public and the user is not its
    organizer, 400 when it is not active, 400 when its status after the
    update is ['completed'], 409 when the user is a participant already,
    400 with the limit and the count when it is full, 500 with
    REGISTRATION_FAILED when the user is not stored.  The answer 500 of
    the [catch] clause comes either with the indexes unchanged or, when
    [toJSON] raises, after the registration is stored.  The users are
    never touched. *)
Theorem registerForEvent_refusals (now : Z) (id : string) (user : obj)
    (s s' : MemoryStore) (reply : EventController.response) :
  registerForEvent now id user s = Ret (reply, s') →
  let U := prop user "id" in
  let E := VStr id in
  users s' = users s
  ∧ match reply with
    | EventController.Refused status code =>
        same_registrations s s'
        ∧ ((status = 404 ∧ code = "EVENT_NOT_FOUND"%string
            ∧ events s !! E = None)
           ∨ ∃ event, events s !! E = Some event
              ∧ ((status = 403 ∧ code = "PRIVATE_EVENT"%string
                  ∧ truthy (prop event "isPublic") = false
                  ∧ EventController.strict_equal
                      (prop event "organizerId") U = Ret false)
                 ∨ (status = 400 ∧ code = "EVENT_INACTIVE"%string
                    ∧ truthy (prop event "isActive") = false)
                 ∨ (status = 400 ∧ code = "EVENT_COMPLETED"%string
                    ∧ ∃ event1, events s' !! E = Some event1
                                ∧ prop event1 "status" = VStr "completed")
                 ∨ (status = 409 ∧ code = "ALREADY_REGISTERED"%string
                    ∧ U ∈ participants s E)
                 ∨ (status = 500 ∧ code = "REGISTRATION_FAILED"%string
                    ∧ users s !! U = None)))
    | EventController.EventFull maxParticipants currentRegistrations =>
        same_registrations s s'
        ∧ currentRegistrations = getEventRegistrationCount E s
        ∧ (U ∉ participants s E)
        ∧ ∃ event1, events s' !! E = Some event1
                    ∧ prop event1 "maxParticipants" = maxParticipants
                    ∧ Event.isFull (Z.of_nat currentRegistrations) event1
                      = Ret true
    | EventController.Failure =>
        same_registrations s s'
        ∨ (U ∈ participants s' E ∧ (U ∉ participants s E)
           ∧ ∃ event1, events s' !! E = Some event1
                       ∧ Event.toJSON Date_toISOString event1 = Throw)
    | EventController.Registered _ _ => U ∈ participants s' E
    | _ => False
    end.
Proof.
  intros H U E. unfold EventController.registerForEvent, getEventById in H.
  fold E U in H.
  destruct (events s !! E) as [event|] eqn:He.
  2:{ injection H as <- <-. split; [done|]. split; [done|]. by left. }
  apply caught_Ret in H as [[_ [= -> ->]]|(private & Hprivate & H)];
    [by split; [|left]|].
  destruct private.
  { injection H as <- <-. split; [done|]. split; [done|]. right.
    exists event. split; [done|]. left.
    destruct (truthy (prop event "isPublic")); [done|].
    destruct (EventController.strict_equal _ _) as [[]| |]; try done. }
  destruct (truthy (prop event "isActive")) eqn:Hactive; cbn [negb] in H.
  2:{ injection H as <- <-. split; [done|]. split; [done|]. right.
      exists event. split; [done|]. right. left. done. }
  apply caught_Ret in H as [[_ [= -> ->]]|([event1 status] & Hupd & H)];
    [by split; [|left]|].
  cbn [fst] in H.
  set (s1 := EventController.written_back E event1 s) in *.
  assert (Hev1 : events s1 !! E = Some event1) by apply lookup_insert_eq.
  case_bool_decide as Hcompleted.
  { injection H as <- <-. split; [done|]. split; [done|]. right.
    exists event. split; [done|]. do 2 right. left.
    split; [done|]. split; [done|]. by exists event1. }
  destruct (isUserRegisteredForEvent U E s1) eqn:Hreg.
  { injection H as <- <-. split; [done|]. split; [done|]. right.
    exists event. split; [done|]. do 3 right. left.
    split; [done|]. split; [done|].
    by apply isUserRegisteredForEvent_participants in Hreg. }
  apply isUserRegisteredForEvent_false in Hreg.
  apply caught_Ret in H as [[_ [= -> ->]]|(full & Hfull & H)];
    [by split; [|left]|].
  destruct full.
  { injection H as <- <-. split; [done|]. split; [done|].
    split; [done|]. split; [done|]. by exists event1. }
  destruct (users s !! U) as [stored|] eqn:Hu.
  2:{ rewrite (registerUserForEvent_refused U E s1) in H by (by left).
      injection H as <- <-. split; [done|]. split; [done|]. right.
      exists event. split; [done|]. do 4 right. done. }
  assert (Hus1 : is_Some (users s1 !! U)) by (exists stored; exact Hu).
  pose proof (participants_register U E s1 E Hus1 (mk_is_Some _ _ Hev1) Hreg)
    as HpE.
  rewrite decide_True in HpE by done.
  pose proof (registerUserForEvent_accepted U E s1 Hus1
                (mk_is_Some _ _ Hev1) Hreg) as Hacc.
  assert (Hok : (registerUserForEvent U E s1).1 = true) by (by rewrite Hacc).
  rewrite Hok in H. cbn [negb] in H.
  assert (Hin : U ∈ participants (registerUserForEvent U E s1).2 E)
    by (rewrite HpE; set_solver).
  assert (Husers : users (registerUserForEvent U E s1).2 = users s)
    by (by rewrite Hacc).
  apply caught_Ret in H as [[Hjson [= -> ->]]|(json & Hjson & [= <- <-])].
  - split; [done|]. right. split; [done|]. split; [done|].
    exists event1. split; [|done]. by rewrite Hacc.
  - split; [done|]. done.
Qed.


Local Abbreviation createEvent :=
  (EventController.createEvent tzOffset Date_parse Date_toISOString).
Local Abbreviation updateEvent :=
  (EventController.updateEvent tzOffset Date_parse Date_toISOString).
Local Abbreviation serve :=
  (EventController.serve tzOffset Date_parse Date_toISOString).
Local Abbreviation serve_all :=
  (EventController.serve_all tzOffset Date_parse Date_toISOString).

(** What [registerForEvent] does to the store, whatever it answers. *)
Lemma registerForEvent_effect (now : Z) (id : string) (user : obj)
    (s s' : MemoryStore) (reply : EventController.response) :
  registerForEvent now id user s = Ret (reply, s') →
  let U := prop user "id" in
  let E := VStr id in
  (s' = s ∧ ∀ json n, reply ≠ EventController.Registered json n)
  ∨ ∃ event event1 status,
      events s !! E = Some event
      ∧ Event.updateStatus tzOffset Date_parse now event = Ret (event1, status)
      ∧ ((s' = EventController.written_back E event1 s
          ∧ ∀ json n, reply ≠ EventController.Registered json n)
         ∨ (s' = (registerUserForEvent U E
                    (EventController.written_back E event1 s)).2
            ∧ is_Some (users s !! U)
            ∧ (U ∉ participants s E)
            ∧ Event.isFull (Z.of_nat (getEventRegistrationCount E s)) event1
              = Ret false
            ∧ (reply = EventController.Failure
               ∨ ∃ json n, reply = EventController.Registered json n))).
Proof.
  intros H U E. unfold EventController.registerForEvent, getEventById in H.
  fold E U in H.
  destruct (events s !! E) as [event|] eqn:He; [|left; split; congruence].
  apply caught_Ret in H as [[_ [= -> ->]]|(private & Hprivate & H)];
    [by left|].
  destruct private; [left; split; congruence|].
  destruct (truthy (prop event "isActive")) eqn:Hactive; cbn [negb] in H;
    [|left; split; congruence].
  apply caught_Ret in H as [[_ [= -> ->]]|([event1 status] & Hupd & H)];
    [by left|].
  cbn [fst] in H. right. exists event, event1, status.
  split; [done|]. split; [done|].
  set (s1 := EventController.written_back E event1 s) in *.
  assert (Hev1 : events s1 !! E = Some event1) by apply lookup_insert_eq.
  case_bool_decide as Hcompleted; [left; split; congruence|].
  destruct (isUserRegisteredForEvent U E s1) eqn:Hreg; [left; split; congruence|].
  apply isUserRegisteredForEvent_false in Hreg.
  apply caught_Ret in H as [[_ [= -> ->]]|(full & Hfull & H)]; [by left|].
  destruct full; [left; split; congruence|].
  destruct (users s !! U) as [stored|] eqn:Hu.
  2:{ rewrite (registerUserForEvent_refused U E s1) in H by (by left).
      left. cbn in H. split; congruence. }
  assert (Hus1 : is_Some (users s1 !! U)) by (exists stored; exact Hu).
  pose proof (registerUserForEvent_accepted U E s1 Hus1
                (mk_is_Some _ _ Hev1) Hreg) as Hacc.
  assert (Hok : (registerUserForEvent U E s1).1 = true) by (by rewrite Hacc).
  rewrite Hok in H. cbn [negb] in H. right.
  apply caught_Ret in H as [[Hjson [= -> ->]]|(json & Hjson & [= <- <-])].
  - repeat (split; [done|]). by left.
  - repeat (split; [done|]). right. eauto.
Qed.

(** What [unregisterFromEvent] does to the store, whatever it answers. *)
Lemma unregisterFromEvent_effect (now : Z) (id : string) (user : obj)
    (s s' : MemoryStore) (reply : EventController.response) :
  unregisterFromEvent now id user s = Ret (reply, s') →
  let U := prop user "id" in
  let E := VStr id in
  (s' = s ∧ ∀ json, reply ≠ EventController.Unregistered json)
  ∨ ∃ event event1 status,
      events s !! E = Some event
      ∧ U ∈ participants s E
      ∧ Event.updateStatus tzOffset Date_parse now event = Ret (event1, status)
      ∧ ((s' = EventController.written_back E event1 s
          ∧ ∀ json, reply ≠ EventController.Unregistered json)
         ∨ (s' = (unregisterUserFromEvent U E
                    (EventController.written_back E event1 s)).2
            ∧ prop event1 "status" ≠ VStr "ongoing"
            ∧ prop event1 "status" ≠ VStr "completed"
            ∧ (reply = EventController.Failure
               ∨ ∃ json, reply = EventController.Unregistered json))).
Proof.
  intros H U E. unfold EventController.unregisterFromEvent, getEventById in H.
  fold E U in H.
  destruct (events s !! E) as [event|] eqn:He; [|left; split; congruence].
  destruct (isUserRegisteredForEvent U E s) eqn:Hreg; cbn [negb] in H;
    [|left; split; congruence].
  apply isUserRegisteredForEvent_participants in Hreg.
  apply caught_Ret in H as [[_ [= -> ->]]|([event1 status] & Hupd & H)];
    [by left|].
  cbn [fst] in H. right. exists event, event1, status.
  repeat (split; [done|]).
  destruct (bool_decide (prop event1 "status" = VStr "ongoing")) eqn:Hon;
    [left; cbn in H; split; congruence|].
  destruct (bool_decide (prop event1 "status" = VStr "completed")) eqn:Hco;
    [left; cbn in H; split; congruence|].
  apply bool_decide_eq_false in Hon, Hco. cbn [orb] in H. right.
  apply caught_Ret in H as [[Hjson [= -> ->]]|(json & Hjson & [= <- <-])].
  - repeat (split; [done|]). by left.
  - repeat (split; [done|]). right. eauto.
Qed.


Local Abbreviation deleteEvent := EventController.deleteEvent.

Lemma createEvent_effect (uuid : string) (now created : Z) (body user : obj)
    (s s' : MemoryStore) (reply : EventController.response) :
  createEvent uuid now created body user s = Ret (reply, s') →
  let eventData := <["organizerId" := prop user "id"]> body in
  let event := Event.construct Date_parse uuid created eventData in
  (s' = s ∧ ∀ json, reply ≠ EventController.Created json)
  ∨ (User.isOrganizer user = true
     ∧ Event.isValid (Event.validate tzOffset Date_parse now eventData) = true
     ∧ s' = (Store.createEvent event s).2
     ∧ ∃ json, reply = EventController.Created json
               ∧ Event.toJSON Date_toISOString event = Ret json).
Proof.
  intros H eventData event. unfold EventController.createEvent in H.
  fold eventData in H. fold event in H.
  destruct (User.isOrganizer user); cbn [negb] in H;
    [|left; split; congruence].
  destruct (Event.isValid (Event.validate tzOffset Date_parse now eventData))
    eqn:Hvalid; cbn [negb] in H; [|left; split; congruence].
  right. split; [done|]. split; [done|].
  assert (Hdate : ∃ t, prop event "date" = VDate (Some t)).
  { unfold Event.validate in Hvalid. cbn [Event.isValid] in Hvalid.
    rewrite bool_decide_eq_true, length_zero_iff_nil, !app_nil in Hvalid.
    destruct Hvalid as (_ & _ & Hdate & _).
    apply date_errors_nil in Hdate as (_ & t & Ht & _).
    exists t. rewrite <- Ht. reflexivity. }
  destruct Hdate as [t Ht].
  unfold Event.toJSON in H. rewrite Ht in H. cbn [EventController.caught] in H.
  injection H as <- <-. split; [done|]. eexists. split; [done|].
  unfold Event.toJSON. by rewrite Ht.
Qed.

Lemma deleteEvent_effect (id : string) (user : obj) (s s' : MemoryStore)
    (reply : EventController.response) :
  deleteEvent id user s = Ret (reply, s') →
  let E := VStr id in
  (s' = s ∧ ∀ n, reply ≠ EventController.Deleted n)
  ∨ ∃ event,
      events s !! E = Some event
      ∧ EventController.strict_equal (prop event "organizerId")
          (prop user "id") = Ret true
      ∧ s' = (Store.deleteEvent E s).2
      ∧ reply = EventController.Deleted (length (getEventRegistrations E s)).
Proof.
  intros H E. unfold EventController.deleteEvent, getEventById in H.
  fold E in H.
  destruct (events s !! E) as [event|] eqn:He; [|left; split; congruence].
  apply caught_Ret in H as [[_ [= -> ->]]|(own & Hown & H)];
    [by left|].
  destruct own; cbn [negb] in H; [|left; split; congruence].
  injection H as <- <-. right. by exists event.
Qed.

Lemma updateStatus_keeps (e e1 : obj) (now : Z) (status : val) (key : string) :
  Event.updateStatus tzOffset Date_parse now e = Ret (e1, status) →
  key ≠ "status"%string → prop e1 key = prop e key.
Proof.
  intros H Hkey. apply updateStatus_shape in H
    as [(_ & -> & _)|(_ & -> & _)]; [done|].
  unfold prop. by rewrite lookup_insert_ne.
Qed.

Lemma capacity_written_back (now : Z) (E : val) (event event1 : obj)
    (status : val) (s : MemoryStore) :
  events s !! E = Some event →
  Event.updateStatus tzOffset Date_parse now event = Ret (event1, status) →
  EventController.within_capacity s →
  EventController.within_capacity (EventController.written_back E event1 s).
Proof.
  intros He Hupd Hcap E' event' m Hlook Hmax.
  change (Z.of_nat (getEventRegistrationCount E' s) ≤ m).
  cbn [EventController.written_back events] in Hlook.
  destruct (decide (E' = E)) as [->|Hne].
  - rewrite lookup_insert_eq in Hlook. injection Hlook as <-.
    apply (Hcap E event m He).
    by rewrite <- (updateStatus_keeps event event1 now status).
  - rewrite lookup_insert_ne in Hlook by done. by apply (Hcap E' event' m).
Qed.

Lemma serve_keeps_capacity (r : EventController.request)
    (s s' : MemoryStore) (reply : EventController.response) :
  serve r s = Ret (reply, s') →
  EventController.within_capacity s → EventController.within_capacity s'.
Proof.
  intros H Hcap. destruct r as [uuid now created body user|id user
                               |now id user|now id user];
    cbn [EventController.serve] in H.
  - (* createEvent *)
    apply createEvent_effect in H as [[-> _]|(_ & Hvalid & -> & _)]; [done|].
    set (eventData := <["organizerId" := prop user "id"]> body) in *.
    set (event := Event.construct Date_parse uuid created eventData) in *.
    intros E' event' m Hlook Hmax.
    rewrite getEventRegistrationCount_participants, participants_createEvent.
    change (prop event "id") with (VStr uuid) in *.
    cbn [Store.createEvent snd events] in Hlook.
    change (prop event "id") with (VStr uuid) in Hlook.
    destruct (decide (E' = VStr uuid)) as [->|Hne].
    + rewrite lookup_insert_eq in Hlook. injection Hlook as <-.
      rewrite size_empty.
      assert (Hm : prop eventData "maxParticipants" = VNum m).
      { change (or_default (prop eventData "maxParticipants") VNull = VNum m)
          in Hmax.
        unfold or_default in Hmax. by case_bool_decide. }
      unfold Event.validate in Hvalid. cbn [Event.isValid] in Hvalid.
      rewrite bool_decide_eq_true, length_zero_iff_nil, !app_nil in Hvalid.
      destruct Hvalid as (_ & _ & _ & _ & _ & _ & Hpos & _).
      apply positive_number_nil in Hpos. rewrite Hm in Hpos.
      destruct Hpos as [Hz|(k & [= <-] & Hk)]; [|lia].
      cbn in Hz. apply negb_false_iff, Z.eqb_eq in Hz. lia.
    + rewrite lookup_insert_ne in Hlook by done.
      rewrite <- getEventRegistrationCount_participants.
      by apply (Hcap E' event' m).
  - (* deleteEvent *)
    apply deleteEvent_effect in H as [[-> _]|(event & He & _ & -> & _)];
      [done|].
    intros E' event' m Hlook Hmax.
    rewrite getEventRegistrationCount_participants.
    rewrite (participants_deleteEvent _ _ event) by done.
    unfold Store.deleteEvent in Hlook. rewrite He in Hlook.
    cbn [snd events] in Hlook.
    apply lookup_delete_Some in Hlook as [Hne Hlook].
    rewrite decide_False by done.
    rewrite <- getEventRegistrationCount_participants.
    by apply (Hcap E' event' m).
  - (* registerForEvent *)
    apply registerForEvent_effect in H
      as [[-> _]|(event & event1 & status & He & Hupd & [[-> _]|Hreg])];
      [done| |].
    + by apply (capacity_written_back now _ event event1 status).
    + destruct Hreg as (-> & Hu & Hnot & Hfull & _).
      set (E := VStr id) in *. set (U := prop user "id") in *.
      set (s1 := EventController.written_back E event1 s) in *.
      pose proof (capacity_written_back now E event event1 status s
                    He Hupd Hcap) as Hcap1.
      assert (Hev1 : is_Some (events s1 !! E))
        by (exists event1; apply lookup_insert_eq).
      intros E' event' m Hlook Hmax.
      rewrite getEventRegistrationCount_participants.
      rewrite participants_register by done.
      rewrite (registerUserForEvent_accepted U E s1) in Hlook by done.
      cbn [snd events] in Hlook.
      destruct (decide (E' = E)) as [->|Hne].
      * rewrite size_union, size_singleton by set_solver.
        change (participants s1 E) with (participants s E).
        rewrite <- getEventRegistrationCount_participants.
        unfold s1 in Hlook. cbn [EventController.written_back events] in Hlook.
        rewrite lookup_insert_eq in Hlook. injection Hlook as <-.
        unfold Event.isFull in Hfull. rewrite Hmax in Hfull.
        rewrite bool_decide_eq_false_2 in Hfull by done.
        cbn in Hfull. injection Hfull as Hfull.
        apply bool_decide_eq_false in Hfull. lia.
      * rewrite <- getEventRegistrationCount_participants.
        by apply (Hcap1 E' event' m).
  - (* unregisterFromEvent *)
    apply unregisterFromEvent_effect in H
      as [[-> _]|(event & event1 & status & He & Hin & Hupd
                  & [[-> _]|Hunreg])];
      [done| |].
    + by apply (capacity_written_back now _ event event1 status).
    + destruct Hunreg as (-> & _).
      set (E := VStr id) in *. set (U := prop user "id") in *.
      set (s1 := EventController.written_back E event1 s) in *.
      pose proof (capacity_written_back now E event event1 status s
                    He Hupd Hcap) as Hcap1.
      intros E' event' m Hlook Hmax.
      rewrite getEventRegistrationCount_participants, participants_unregister.
      pose proof (Hcap1 E' event' m Hlook Hmax) as Hle.
      rewrite getEventRegistrationCount_participants in Hle.
      case_decide; [|done].
      assert (size (participants s1 E' ∖ {[U]}) ≤ size (participants s1 E'))%nat
        by (apply subseteq_size; set_solver).
      unfold s1 in *. lia.
Qed.



Lemma mirrored_written_back (E : val) (event event1 : obj) (s : MemoryStore) :
  events s !! E = Some event → mirrored s → referential s →
  mirrored (EventController.written_back E event1 s)
  ∧ referential (EventController.written_back E event1 s).
Proof.
  intros He Hm Hr. split; [exact Hm|].
  intros U E' Hin. destruct (Hr U E' Hin) as [Hu He'].
  split; [exact Hu|]. cbn [EventController.written_back events].
  destruct (decide (E' = E)) as [->|Hne].
  - rewrite lookup_insert_eq. by eexists.
  - by rewrite lookup_insert_ne.
Qed.

Lemma serve_keeps_mirrored (r : EventController.request)
    (s s' : MemoryStore) (reply : EventController.response) :
  serve r s = Ret (reply, s') →
  match r with
  | EventController.PostEvent uuid _ _ _ _ => events s !! VStr uuid = None
  | _ => True
  end →
  mirrored s → referential s → mirrored s' ∧ referential s'.
Proof.
  intros H Hfresh Hm Hr.
  destruct r as [uuid now created body user|id user
                |now id user|now id user];
    cbn [EventController.serve] in H.
  - apply createEvent_effect in H as [[-> _]|(_ & _ & -> & _)]; [done|].
    apply (step_keeps_mirrored s (CreateEvent _)); [|done|done].
    left. exact Hfresh.
  - apply deleteEvent_effect in H as [[-> _]|(event & He & _ & -> & _)];
      [done|].
    by apply (step_keeps_mirrored s (DeleteEvent _)).
  - apply registerForEvent_effect in H
      as [[-> _]|(event & event1 & status & He & Hupd & [[-> _]|(-> & _)])];
      [done| |].
    + by apply (mirrored_written_back _ event).
    + destruct (mirrored_written_back (VStr id) event event1 s He Hm Hr)
        as [Hm1 Hr1].
      by apply (step_keeps_mirrored _ (Register _ _)).
  - apply unregisterFromEvent_effect in H
      as [[-> _]|(event & event1 & status & He & _ & Hupd
                  & [[-> _]|(-> & _)])];
      [done| |].
    + by apply (mirrored_written_back _ event).
    + destruct (mirrored_written_back (VStr id) event event1 s He Hm Hr)
        as [Hm1 Hr1].
      by apply (step_keeps_mirrored _ (Unregister _ _)).
Qed.

(** X23: the two registration indexes stay mirrored, and every registered
    pair joins a stored user and a stored event, along every sequence of
    requests that create and delete events and registrations, provided the
    identifier of each created event is not stored at that moment. *)
Theorem handlers_keep_mirror (requests : list EventController.request)
    (s s' : MemoryStore) :
  mirrored s → referential s →
  EventController.fresh_uuids tzOffset Date_parse Date_toISOString requests s →
  serve_all requests s = Ret s' →
  mirrored s' ∧ referential s'.
Proof.
  revert s. induction requests as [|r rest IH]; intros s Hm Hr Hfresh H.
  - injection H as <-. done.
  - cbn [EventController.serve_all] in H.
    cbn [EventController.fresh_uuids] in Hfresh.
    destruct Hfresh as [Hnew Hfresh].
    destruct (serve r s) as [[reply s1]| |] eqn:Hserve; [|done|done].
    cbn [mbind js_bind snd] in H, Hfresh.
    destruct (serve_keeps_mirrored r s s1 reply Hserve Hnew Hm Hr)
      as [Hm1 Hr1].
    by apply (IH s1).
Qed.


(** X24: when [unregisterFromEvent] answers with success, the user was a
    participant of the event; afterwards the user has left its
    participants and the event the registrations of the user, nothing else
    in the two indexes has changed, the registration count of the event is
    one less, and the status of the event after the update is neither
    ['ongoing'] nor ['completed'].  A refusal leaves both indexes as they
    were and names its reason: 404 when the event is not stored, 400 when
    the user is not a participant, 400 when the event has started.  The
    answer 500 of the [catch] clause comes either with the indexes
    unchanged or, when [toJSON] raises, after the registration is removed.
    The users are never touched. *)
Theorem unregisterFromEvent_outcome (now : Z) (id : string) (user : obj)
    (s s' : MemoryStore) (reply : EventController.response) :
  unregisterFromEvent now id user s = Ret (reply, s') →
  let U := prop user "id" in
  let E := VStr id in
  users s' = users s
  ∧ match reply with
    | EventController.Unregistered json =>
        U ∈ participants s E
        ∧ (∀ E', participants s' E'
                 = if decide (E' = E) then participants s E' ∖ {[U]}
                   else participants s E')
        ∧ (∀ U', registrations s' U'
                 = if decide (U' = U) then registrations s U' ∖ {[E]}
                   else registrations s U')
        ∧ S (getEventRegistrationCount E s') = getEventRegistrationCount E s
        ∧ ∃ event1, events s' !! E = Some event1
                    ∧ prop event1 "status" ≠ VStr "ongoing"
                    ∧ prop event1 "status" ≠ VStr "completed"
                    ∧ Event.toJSON Date_toISOString event1 = Ret json
    | EventController.Refused status code =>
        same_registrations s s'
        ∧ ((status = 404 ∧ code = "EVENT_NOT_FOUND"%string
            ∧ events s !! E = None)
           ∨ (status = 400 ∧ code = "NOT_REGISTERED"%string
              ∧ is_Some (events s !! E) ∧ (U ∉ participants s E))
           ∨ (status = 400 ∧ code = "EVENT_STARTED"%string
              ∧ U ∈ participants s E
              ∧ ∃ event1, events s' !! E = Some event1
                          ∧ (prop event1 "status" = VStr "ongoing"
                             ∨ prop event1 "status" = VStr "completed")))
    | EventController.Failure =>
        same_registrations s s'
        ∨ (U ∈ participants s E ∧ (U ∉ participants s' E)
           ∧ ∃ event1, events s' !! E = Some event1
                       ∧ Event.toJSON Date_toISOString event1 = Throw)
    | _ => False
    end.
Proof.
  intros H U E. unfold EventController.unregisterFromEvent, getEventById in H.
  fold E U in H.
  destruct (events s !! E) as [event|] eqn:He.
  2:{ injection H as <- <-. split; [done|]. split; [done|]. by left. }
  destruct (isUserRegisteredForEvent U E s) eqn:Hreg; cbn [negb] in H.
  2:{ injection H as <- <-. split; [done|]. split; [done|]. right. left.
      apply isUserRegisteredForEvent_false in Hreg. done. }
  apply isUserRegisteredForEvent_participants in Hreg.
  apply caught_Ret in H as [[_ [= -> ->]]|([event1 status] & Hupd & H)];
    [by split; [|left]|].
  cbn [fst] in H.
  set (s1 := EventController.written_back E event1 s) in *.
  assert (Hev1 : events s1 !! E = Some event1) by apply lookup_insert_eq.
  destruct (bool_decide (prop event1 "status" = VStr "ongoing")) eqn:Hon.
  { cbn [orb] in H. injection H as <- <-. apply bool_decide_eq_true in Hon.
    split; [done|]. split; [done|]. do 2 right.
    repeat (split; [done|]). exists event1. auto. }
  destruct (bool_decide (prop event1 "status" = VStr "completed")) eqn:Hco.
  { cbn [orb] in H. injection H as <- <-. apply bool_decide_eq_true in Hco.
    split; [done|]. split; [done|]. do 2 right.
    repeat (split; [done|]). exists event1. auto. }
  apply bool_decide_eq_false in Hon, Hco. cbn [orb] in H.
  assert (HpE : participants (unregisterUserFromEvent U E s1).2 E
                = participants s E ∖ {[U]}).
  { rewrite participants_unregister. by rewrite decide_True. }
  apply caught_Ret in H as [[Hjson [= -> ->]]|(json & Hjson & [= <- <-])].
  - split; [reflexivity|]. right. split; [exact Hreg|].
    split; [|by exists event1].
    change (U ∉ participants (unregisterUserFromEvent U E s1).2 E).
    rewrite HpE. set_solver.
  - split; [reflexivity|]. split; [exact Hreg|].
    split; [intros E'; apply (participants_unregister U E s1)|].
    split; [intros U'; apply (registrations_unregister U E s1)|].
    split; [|by exists event1].
    change (S (getEventRegistrationCount E (unregisterUserFromEvent U E s1).2)
            = getEventRegistrationCount E s).
    rewrite !getEventRegistrationCount_participants, HpE.
    symmetry. by apply size_remove_member.
Qed.

(** X25: in a store whose indexes are mirrored, a registration answered
    with 201 followed by an unregistration of the same user and event
    answered with success leaves every participant set, every registration
    set, the users and the registration count as they were before the two
    requests. *)
Theorem register_then_unregister (now1 now2 : Z) (id : string) (user : obj)
    (s s1 s2 : MemoryStore) (json1 json2 : obj) (n : nat) :
  mirrored s →
  registerForEvent now1 id user s
  = Ret (EventController.Registered json1 n, s1) →
  unregisterFromEvent now2 id user s1
  = Ret (EventController.Unregistered json2, s2) →
  (∀ E', participants s2 E' = participants s E')
  ∧ (∀ U', registrations s2 U' = registrations s U')
  ∧ users s2 = users s
  ∧ getEventRegistrationCount (VStr id) s2
    = getEventRegistrationCount (VStr id) s
  ∧ mirrored s2.
Proof.
  intros Hm Hreg Hunreg.
  set (U := prop user "id"). set (E := VStr id).
  apply registerForEvent_effect in Hreg
    as [[_ Hno]|(event & event1 & status & He & Hupd
                 & [[_ Hno]|(-> & Hu & Hnot & _)])];
    [by destruct (Hno json1 n)|by destruct (Hno json1 n)|].
  fold U E in Hu, Hnot, Hunreg |- *.
  set (t1 := EventController.written_back E event1 s) in *.
  assert (Hev1 : is_Some (events t1 !! E))
    by (exists event1; apply lookup_insert_eq).
  assert (Hp1 : ∀ E', participants (registerUserForEvent U E t1).2 E'
                      = if decide (E' = E) then {[U]} ∪ participants s E'
                        else participants s E')
    by (intros E'; change (participants s E') with (participants t1 E');
        by apply participants_register).
  assert (Hr1 : ∀ U', registrations (registerUserForEvent U E t1).2 U'
                      = if decide (U' = U) then {[E]} ∪ registrations s U'
                        else registrations s U')
    by (intros U'; change (registrations s U') with (registrations t1 U');
        by apply registrations_register).
  assert (Husers1 : users (registerUserForEvent U E t1).2 = users s)
    by (by rewrite registerUserForEvent_accepted).
  set (r1 := (registerUserForEvent U E t1).2) in *.
  apply unregisterFromEvent_effect in Hunreg
    as [[_ Hno]|(event' & event2 & status' & He' & Hin & Hupd'
                 & [[_ Hno]|(-> & _)])];
    [by destruct (Hno json2)|by destruct (Hno json2)|].
  fold U E.
  set (t2 := EventController.written_back E event2 r1) in *.
  assert (Hpart : ∀ E', participants (unregisterUserFromEvent U E t2).2 E'
                        = participants s E').
  { intros E'. rewrite participants_unregister.
    change (participants t2 E') with (participants r1 E'). rewrite Hp1.
    case_decide; [subst E'|done]. set_solver. }
  assert (Hregs : ∀ U', registrations (unregisterUserFromEvent U E t2).2 U'
                        = registrations s U').
  { intros U'. rewrite registrations_unregister.
    change (registrations t2 U') with (registrations r1 U'). rewrite Hr1.
    case_decide; [subst U'|done].
    assert (E ∉ registrations s U) by (by rewrite <- (Hm U E)).
    set_solver. }
  split; [exact Hpart|]. split; [exact Hregs|]. split; [exact Husers1|].
  split; [by rewrite !getEventRegistrationCount_participants, Hpart|].
  intros U' E'. rewrite Hpart, Hregs. apply Hm.
Qed.

(** X26: [createEvent] never answers 500.  When it answers 201 the user is
    an organizer, and the event stored under the new identifier carries
    that identifier, the identifier of the user as its organizer, whatever
    organizer the body names, and the status ['upcoming']; the response
    shows it with the same organizer; it has no participants; every other
    event, the users and the registrations of the users are as before.
    When the user is no organizer the answer is 403, and when the
    validation fails it is 400 with the errors of [Event.validate] on the
    body with the user as organizer; the store is unchanged in both
    cases. *)
Theorem createEvent_outcome (uuid : string) (now created : Z)
    (body user : obj) (s s' : MemoryStore)
    (reply : EventController.response) :
  createEvent uuid now created body user s = Ret (reply, s') →
  let E := VStr uuid in
  match reply with
  | EventController.Created json =>
      User.isOrganizer user = true
      ∧ (∃ event,
           events s' !! E = Some event
           ∧ prop event "id" = VStr uuid
           ∧ prop event "organizerId" = prop user "id"
           ∧ prop event "status" = VStr "upcoming"
           ∧ Event.toJSON Date_toISOString event = Ret json
           ∧ prop json "organizerId" = prop user "id")
      ∧ participants s' E = ∅
      ∧ (∀ E', E' ≠ E → events s' !! E' = events s !! E'
                        ∧ participants s' E' = participants s E')
      ∧ users s' = users s
      ∧ userRegistrations s' = userRegistrations s
  | EventController.Refused status code =>
      s' = s ∧ status = 403 ∧ code = "INSUFFICIENT_PRIVILEGES"%string
      ∧ User.isOrganizer user = false
  | EventController.Invalid details =>
      s' = s ∧ details ≠ []
      ∧ details
        = Event.errors
            (Event.validate tzOffset Date_parse now
               (<["organizerId" := prop user "id"]> body))
  | _ => False
  end.
Proof.
  intros H E. unfold EventController.createEvent in H.
  destruct (User.isOrganizer user) eqn:Horg; cbn [negb] in H.
  2:{ by injection H as <- <-. }
  set (eventData := <["organizerId" := prop user "id"]> body) in *.
  destruct (Event.isValid (Event.validate tzOffset Date_parse now eventData))
    eqn:Hvalid; cbn [negb] in H.
  2:{ injection H as <- <-. split; [done|]. split; [|done].
      intros Hnil. unfold Event.validate in Hvalid, Hnil.
      cbn [Event.isValid Event.errors] in Hvalid, Hnil.
      rewrite Hnil in Hvalid. done. }
  set (event := Event.construct Date_parse uuid created eventData) in *.
  assert (Hdate : ∃ t, prop event "date" = VDate (Some t)).
  { unfold Event.validate in Hvalid. cbn [Event.isValid] in Hvalid.
    rewrite bool_decide_eq_true, length_zero_iff_nil, !app_nil in Hvalid.
    destruct Hvalid as (_ & _ & Hdate & _).
    apply date_errors_nil in Hdate as (_ & t & Ht & _).
    exists t. rewrite <- Ht. reflexivity. }
  destruct Hdate as [t Ht].
  unfold Event.toJSON in H. rewrite Ht in H. cbn [EventController.caught] in H.
  injection H as <- <-. split; [done|].
  change (prop event "id") with (VStr uuid). fold E.
  split.
  { exists event. split; [apply lookup_insert_eq|]. split; [reflexivity|].
    split.
    { change (prop event "organizerId") with (prop eventData "organizerId").
      unfold eventData, prop. by rewrite lookup_insert_eq. }
    split; [reflexivity|].
    split; [unfold Event.toJSON; by rewrite Ht|].
    unfold prop at 1. rewrite lookup_insert_ne by done.
    change (default VUndef (event !! "organizerId"))
      with (prop eventData "organizerId").
    unfold eventData, prop. by rewrite lookup_insert_eq. }
  split.
  { change (participants (Store.createEvent event s).2 E = ∅).
    rewrite participants_createEvent. by rewrite decide_True. }
  split; [|done].
  intros E' HE'. split; [by apply lookup_insert_ne|].
  change (participants (Store.createEvent event s).2 E' = participants s E').
  rewrite participants_createEvent. by rewrite decide_False.
Qed.

Lemma events_after_update (E : val) (event1 : obj) (s : MemoryStore) :
  let s2 := (Store.updateEvent E event1
               (EventController.written_back E event1 s)).2 in
  users s2 = users s
  ∧ eventRegistrations s2 = eventRegistrations s
  ∧ userRegistrations s2 = userRegistrations s
  ∧ events s2 !! E = Some event1
  ∧ ∀ E', E' ≠ E → events s2 !! E' = events s !! E'.
Proof.
  cbn zeta. unfold Store.updateEvent.
  cbn [EventController.written_back events].
  rewrite lookup_insert_eq. cbn [snd users events eventRegistrations
                                  userRegistrations].
  unfold Object_assign. rewrite (idemp_L (∪)).
  repeat (split; [done|]). split; [apply lookup_insert_eq|].
  intros E' HE'. by rewrite !lookup_insert_ne.
Qed.

(** X27: [updateEvent] never touches the users, the registrations or any
    other event.  It answers 404 when the event is not stored, 403 when
    the user is not its organizer, and 400 with the errors of
    [Event.validate] on the event overlaid with the body when the body
    gives a date or a time and that validation fails; the store is
    unchanged in the three cases.  Otherwise the user is the organizer,
    the overlaid data were valid if a date or a time was given, and the
    stored event is the one [update] makes: every property outside the
    allowed fields and [updatedAt] as before, the identifier and the
    organizer among them.  The response shows it; when [toJSON] raises the
    answer is 500 and the update is stored all the same. *)
Theorem updateEvent_outcome (now updated : Z) (id : string)
    (updates user : obj) (s s' : MemoryStore)
    (reply : EventController.response) :
  updateEvent now updated id updates user s = Ret (reply, s') →
  let E := VStr id in
  users s' = users s
  ∧ same_registrations s s'
  ∧ (∀ E', E' ≠ E → events s' !! E' = events s !! E')
  ∧ match reply with
    | EventController.Refused status code =>
        s' = s
        ∧ ((status = 404 ∧ code = "EVENT_NOT_FOUND"%string
            ∧ events s !! E = None)
           ∨ (status = 403 ∧ code = "OWNERSHIP_REQUIRED"%string
              ∧ ∃ event, events s !! E = Some event
                         ∧ EventController.strict_equal
                             (prop event "organizerId") (prop user "id")
                           = Ret false))
    | EventController.Invalid details =>
        s' = s
        ∧ (truthy (prop updates "date") = true
           ∨ truthy (prop updates "time") = true)
        ∧ details ≠ []
        ∧ ∃ event, events s !! E = Some event
                   ∧ details
                     = Event.errors
                         (Event.validate tzOffset Date_parse now
                            (Object_assign event updates))
    | EventController.Updated _ | EventController.Failure =>
        ∃ event,
          events s !! E = Some event
          ∧ EventController.strict_equal (prop event "organizerId")
              (prop user "id") = Ret true
          ∧ (truthy (prop updates "date") = true
             ∨ truthy (prop updates "time") = true →
             Event.isValid (Event.validate tzOffset Date_parse now
                              (Object_assign event updates)) = true)
          ∧ events s' !! E
            = Some (Event.update Date_parse updated updates event)
          ∧ (∀ key, key ∉ Event.allowedUpdates → key ≠ "updatedAt"%string →
                    Event.update Date_parse updated updates event !! key
                    = event !! key)
          ∧ Event.toJSON Date_toISOString
              (Event.update Date_parse updated updates event)
            = match reply with
              | EventController.Updated json => Ret json
              | _ => Throw
              end
    | _ => False
    end.
Proof.
  intros H E. unfold EventController.updateEvent, getEventById in H.
  fold E in H.
  destruct (events s !! E) as [event|] eqn:He.
  2:{ injection H as <- <-. repeat (split; [done|]). by left. }
  destruct (EventController.strict_equal (prop event "organizerId")
              (prop user "id")) as [own| |] eqn:Hown;
    [|destruct (prop event "organizerId"), (prop user "id"); discriminate
     |done].
  cbn [EventController.caught] in H. destruct own; cbn [negb] in H.
  2:{ injection H as <- <-. repeat (split; [done|]). right.
      repeat (split; [done|]). by exists event. }
  destruct ((truthy (prop updates "date") || truthy (prop updates "time"))
            && negb (Event.isValid
                       (Event.validate tzOffset Date_parse now
                          (Object_assign event updates)))) eqn:Hcheck.
  { injection H as <- <-. apply andb_true_iff in Hcheck as [Hgiven Hbad].
    apply orb_true_iff in Hgiven. apply negb_true_iff in Hbad.
    do 4 (split; [done|]). split; [exact Hgiven|].
    split; [|by exists event].
    intros Hnil. unfold Event.validate in Hbad, Hnil.
    cbn [Event.isValid Event.errors] in Hbad, Hnil.
    rewrite Hnil in Hbad. done. }
  set (event1 := Event.update Date_parse updated updates event) in *.
  destruct (events_after_update E event1 s)
    as (Husers & Hereg & Hureg & Hat & Hothers).
  assert (Hvalid : truthy (prop updates "date") = true
                   ∨ truthy (prop updates "time") = true →
                   Event.isValid (Event.validate tzOffset Date_parse now
                                    (Object_assign event updates)) = true).
  { intros Hgiven. apply orb_true_iff in Hgiven. rewrite Hgiven in Hcheck.
    cbn [andb] in Hcheck. by apply negb_false_iff in Hcheck. }
  assert (Hframe : ∀ key, key ∉ Event.allowedUpdates →
                          key ≠ "updatedAt"%string →
                          event1 !! key = event !! key).
  { intros key Hkey Hstamp. unfold event1. rewrite lookup_Event_update.
    rewrite decide_False by done. rewrite decide_False by tauto. done. }
  apply caught_Ret in H as [[Hjson [= -> ->]]|(json & Hjson & [= <- <-])].
  - split; [exact Husers|]. split; [by split|]. split; [exact Hothers|].
    exists event. by repeat (split; [done|]).
  - split; [exact Husers|]. split; [by split|]. split; [exact Hothers|].
    exists event. by repeat (split; [done|]).
Qed.

End ControllerFacts.

Section DeleteHandler.
Import Store.

(** X28: [deleteEvent] answers 404 when the event is not stored and 403
    when the user is not its organizer, leaving the store unchanged, and it
    never answers 500.  When it answers with success the user is the
    organizer; the event and its participant set are gone, the event has
    left the registrations of its participants, all else is unchanged, and
    in a mirrored store no user keeps a registration for it.  The number of
    participants notified is at most the registration count of the event,
    and equal to it when every registered pair joins a stored user and a
    stored event. *)
Theorem deleteEvent_outcome (id : string) (user : obj) (s s' : MemoryStore)
    (reply : EventController.response) :
  EventController.deleteEvent id user s = Ret (reply, s') →
  let E := VStr id in
  users s' = users s
  ∧ match reply with
    | EventController.Deleted n =>
        (∃ event, events s !! E = Some event
                  ∧ EventController.strict_equal (prop event "organizerId")
                      (prop user "id") = Ret true)
        ∧ events s' = delete E (events s)
        ∧ (∀ E', participants s' E'
                 = if decide (E' = E) then ∅ else participants s E')
        ∧ (∀ U', registrations s' U'
                 = if decide (U' ∈ participants s E)
                   then registrations s U' ∖ {[E]} else registrations s U')
        ∧ (mirrored s → ∀ U', E ∉ registrations s' U')
        ∧ (n ≤ getEventRegistrationCount E s)%nat
        ∧ (referential s → n = getEventRegistrationCount E s)
    | EventController.Refused status code =>
        s' = s
        ∧ ((status = 404 ∧ code = "EVENT_NOT_FOUND"%string
            ∧ events s !! E = None)
           ∨ (status = 403 ∧ code = "OWNERSHIP_REQUIRED"%string
              ∧ ∃ event, events s !! E = Some event
                         ∧ EventController.strict_equal
                             (prop event "organizerId") (prop user "id")
                           = Ret false))
    | _ => False
    end.
Proof.
  intros H E. unfold EventController.deleteEvent, getEventById in H.
  fold E in H.
  destruct (events s !! E) as [event|] eqn:He.
  2:{ injection H as <- <-. split; [done|]. split; [done|]. by left. }
  destruct (EventController.strict_equal (prop event "organizerId")
              (prop user "id")) as [own| |] eqn:Hown;
    [|destruct (prop event "organizerId"), (prop user "id"); discriminate
     |done].
  cbn [EventController.caught] in H. destruct own; cbn [negb] in H.
  2:{ injection H as <- <-. split; [done|]. split; [done|]. right.
      repeat (split; [done|]). by exists event. }
  injection H as <- <-.
  assert (Hregs : ∀ U', Store.registrations (Store.deleteEvent E s).2 U'
                        = if decide (U' ∈ participants s E)
                          then registrations s U' ∖ {[E]}
                          else registrations s U')
    by (intros U'; by apply (registrations_deleteEvent _ _ event)).
  split; [unfold Store.deleteEvent; by rewrite He|].
  split; [by exists event|].
  split; [unfold Store.deleteEvent; by rewrite He|].
  split; [intros E'; by apply (participants_deleteEvent _ _ event)|].
  split; [exact Hregs|].
  split.
  { intros Hm U'. rewrite Hregs. case_decide as Hin; [set_solver|].
    by rewrite <- (Hm U' E). }
  rewrite getEventRegistrationCount_participants.
  unfold getEventRegistrations. fold (participants s E).
  split; [apply length_omap_le|].
  intros Hr. apply length_omap_total. intros U' HU'.
  apply elem_of_elements in HU'. by destruct (Hr U' E HU').
Qed.

End DeleteHandler.

Section HandlerSamples.
Import Store.

Lemma registerForEvent_success_witness :
  ∃ json s',
    EventController.registerForEvent 0 Sample.parse_one_date
      Sample.iso_day_one 0 "e-7" Sample.bob Sample.two_guests
    = Ret (EventController.Registered json 1, s')
    ∧ participants s' (VStr "e-7")
      = {[prop Sample.bob "id"]} ∪ participants Sample.two_guests (VStr "e-7").
Proof.
  assert (H : ∃ json s',
             EventController.registerForEvent 0 Sample.parse_one_date
               Sample.iso_day_one 0 "e-7" Sample.bob Sample.two_guests
             = Ret (EventController.Registered json 1, s'))
    by (eexists _, _; reflexivity).
  destruct H as (json & s' & H). exists json, s'. split; [exact H|].
  destruct (registerForEvent_success 0 Sample.parse_one_date
              Sample.iso_day_one 0 "e-7" Sample.bob Sample.two_guests
              s' json 1 H) as (_ & _ & Hp & _).
  exact Hp.
Defined.

Lemma registerForEvent_refusals_witness :
  ∃ s',
    EventController.registerForEvent 0 Sample.parse_one_date
      Sample.iso_day_one 0 "e-7" Sample.bob Sample.bob_registered
    = Ret (EventController.Refused 409 "ALREADY_REGISTERED", s')
    ∧ users s' = users Sample.bob_registered.
Proof.
  assert (H : ∃ s',
             EventController.registerForEvent 0 Sample.parse_one_date
               Sample.iso_day_one 0 "e-7" Sample.bob Sample.bob_registered
             = Ret (EventController.Refused 409 "ALREADY_REGISTERED", s'))
    by (eexists; reflexivity).
  destruct H as (s' & H). exists s'. split; [exact H|].
  exact (proj1 (registerForEvent_refusals 0 Sample.parse_one_date
                  Sample.iso_day_one 0 "e-7" Sample.bob
                  Sample.bob_registered s' _ H)).
Defined.

Lemma unregisterFromEvent_outcome_witness :
  ∃ json s',
    EventController.unregisterFromEvent 0 Sample.parse_one_date
      Sample.iso_day_one 0 "e-7" Sample.bob Sample.bob_registered
    = Ret (EventController.Unregistered json, s')
    ∧ prop Sample.bob "id" ∈ participants Sample.bob_registered (VStr "e-7").
Proof.
  assert (H : ∃ json s',
             EventController.unregisterFromEvent 0 Sample.parse_one_date
               Sample.iso_day_one 0 "e-7" Sample.bob Sample.bob_registered
             = Ret (EventController.Unregistered json, s'))
    by (eexists _, _; reflexivity).
  destruct H as (json & s' & H). exists json, s'. split; [exact H|].
  destruct (unregisterFromEvent_outcome 0 Sample.parse_one_date
              Sample.iso_day_one 0 "e-7" Sample.bob
              Sample.bob_registered s' _ H) as (_ & Hin & _).
  exact Hin.
Defined.

Lemma createEvent_outcome_witness :
  ∃ json s',
    EventController.createEvent 0 Sample.parse_one_date Sample.iso_day_one
      "e-9" 100 100 Sample.workshop Sample.olga Sample.two_guests
    = Ret (EventController.Created json, s')
    ∧ prop json "organizerId" = VStr "u-9".
Proof.
  assert (H : ∃ json s',
             EventController.createEvent 0 Sample.parse_one_date
               Sample.iso_day_one "e-9" 100 100 Sample.workshop
               Sample.olga Sample.two_guests
             = Ret (EventController.Created json, s'))
    by (eexists _, _; reflexivity).
  destruct H as (json & s' & H). exists json, s'. split; [exact H|].
  destruct (createEvent_outcome 0 Sample.parse_one_date Sample.iso_day_one
              "e-9" 100 100 Sample.workshop Sample.olga Sample.two_guests
              s' _ H) as (_ & (event & _ & _ & _ & _ & _ & Horg) & _).
  exact Horg.
Defined.

Lemma updateEvent_outcome_witness :
  ∃ json s',
    EventController.updateEvent 0 Sample.parse_one_date Sample.iso_day_one
      100 100 "e-7" Sample.meddling Sample.alice Sample.two_guests
    = Ret (EventController.Updated json, s')
    ∧ users s' = users Sample.two_guests.
Proof.
  assert (H : ∃ json s',
             EventController.updateEvent 0 Sample.parse_one_date
               Sample.iso_day_one 100 100 "e-7" Sample.meddling
               Sample.alice Sample.two_guests
             = Ret (EventController.Updated json, s'))
    by (eexists _, _; reflexivity).
  destruct H as (json & s' & H). exists json, s'. split; [exact H|].
  exact (proj1 (updateEvent_outcome 0 Sample.parse_one_date
                  Sample.iso_day_one 100 100 "e-7" Sample.meddling
                  Sample.alice Sample.two_guests s' _ H)).
Defined.


Lemma deleteEvent_outcome_witness :
  ∃ s',
    EventController.deleteEvent "e-7" Sample.alice Sample.bob_registered
    = Ret (EventController.Deleted 1, s')
    ∧ events s' = delete (VStr "e-7") (events Sample.bob_registered).
Proof.
  assert (H : ∃ s',
             EventController.deleteEvent "e-7" Sample.alice
               Sample.bob_registered
             = Ret (EventController.Deleted 1, s'))
    by (eexists; reflexivity).
  destruct H as (s' & H). exists s'. split; [exact H|].
  destruct (deleteEvent_outcome "e-7" Sample.alice Sample.bob_registered
              s' _ H) as (_ & _ & Hev & _).
  exact Hev.
Defined.

(** The sample store of two users and one event is consistent. *)
Lemma two_guests_consistent :
  mirrored Sample.two_guests ∧ referential Sample.two_guests
  ∧ EventController.within_capacity Sample.two_guests.
Proof.
  assert (Hrun : mirrored Sample.two_guests ∧ referential Sample.two_guests).
  { apply (run_keeps_mirrored
             [CreateUser Sample.alice; CreateUser Sample.bob;
              CreateEvent Sample.meetup] empty).
    - repeat split; left; reflexivity.
    - intros U E. unfold participants, registrations. cbn.
      rewrite !lookup_empty. set_solver.
    - intros U E. unfold participants. cbn. rewrite lookup_empty.
      set_solver. }
  destruct Hrun as [Hm Hr]. split; [exact Hm|]. split; [exact Hr|].
  intros E event m Hlook Hmax.
  assert (Hev : events Sample.two_guests
                = {[ VStr "e-7" := Sample.meetup ]}) by reflexivity.
  rewrite Hev in Hlook. apply lookup_singleton_Some in Hlook as [<- <-].
  change (VNum 2 = VNum m) in Hmax. injection Hmax as <-.
  change (getEventRegistrationCount (VStr "e-7") Sample.two_guests)
    with 0%nat. lia.
Qed.

Lemma register_then_unregister_witness :
  ∃ s2,
    (∀ E', participants s2 E' = participants Sample.two_guests E')
    ∧ getEventRegistrationCount (VStr "e-7") s2 = 0%nat.
Proof.
  assert (H1 : ∃ json,
             EventController.registerForEvent 0 Sample.parse_one_date
               Sample.iso_day_one 0 "e-7" Sample.bob Sample.two_guests
             = Ret (EventController.Registered json 1,
                    Sample.bob_registered))
    by (eexists; reflexivity).
  destruct H1 as (json1 & H1).
  assert (H2 : ∃ json s',
             EventController.unregisterFromEvent 0 Sample.parse_one_date
               Sample.iso_day_one 5 "e-7" Sample.bob Sample.bob_registered
             = Ret (EventController.Unregistered json, s'))
    by (eexists _, _; reflexivity).
  destruct H2 as (json2 & s2 & H2). exists s2.
  destruct (register_then_unregister 0 Sample.parse_one_date
              Sample.iso_day_one 0 5 "e-7" Sample.bob Sample.two_guests
              Sample.bob_registered s2 json1 json2 1
              (proj1 two_guests_consistent) H1 H2)
    as (Hp & _ & _ & Hcount & _).
  split; [exact Hp|]. rewrite Hcount. reflexivity.
Defined.


Lemma handlers_keep_mirror_witness :
  ∃ s',
    EventController.serve_all 0 Sample.parse_one_date Sample.iso_day_one
      [EventController.PostEvent "e-9" 100 100 Sample.workshop Sample.olga;
       EventController.PostRegistration 0 "e-9" Sample.bob;
       EventController.DeleteEvent "e-7" Sample.alice]
      Sample.two_guests = Ret s'
    ∧ mirrored s'.
Proof.
  eexists. split; [reflexivity|].
  apply (handlers_keep_mirror 0 Sample.parse_one_date Sample.iso_day_one
           [EventController.PostEvent "e-9" 100 100 Sample.workshop
              Sample.olga;
            EventController.PostRegistration 0 "e-9" Sample.bob;
            EventController.DeleteEvent "e-7" Sample.alice]
           Sample.two_guests);
    [exact (proj1 two_guests_consistent)
    | exact (proj1 (proj2 two_guests_consistent))
    | | reflexivity].
  split; [reflexivity|]. split; [exact I|]. split; [exact I|]. exact I.
Defined.

End HandlerSamples.
